(** * The preparation pipeline of the s64da benchmark toolkit

    A shallow embedding of [s64da_benchmark_toolkit/prepare.py]
    (class [PrepareBenchmarkFactory]) together with the properties of its
    stages: the disk-space preflight, the database bootstrap, the parallel
    task runner, ingestion, the index stage and VACUUM/ANALYZE.

    Python integers are [Z], strings are [string], the class-level
    [SIZING_FACTORS] dictionary is a [gmap string (gmap Z Z)].  Everything
    the pipeline does to the outside world (printing, SQL, child processes,
    the thread pool) is recorded as an [event] in a chronological trace, and
    what the outside world answers is read from an environment whose answers
    may depend on the trace so far. *)

From Stdlib Require Import ZArith Ascii String List Lia Permutation.
From stdpp Require Import base gmap strings list pretty.

(** ** Python string and path primitives *)

Module Py.

(** [s.split(sep)] for a one-character separator: never empty. *)
Fixpoint split (sep : ascii) (s : string) : list string :=
  match s with
  | EmptyString => [EmptyString]
  | String c s' =>
      if Ascii.eqb c sep then EmptyString :: split sep s'
      else match split sep s' with
           | w :: ws => String c w :: ws
           | [] => [String c EmptyString]
           end
  end.

(** [l[0]] on a list of strings; [split] never makes the default visible. *)
Definition item0 (l : list string) : string := List.hd EmptyString l.

(** [s.rfind(c)]: index of the last occurrence of [c], [-1] when absent. *)
Fixpoint rfind (c : ascii) (s : string) : Z :=
  match s with
  | EmptyString => (-1)%Z
  | String a s' =>
      let r := rfind c s' in
      if (0 <=? r)%Z then (r + 1)%Z
      else if Ascii.eqb a c then 0%Z else (-1)%Z
  end.

(** [s[i:]] for [0 <= i]. *)
Fixpoint drop (i : nat) (s : string) : string :=
  match i, s with
  | O, _ => s
  | S _, EmptyString => EmptyString
  | S i', String _ s' => drop i' s'
  end.

Definition startswith (p s : string) : bool := String.prefix p s.

Fixpoint endswith_char (c : ascii) (s : string) : bool :=
  match s with
  | EmptyString => false
  | String a EmptyString => Ascii.eqb a c
  | String _ s' => endswith_char c s'
  end.

(** [posixpath.basename]: [i = p.rfind('/') + 1; return p[i:]]. *)
Definition basename (p : string) : string :=
  drop (Z.to_nat (rfind "/"%char p + 1)) p.

(** One round of the loop of [posixpath.join]. *)
Definition join2 (path b : string) : string :=
  if startswith "/" b then b
  else if String.eqb path "" || endswith_char "/"%char path then path +:+ b
  else path +:+ "/" +:+ b.

(** [os.path.join(a, *p)]. *)
Definition join (a : string) (p : list string) : string :=
  fold_left join2 p a.

(** [all(p(c) for c in s)] and [any(...)] *)
Fixpoint all (p : ascii -> bool) (s : string) : bool :=
  match s with
  | EmptyString => true
  | String c s' => p c && all p s'
  end.

Definition contains (c : ascii) (s : string) : bool :=
  negb (all (fun a => negb (Ascii.eqb a c)) s).

(** The part of [s] before the first character satisfying [p], and the
    rest, which starts with that character when there is one. *)
Fixpoint break (p : ascii -> bool) (s : string) : string * string :=
  match s with
  | EmptyString => (EmptyString, EmptyString)
  | String c s' =>
      if p c then (EmptyString, s)
      else let '(a, b) := break p s' in (String c a, b)
  end.

Fixpoint filter (p : ascii -> bool) (s : string) : string :=
  match s with
  | EmptyString => EmptyString
  | String c s' => if p c then String c (filter p s') else filter p s'
  end.

Fixpoint lstrip (p : ascii -> bool) (s : string) : string :=
  match s with
  | EmptyString => EmptyString
  | String c s' => if p c then lstrip p s' else s
  end.

Definition code (c : ascii) : nat := nat_of_ascii c.
Definition between (lo hi : nat) (c : ascii) : bool :=
  (lo <=? code c)%nat && (code c <=? hi)%nat.
Definition is_upper (c : ascii) : bool := between 65 90 c.
Definition is_lower (c : ascii) : bool := between 97 122 c.
Definition is_digit (c : ascii) : bool := between 48 57 c.
Definition is_alpha (c : ascii) : bool := is_upper c || is_lower c.
Definition is_ascii (c : ascii) : bool := (code c <? 128)%nat.

Definition lower_char (c : ascii) : ascii :=
  if is_upper c then ascii_of_nat (code c + 32) else c.

Fixpoint lower (s : string) : string :=
  match s with
  | EmptyString => EmptyString
  | String c s' => String (lower_char c) (lower s')
  end.

(** *** [urllib.parse.urlparse]

    As far as the pipeline reads its result: scheme, network location and
    path, or the [ValueError] that [urlsplit] raises for a network location
    with brackets that do not hold an IPv6 or IPvFuture address.  A
    character is a code point below 256.  The last check of [urlsplit],
    [_checknetloc], looks at a network location with characters outside
    ASCII and refuses it when NFKC normalisation yields one of [/?#@:];
    no character below 256 normalises to a text with one of these, so the
    check passes for every string written here.  The statements below that
    depend on it ask for a network location in ASCII all the same. *)
Record ParseResult : Type := {
  scheme : string;
  netloc : string;
  path : string;
}.

Inductive UrlResult : Type :=
| Parsed (url : ParseResult)
| Invalid (msg : string).        (* raise ValueError(msg) *)

(** [scheme_chars]: letters, digits and [+-.] *)
Definition scheme_char (c : ascii) : bool :=
  is_alpha c || is_digit c
  || Ascii.eqb c "+" || Ascii.eqb c "-" || Ascii.eqb c ".".

(** [_WHATWG_C0_CONTROL_OR_SPACE] and [_UNSAFE_URL_BYTES_TO_REMOVE] *)
Definition c0_or_space (c : ascii) : bool := (code c <=? 32)%nat.
Definition unsafe_byte (c : ascii) : bool :=
  Ascii.eqb c "009" || Ascii.eqb c "010" || Ascii.eqb c "013".

Definition is_colon (c : ascii) : bool := Ascii.eqb c ":".
Definition ends_netloc (c : ascii) : bool :=
  Ascii.eqb c "/" || Ascii.eqb c "?" || Ascii.eqb c "#".
Definition ends_path (c : ascii) : bool :=
  Ascii.eqb c "?" || Ascii.eqb c "#".

Definition uses_params : list string :=
  [""; "ftp"; "hdl"; "prospero"; "http"; "imap"; "https"; "shttp"; "rtsp";
   "rtspu"; "sip"; "sips"; "mms"; "sftp"; "tel"].

(** [_splitparams]: the path up to the first [;] of its last segment. *)
Fixpoint strip_params (url : string) : string :=
  match url with
  | EmptyString => EmptyString
  | String c url' =>
      if Ascii.eqb c ";" && negb (contains "/" url') then EmptyString
      else String c (strip_params url')
  end.

(** [s.partition(c)]: the text before the first [c], whether there is one,
    and the text after it. *)
Definition partition (c : ascii) (s : string) : string * bool * string :=
  match break (fun a => Ascii.eqb a c) s with
  | (before, String _ after) => (before, true, after)
  | (before, EmptyString) => (before, false, EmptyString)
  end.

(** [s.rpartition(c)[2]]: the text after the last [c], all of [s] when
    there is none. *)
Definition after_last (c : ascii) (s : string) : string :=
  drop (Z.to_nat (rfind c s + 1)) s.

(** [int(s, base)] for a string of digits of that base. *)
Definition digit_value (c : ascii) : Z :=
  if is_digit c then Z.of_nat (code c - 48)
  else if is_upper c then Z.of_nat (code c - 55)
  else Z.of_nat (code c - 87).

Fixpoint int_from (base acc : Z) (s : string) : Z :=
  match s with
  | EmptyString => acc
  | String c s' => int_from base (acc * base + digit_value c)%Z s'
  end.

Definition int (s : string) (base : Z) : Z := int_from base 0 s.

(** ['%x' % n] and ['%02x' % n] *)
Definition hex_digit (n : Z) : ascii :=
  match String.get (Z.to_nat n) "0123456789abcdef" with
  | Some c => c
  | None => "0"%char
  end.

Fixpoint hex_from (fuel : nat) (n : Z) (acc : string) : string :=
  match fuel with
  | O => acc
  | S fuel' =>
      let acc := String (hex_digit (n mod 16)) acc in
      if (n / 16 =? 0)%Z then acc else hex_from fuel' (n / 16)%Z acc
  end.

Definition hex (n : Z) : string := hex_from 16 n EmptyString.

Definition hex2 (c : ascii) : string :=
  String (hex_digit (Z.of_nat (code c) / 16))
    (String (hex_digit (Z.of_nat (code c) mod 16)) EmptyString).

(** [repr(s)] of a string. *)
Definition printable (c : ascii) : bool :=
  between 32 126 c || (between 161 255 c && negb (code c =? 173)%nat).

Definition backslash : ascii := "092"%char.

Definition repr_char (quote c : ascii) : string :=
  if Ascii.eqb c quote || Ascii.eqb c backslash
  then String backslash (String c EmptyString)
  else if Ascii.eqb c "009" then String backslash "t"
  else if Ascii.eqb c "010" then String backslash "n"
  else if Ascii.eqb c "013" then String backslash "r"
  else if printable c then String c EmptyString
  else String backslash "x" +:+ hex2 c.

Fixpoint repr_body (quote : ascii) (s : string) : string :=
  match s with
  | EmptyString => EmptyString
  | String c s' => repr_char quote c +:+ repr_body quote s'
  end.

Definition repr (s : string) : string :=
  let quote :=
    if contains "'" s && negb (contains "034" s) then "034"%char
    else "'"%char in
  String quote (repr_body quote s) +:+ String quote EmptyString.

(** [ipaddress.IPv4Address(a)._ip], [None] for [AddressValueError]. *)
Definition parse_octet (octet_str : string) : option Z :=
  if String.eqb octet_str "" then None
  else if negb (all is_digit octet_str) then None
  else if (3 <? String.length octet_str)%nat then None
  else if negb (String.eqb octet_str "0") && startswith "0" octet_str
       then None
  else if (255 <? int octet_str 10)%Z then None
  else Some (int octet_str 10).

Fixpoint from_bytes (acc : Z) (octets : list string) : option Z :=
  match octets with
  | [] => Some acc
  | o :: octets' =>
      match parse_octet o with
      | Some n => from_bytes (acc * 256 + n)%Z octets'
      | None => None
      end
  end.

Definition IPv4Address (address : string) : option Z :=
  if contains "/" address then None
  else if String.eqb address "" then None
  else
    let octets := split "." address in
    if negb (length octets =? 4)%nat then None
    else from_bytes 0 octets.

(** [IPv6Address._parse_hextet] succeeds: hex digits, at most four, and
    [int(s, 16)] takes no empty string. *)
Definition is_hex (c : ascii) : bool :=
  is_digit c || between 65 70 c || between 97 102 c.

Definition hextet_ok (hextet_str : string) : bool :=
  all is_hex hextet_str
  && (String.length hextet_str <=? 4)%nat
  && negb (String.eqb hextet_str "").

(** The indices [i] with [1 <= i < len(parts) - 1] and [parts[i]] empty. *)
Definition empty_inside (parts : list string) : list nat :=
  List.filter
    (fun i => String.eqb (nth i parts "x") "")
    (seq 1 (length parts - 2)).

(** [IPv6Address._ip_int_from_string] succeeds. *)
Definition ipv6_parts_ok (parts : list string) : bool :=
  let n := length parts in
  if (9 <? n)%nat then false
  else
    let first_empty := String.eqb (nth 0 parts "x") "" in
    let last_empty := String.eqb (List.last parts "x") "" in
    match empty_inside parts with
    | _ :: _ :: _ => false                  (* more than one [::] *)
    | [skip_index] =>
        let parts_hi := skip_index in
        let parts_lo := (n - skip_index - 1)%nat in
        let parts_hi := if first_empty then (parts_hi - 1)%nat else parts_hi in
        let parts_lo := if last_empty then (parts_lo - 1)%nat else parts_lo in
        if first_empty && negb (parts_hi =? 0)%nat then false
        else if last_empty && negb (parts_lo =? 0)%nat then false
        else if (8 <=? parts_hi + parts_lo)%nat then false
        else forallb hextet_ok (firstn parts_hi parts)
             && forallb hextet_ok (skipn (n - parts_lo) parts)
    | [] =>
        if negb (n =? 8)%nat then false
        else if first_empty then false
        else if last_empty then false
        else forallb hextet_ok parts
    end.

Definition ipv6_int_ok (ip_str : string) : bool :=
  if String.eqb ip_str "" then false
  else
    let parts := split ":" ip_str in
    if (length parts <? 3)%nat then false
    else if contains "." (List.last parts "")
    then match IPv4Address (List.last parts "") with
         | None => false
         | Some ipv4_int =>
             ipv6_parts_ok
               (removelast parts
                ++ [hex (Z.land (Z.shiftr ipv4_int 16) 65535);
                    hex (Z.land ipv4_int 65535)])
         end
    else ipv6_parts_ok parts.

(** [ipaddress.IPv6Address(a)] succeeds. *)
Definition IPv6Address_ok (address : string) : bool :=
  if contains "/" address then false
  else
    let '(addr, sep, scope_id) := partition "%" address in
    if sep && (String.eqb scope_id "" || contains "%" scope_id) then false
    else ipv6_int_ok addr.

(** The pattern [\Av[a-fA-F0-9]+\..+\Z] of [_check_bracketed_host]. *)
Definition ipvfuture_ok (hostname : string) : bool :=
  match hostname with
  | String "v" rest =>
      match break (fun c => negb (is_hex c)) rest with
      | (String _ _, String "." (String c more)) =>
          negb (contains "010" (String c more))
      | _ => false
      end
  | _ => false
  end.

(** [_check_bracketed_host], [_check_bracketed_netloc]: the message of the
    [ValueError], [None] when the host passes. *)
Definition check_bracketed_host (hostname : string) : option string :=
  if startswith "v" hostname then
    if ipvfuture_ok hostname then None
    else Some "IPvFuture address is invalid"
  else
    match IPv4Address hostname with
    | Some _ => Some "An IPv4 address cannot be in brackets"
    | None =>
        if IPv6Address_ok hostname then None
        else Some (repr hostname
                   +:+ " does not appear to be an IPv4 or IPv6 address")
    end.

Definition check_bracketed_netloc (netloc : string) : option string :=
  let hostname_and_port := after_last "@" netloc in
  let '(before_bracket, have_open_br, bracketed) :=
    partition "[" hostname_and_port in
  if have_open_br then
    if negb (String.eqb before_bracket "") then Some "Invalid IPv6 URL"
    else
      let '(hostname, _, port) := partition "]" bracketed in
      if negb (String.eqb port "") && negb (startswith ":" port)
      then Some "Invalid IPv6 URL"
      else check_bracketed_host hostname
  else
    let '(hostname, _, _) := partition ":" hostname_and_port in
    check_bracketed_host hostname.

(** The checks of [urlsplit] on the network location. *)
Definition check_netloc_brackets (netloc : string) : option string :=
  if (contains "[" netloc && negb (contains "]" netloc))
     || (contains "]" netloc && negb (contains "[" netloc))
  then Some "Invalid IPv6 URL"
  else if contains "[" netloc && contains "]" netloc
  then check_bracketed_netloc netloc
  else None.

Definition urlparse (url : string) : UrlResult :=
  let url := lstrip c0_or_space url in
  let url := filter (fun c => negb (unsafe_byte c)) url in
  (* i = url.find(':'); the scheme is url[:i] when it is one *)
  let '(head, tail) := break is_colon url in
  let '(scheme, url) :=
    match head, tail with
    | String c0 _, String _ rest =>
        if is_alpha c0 && all scheme_char head then (lower head, rest)
        else (EmptyString, url)
    | _, _ => (EmptyString, url)
    end in
  let '(netloc, url) :=
    match url with
    | String "/" (String "/" rest) => break ends_netloc rest
    | _ => (EmptyString, url)
    end in
  match check_netloc_brackets netloc with
  | Some msg => Invalid msg
  | None =>
      (* fragment and query are cut off, in this order *)
      let url := fst (break ends_path url) in
      let url :=
        if bool_decide (scheme ∈ uses_params) && contains ";" url
        then strip_params url else url in
      Parsed {| scheme := scheme; netloc := netloc; path := url |}
  end.

(** [str(n)] for an integer. *)
Definition str (n : Z) : string := pretty n.

End Py.

(** ** Events, exceptions and the effect monad *)

Inductive event : Type :=
| Print (line : string)                 (* print(...) *)
| DiskUsage (dir : string)              (* shutil.disk_usage(dir) *)
| Connect (dsn : string)                (* DBConn(dsn).__enter__ *)
| Execute (sql : string)                (* conn.cursor.execute(sql) *)
| Disconnect (dsn : string)             (* DBConn.__exit__ *)
| ReadFile (path : string)              (* open(path, 'r').read() *)
| PoolOpen (max_workers : Z)            (* ThreadPoolExecutor(max_workers) *)
| Submit (task : string)                (* executor.submit(...) *)
| Cancel (task : string)                (* a future.cancel() that succeeded *)
| Popen (cmd cwd : string)              (* the child process is started *)
| Exited (cmd : string) (rc : Z)        (* p.wait() returned *)
| PoolShutdown.                         (* end of the executor's with-block *)

Inductive exn : Type :=
| AssertionError (msg : string)
| KeyError (key : string)
| CancelledError
| OSError (what : string)
| DatabaseError (what : string)
| ValueError (msg : string).

Inductive outcome (A : Type) : Type :=
| Ret (a : A)
| Raise (e : exn).
Arguments Ret {A} a.
Arguments Raise {A} e.

Definition trace := list event.

(** A computation reads the trace so far and returns its outcome with the
    extended trace. *)
Definition M (A : Type) : Type := trace -> outcome A * trace.

Definition ret {A} (a : A) : M A := fun t => (Ret a, t).
Definition raise {A} (e : exn) : M A := fun t => (Raise e, t).
Definition bind {A B} (m : M A) (k : A -> M B) : M B :=
  fun t => match m t with
           | (Ret a, t') => k a t'
           | (Raise e, t') => (Raise e, t')
           end.
Definition emit (e : event) : M unit := fun t => (Ret tt, t ++ [e]).
Definition history : M trace := fun t => (Ret t, t).

(** [try: m except BaseException as e: ...], the outcome as a value. *)
Definition attempt {A} (m : M A) : M (outcome A) :=
  fun t => let '(r, t') := m t in (Ret r, t').

(** [try: m finally: h], for the exit of a with-block. *)
Definition finally {A} (m : M A) (h : M unit) : M A :=
  fun t => match m t with
           | (Ret a, t') => match h t' with
                            | (Ret _, t'') => (Ret a, t'')
                            | (Raise e, t'') => (Raise e, t'')
                            end
           | (Raise e, t') => match h t' with
                              | (Ret _, t'') => (Raise e, t'')
                              | (Raise e', t'') => (Raise e', t'')
                              end
           end.

Declare Scope py_scope.
Delimit Scope py_scope with py.
Notation "x <- m ;; k" := (bind m (fun x => k))
  (at level 100, m at next level, right associativity) : py_scope.
Notation "m ;; k" := (bind m (fun _ => k))
  (at level 100, right associativity) : py_scope.
Local Open Scope py_scope.

Definition print (line : string) : M unit := emit (Print line).

(** [assert c, msg] *)
Definition assert (c : bool) (msg : string) : M unit :=
  if c then ret tt else raise (AssertionError msg).

(** [for x in l: body x] *)
Fixpoint for_each {A} (l : list A) (body : A -> M unit) : M unit :=
  match l with
  | [] => ret tt
  | x :: l' => body x ;; for_each l' body
  end.

(** ** The data of a run *)

(** The parsed command line ([self.args]). *)
Record Args : Type := {
  scale_factor : Z;
  dsn : string;
  schema : string;
  max_jobs : Z;
  check_diskspace_of_directory : option string;
}.

(** [self.benchmark] *)
Record Benchmark : Type := {
  name : string;
  base_dir : string;
}.

(** What a plugin's [get_ingest_tasks] may hand back. *)
Inductive pyobj : Type :=
| PyList (tasks : list string)
| PyTuple (items : list string)
| PyStr (s : string)
| PyNone.

Definition isinstance_list (o : pyobj) : bool :=
  match o with PyList _ => true | _ => false end.

(** The class: its two class-level tables and the overridable method. *)
Record Class : Type := {
  TABLES : list string;
  SIZING_FACTORS : gmap string (gmap Z Z);
  get_ingest_tasks : string -> pyobj;
}.

(** The instance built by [__init__]. *)
Record Self : Type := {
  args : Args;
  benchmark : Benchmark;
  schema_dir : string;
}.

(** The outside world.  Every answer may depend on what happened so far. *)
Record Env : Type := {
  isdir : string -> bool;
  (** contents of a regular file, [None] when there is none *)
  file : string -> option string;
  (** free bytes reported for a directory, [None] when the call fails *)
  disk_free : trace -> string -> option Z;
  connect_ok : trace -> string -> bool;
  execute_ok : trace -> string -> bool;
  (** can [/bin/bash] be started on this command, and how will it exit *)
  spawn_ok : trace -> string -> bool;
  exit_code : trace -> string -> Z;
  (** the scheduler: which enabled step of the pool happens next *)
  sched : trace -> nat -> nat;
}.

(** ** The thread pool

    [concurrent.futures] as the runner uses it.  The main thread submits
    the tasks one by one and then waits in [as_completed]; the workers, of
    which at most [max_workers] hold a work item at a time, run while it
    does so.  The work items form a queue in submission order.  A worker
    takes the first one, calls [set_running_or_notify_cancel] on its
    future, starts the process, waits for it, and stores the outcome in
    the future; each of these is a step of its own, and steps of different
    threads interleave as the scheduler of the environment decides.  A
    future can be cancelled until [set_running_or_notify_cancel] has made
    it run, also when a worker holds its work item already; a cancelled
    future is reported to [as_completed] by that call.  [as_completed] may
    yield the futures that are done in any order. *)

Inductive fstate : Type :=
| Pending
| Running (spawned : bool)    (* [spawned]: [Popen] has returned *)
| Cancelled
| CancelledNotified
| Finished (exc : option exn).

Record future : Type := {
  f_task : string;
  f_state : fstate;
}.

(** Where the thread that called the runner stands. *)
Inductive main_pc : Type :=
| Submitting (rest : list string)   (* in the list of line 29 *)
| Waiting                 (* blocked in [as_completed] *)
| Cancelling (i : nat)    (* in [for future in futures], at index [i] *)
| Leaving (e : exn).      (* an exception left the loop *)

Record pool : Type := {
  futures : list future;    (* those submitted so far, in that order *)
  next : nat;               (* first work item no worker has taken yet *)
  notified : list nat;      (* done, not yet yielded by [as_completed] *)
  pc : main_pc;
}.

Inductive action : Type :=
| Take                    (* a worker takes the next work item *)
| Begin (i : nat)         (* [set_running_or_notify_cancel] of future [i] *)
| Spawn (i : nat)         (* [Popen] for future [i] *)
| Finish (i : nat)        (* [p.wait()] returns, the outcome is stored *)
| SubmitStep              (* one [executor.submit], or the end of them *)
| Yield (k : nat)         (* [as_completed] yields the [k]-th done future *)
| CancelStep.             (* one [future.cancel()] of the cancel loop *)

Definition set_state (i : nat) (s : fstate) (fs : list future) : list future :=
  alter (fun f => {| f_task := f_task f; f_state := s |}) i fs.

Definition with_state (i : nat) (s : fstate) (p : pool) : pool :=
  {| futures := set_state i s (futures p); next := next p;
     notified := notified p; pc := pc p |}.

Definition notify (i : nat) (p : pool) : pool :=
  {| futures := futures p; next := next p;
     notified := notified p ++ [i]; pc := pc p |}.

Definition with_pc (c : main_pc) (p : pool) : pool :=
  {| futures := futures p; next := next p;
     notified := notified p; pc := c |}.

(** [as_completed] hands out its [k]-th done future. *)
Definition unnotify (k : nat) (p : pool) : pool :=
  {| futures := futures p; next := next p;
     notified := delete k (notified p); pc := pc p |}.

(** Not yet running, and not yet reported as cancelled. *)
Definition waits (s : fstate) : bool :=
  match s with Pending | Cancelled => true | _ => false end.

Definition is_done (s : fstate) : bool :=
  match s with CancelledNotified | Finished _ => true | _ => false end.

Definition is_begun (s : fstate) : bool :=
  match s with Running false => true | _ => false end.

Definition is_spawned (s : fstate) : bool :=
  match s with Running true => true | _ => false end.

(** The indices, counted from [i], of the futures that satisfy [P]. *)
Fixpoint select_from (P : nat -> fstate -> bool) (i : nat) (fs : list future)
  : list nat :=
  match fs with
  | [] => []
  | f :: fs' =>
      if P i (f_state f) then i :: select_from P (S i) fs'
      else select_from P (S i) fs'
  end.

(** The work items a worker holds: taken, before the call of
    [set_running_or_notify_cancel]; after it, before [Popen]; and with a
    process that runs. *)
Definition held (p : pool) : list nat :=
  select_from (fun i s => (i <? next p)%nat && waits s) 0 (futures p).
Definition begun (p : pool) : list nat :=
  select_from (fun _ s => is_begun s) 0 (futures p).
Definition spawned (p : pool) : list nat :=
  select_from (fun _ s => is_spawned s) 0 (futures p).

(** The workers that are not idle. *)
Definition busy (p : pool) : nat :=
  length (held p) + length (begun p) + length (spawned p).

(** The steps that can happen next with [W] workers. *)
Definition enabled (W : Z) (p : pool) : list action :=
  (if (next p <? length (futures p))%nat && (Z.of_nat (busy p) <? W)%Z
   then [Take] else [])
  ++ map Begin (held p)
  ++ map Spawn (begun p)
  ++ map Finish (spawned p)
  ++ match pc p with
     | Submitting _ => [SubmitStep]
     | Waiting => map Yield (seq 0 (length (notified p)))
     | Cancelling _ => [CancelStep]
     | Leaving _ => []
     end.

(** [str(exc)] *)
Definition exn_str (e : exn) : string :=
  match e with
  | AssertionError msg => msg
  | KeyError key => "'" +:+ key +:+ "'"
  | CancelledError => ""
  | OSError what => what
  | DatabaseError what => what
  | ValueError msg => msg
  end.

Definition dq : string := String "034"%char EmptyString.   (* a double quote *)
Definition nl : string := String "010"%char EmptyString.   (* a line break *)

(** ** The class [PrepareBenchmarkFactory] *)

Section Factory.

Variable K : Class.
Variable E : Env.

(** [__init__]: the schema directory is fixed, and checked, here. *)
Definition __init__ (a : Args) (b : Benchmark) : M Self :=
  let schema_dir := Py.join (base_dir b) ["schemas"; schema a] in
  assert (isdir E schema_dir) "Schema does not exist" ;;
  ret {| args := a; benchmark := b; schema_dir := schema_dir |}.

(** *** Disk-space preflight *)

(** Lines 38-40: the database type read off the schema directory. *)
Definition db_type_of (schema_dir : string) : string :=
  let db_type := Py.item0 (Py.split "_"%char (Py.basename schema_dir)) in
  if String.eqb db_type "sdb" then "s64da" else db_type.

(** [d[k]] on a dictionary with string keys. *)
Definition getitem {V} (d : gmap string V) (k : string) : M V :=
  match d !! k with
  | Some v => ret v
  | None => raise (KeyError k)
  end.

Definition disk_usage (dir : string) : M Z :=
  t <- history ;;
  emit (DiskUsage dir) ;;
  match disk_free E t dir with
  | Some free => ret free
  | None => raise (OSError dir)
  end.

Definition skip_message : string :=
  "Could not determine size factor. Not checking disk space.".

Definition assumptions_message (dir db_type bench : string) (sf m : Z)
  : string :=
  "Checking available diskpace in " +:+ dir +:+ " with assumptions:" +:+ nl
  +:+ "    Storage dir   : " +:+ dir +:+ nl
  +:+ "    Database type : " +:+ db_type +:+ nl
  +:+ "    Benchmark     : " +:+ bench +:+ nl
  +:+ "    Scale factor  : " +:+ Py.str sf +:+ nl
  +:+ "    Size factor   : " +:+ Py.str m.

Definition no_space_message (space_needed free : Z) : string :=
  "Not enough disk space available. Needed [Bytes]: "
  +:+ Py.str space_needed +:+ ", free: " +:+ Py.str free.

Definition _check_diskspace (self : Self) (diskpace_check_dir : string)
  : M unit :=
  let db_type := db_type_of (schema_dir self) in
  let scale_factor := scale_factor (args self) in
  by_scale <- getitem (SIZING_FACTORS K) db_type ;;
  match by_scale !! scale_factor with        (* .get(scale_factor) *)
  | None | Some 0%Z =>                       (* if not size_factor *)
      print skip_message
  | Some size_factor =>
      print (assumptions_message diskpace_check_dir db_type
               (name (benchmark self)) scale_factor size_factor) ;;
      free <- disk_usage diskpace_check_dir ;;
      let space_needed :=
        (scale_factor * 1024 * 1024 * 1024 * size_factor)%Z in
      assert (space_needed <? free)%Z (no_space_message space_needed free)
  end.

(** *** Shell tasks *)

Definition exit_message : string :=
  "Shell task did not finish with exit code 0".

(** [p = Popen(task, cwd=self.benchmark.base_dir, shell=True, ...)] *)
Definition popen (self : Self) (task : string) : M unit :=
  t <- history ;;
  if spawn_ok E t task then emit (Popen task (base_dir (benchmark self)))
  else raise (OSError task).

(** [p.wait(); assert p.returncode == 0, ...] *)
Definition wait (task : string) : M unit :=
  t <- history ;;
  let returncode := exit_code E t task in
  emit (Exited task returncode) ;;
  assert (returncode =? 0)%Z exit_message.

Definition _run_shell_task (self : Self) (task : string) : M unit :=
  popen self task ;; wait task.

(** *** Database access *)

(** Modelled from the spec: [DBConn] of the module [dbconn] is a scoped
    connection, acquired on entering the with-block and released when the
    block is left, normally or by an exception. *)
Definition with_DBConn {A} (dsn : string) (body : M A) : M A :=
  t <- history ;;
  if connect_ok E t dsn
  then emit (Connect dsn) ;; finally body (emit (Disconnect dsn))
  else raise (DatabaseError dsn).

(** [conn.cursor.execute(sql)] *)
Definition execute (sql : string) : M unit :=
  t <- history ;;
  emit (Execute sql) ;;
  if execute_ok E t sql then ret tt else raise (DatabaseError sql).

(** [with open(path, 'r') as f: ... f.read()] *)
Definition read_file (path : string) : M string :=
  match file E path with
  | Some contents => emit (ReadFile path) ;; ret contents
  | None => raise (OSError path)
  end.

Definition isfile (path : string) : bool :=
  match file E path with Some _ => true | None => false end.

(** *** Database bootstrap *)

Definition prepare_db (self : Self) : M unit :=
  match Py.urlparse (dsn (args self)) with
  | Py.Invalid msg => raise (ValueError msg)
  | Py.Parsed dsn_url =>
      let dbname := Py.drop 1 (Py.path dsn_url) in
      with_DBConn
        (Py.scheme dsn_url +:+ "://" +:+ Py.netloc dsn_url +:+ "/postgres")
        (print ("Deleting " +:+ dbname) ;;
         execute ("DROP DATABASE IF EXISTS " +:+ dbname) ;;
         print ("Creating " +:+ dbname) ;;
         execute ("CREATE DATABASE " +:+ dbname
                  +:+ " TEMPLATE template0 ENCODING 'UTF-8'")) ;;
      with_DBConn (dsn (args self))
        (print "Loading schema" ;;
         let schema_path := Py.join (schema_dir self) ["schema.sql"] in
         schema <- read_file schema_path ;;
         execute schema)
  end.

(** *** Index stage *)

Definition sql_files : list string :=
  ["primary-keys.sql"; "foreign-keys.sql"; "indexes.sql"].

Definition apply_sql_file (self : Self) (sql_file : string) : M unit :=
  let sql_file_path := Py.join (schema_dir self) [sql_file] in
  if negb (isfile sql_file_path) then ret tt            (* continue *)
  else
    with_DBConn (dsn (args self))
      (print ("Applying " +:+ sql_file_path) ;;
       sql <- read_file sql_file_path ;;
       if String.eqb sql "" then ret tt                 (* if sql: *)
       else execute sql).

Definition add_indexes (self : Self) : M unit :=
  for_each sql_files (apply_sql_file self).

(** *** Parallel task runner *)

Definition exc_of (r : outcome unit) : option exn :=
  match r with Ret _ => None | Raise e => Some e end.

(** One step of the pool running [self._run_shell_task] on each task. *)
Definition step (self : Self) (a : action) (p : pool) : M pool :=
  match a with
  | Take =>
      match futures p !! next p with
      | None => ret p
      | Some _ =>
          ret {| futures := futures p; next := S (next p);
                 notified := notified p; pc := pc p |}
      end
  | Begin i =>
      match f_state <$> futures p !! i with
      | Some Pending => ret (with_state i (Running false) p)
      | Some Cancelled => ret (notify i (with_state i CancelledNotified p))
      | _ => ret p
      end
  | Spawn i =>
      match futures p !! i with
      | None => ret p
      | Some f =>
          match f_state f with
          | Running false =>
              r <- attempt (popen self (f_task f)) ;;
              match r with
              | Ret _ => ret (with_state i (Running true) p)
              | Raise e =>
                  ret (notify i (with_state i (Finished (Some e)) p))
              end
          | _ => ret p
          end
      end
  | Finish i =>
      match futures p !! i with
      | None => ret p
      | Some f =>
          match f_state f with
          | Running true =>
              r <- attempt (wait (f_task f)) ;;
              ret (notify i (with_state i (Finished (exc_of r)) p))
          | _ => ret p
          end
      end
  | SubmitStep =>
      match pc p with
      | Submitting (task :: rest) =>
          emit (Submit task) ;;
          ret {| futures :=
                   futures p ++ [{| f_task := task; f_state := Pending |}];
                 next := next p;
                 notified := notified p;
                 pc := Submitting rest |}
      | Submitting [] => ret (with_pc Waiting p)    (* on to line 30 *)
      | _ => ret p
      end
  | Yield k =>
      match pc p, notified p !! k with
      | Waiting, Some i =>
          (* exc = completed_future.exception() *)
          match f_state <$> futures p !! i with
          | Some CancelledNotified =>
              ret (with_pc (Leaving CancelledError) (unnotify k p))
          | Some (Finished (Some exc)) =>
              print ("Task threw an exception: " +:+ exn_str exc) ;;
              ret (with_pc (Cancelling 0) (unnotify k p))
          | _ => ret (unnotify k p)
          end
      | _, _ => ret p
      end
  | CancelStep =>
      match pc p with
      | Cancelling i =>
          match futures p !! i with
          | None => ret (with_pc Waiting p)
          | Some f =>
              match f_state f with
              | Pending =>
                  emit (Cancel (f_task f)) ;;
                  ret (with_pc (Cancelling (S i)) (with_state i Cancelled p))
              | _ => ret (with_pc (Cancelling (S i)) p)
              end
          end
      | _ => ret p
      end
  end.

(** The pool runs, one enabled step after the other as the scheduler
    picks them, until no step is enabled. *)
Fixpoint pool_loop (self : Self) (fuel n : nat) (p : pool) : M pool :=
  match fuel with
  | O => ret p
  | S fuel' =>
      match enabled (max_jobs (args self)) p with
      | [] => ret p
      | a :: acts =>
          t <- history ;;
          let k := (sched E t n mod length (a :: acts))%nat in
          p' <- step self (nth k (a :: acts) a) p ;;
          pool_loop self fuel' (S n) p'
      end
  end.

(** The pool when the executor has been made: nothing is submitted yet. *)
Definition new_pool (tasks : list string) : pool :=
  {| futures := []; next := 0; notified := []; pc := Submitting tasks |}.

(** Steps a batch of [n] tasks can take at most. *)
Definition pool_fuel (n : nat) : nat := n * (n + 7) + 1.

(** Lines 28-35.  The executor refuses a bound below 1; leaving the
    with-block, normally or by an exception, waits for the workers, which
    go through all the work items that are left. *)
Definition _run_tasks_parallel (self : Self) (tasks : list string)
  : M unit :=
  let W := max_jobs (args self) in
  if (W <=? 0)%Z then raise (ValueError "max_workers must be greater than 0")
  else
    emit (PoolOpen W) ;;
    p <- pool_loop self (pool_fuel (length tasks)) 0 (new_pool tasks) ;;
    emit PoolShutdown ;;
    match pc p with
    | Leaving e => raise e
    | _ => ret tt
    end.

(** *** Statistics *)

Definition vacuum_task (self : Self) : string :=
  "psql " +:+ dsn (args self) +:+ " -c " +:+ dq +:+ "VACUUM" +:+ dq.

Definition analyze_task (self : Self) (table : string) : string :=
  "psql " +:+ dsn (args self) +:+ " -c " +:+ dq
  +:+ "ANALYZE " +:+ table +:+ dq.

Definition vacuum_analyze (self : Self) : M unit :=
  _run_shell_task self (vacuum_task self) ;;
  let analyze_tasks := map (analyze_task self) (TABLES K) in
  _run_tasks_parallel self analyze_tasks.

(** *** The pipeline *)

Definition list_items (o : pyobj) : list string :=
  match o with PyList l => l | _ => [] end.

(** The loop of lines 70-73, with [ingest_tasks] as accumulator. *)
Fixpoint gather_ingest_tasks (tables ingest_tasks : list string)
  : M (list string) :=
  match tables with
  | [] => ret ingest_tasks
  | table :: tables' =>
      let tasks := get_ingest_tasks K table in
      assert (isinstance_list tasks) "Returned object is not a list" ;;
      gather_ingest_tasks tables' (ingest_tasks ++ list_items tasks)
  end.

Definition run (self : Self) : M unit :=
  match check_diskspace_of_directory (args self) with
  | None | Some EmptyString => ret tt
  | Some diskpace_check_dir => _check_diskspace self diskpace_check_dir
  end ;;
  print "Preparing DB" ;;
  prepare_db self ;;
  print "Ingesting data" ;;
  ingest_tasks <- gather_ingest_tasks (TABLES K) [] ;;
  _run_tasks_parallel self ingest_tasks ;;
  print "Adding indices" ;;
  add_indexes self ;;
  print "VACUUM-ANALYZE" ;;
  vacuum_analyze self.

End Factory.

(** ** Reading outcomes *)

Definition failed {A} (r : outcome A) : bool :=
  match r with Ret _ => false | Raise _ => true end.

Definition GiB : Z := 1073741824.

(** The trace at the moment [shutil.disk_usage] is called by a check that
    started at [t] and found the size factor [m]. *)
Definition check_time (self : Self) (dir : string) (m : Z) (t : trace)
  : trace :=
  t ++ [Print (assumptions_message dir (db_type_of (schema_dir self))
                 (name (benchmark self)) (scale_factor (args self)) m)].

(** The spec's reading of line 38: the text before the first underscore,
    everything when there is none. *)
Definition before_first_underscore (s : string) : string :=
  match String.index 0 "_" s with
  | Some i => String.substring 0 i s
  | None => s
  end.

(** The alias table of the preflight: [sdb] stands for [s64da]. *)
Definition canonical_kind (kind : string) : string :=
  if String.eqb kind "sdb" then "s64da" else kind.

(** A class that differs from [K] in its size model only. *)
Definition with_sizing (K : Class) (sizing : gmap string (gmap Z Z)) : Class :=
  {| TABLES := TABLES K;
     SIZING_FACTORS := sizing;
     get_ingest_tasks := get_ingest_tasks K |}.

(** What one SQL file adds to the trace. *)
Definition sql_file_block (E : Env) (self : Self) (sql_file : string)
  : trace :=
  let sql_file_path := Py.join (schema_dir self) [sql_file] in
  match file E sql_file_path with
  | None => []
  | Some EmptyString =>
      [Connect (dsn (args self)); Print ("Applying " +:+ sql_file_path);
       ReadFile sql_file_path; Disconnect (dsn (args self))]
  | Some sql =>
      [Connect (dsn (args self)); Print ("Applying " +:+ sql_file_path);
       ReadFile sql_file_path; Execute sql; Disconnect (dsn (args self))]
  end.

(** ** Connection descriptors of the shape [scheme://netloc/dbname] *)

Definition plain_scheme_char (c : ascii) : bool :=
  Py.is_lower c || Py.is_digit c
  || Ascii.eqb c "+" || Ascii.eqb c "-" || Ascii.eqb c ".".

Definition plain_scheme (s : string) : bool :=
  match s with
  | String c _ => Py.is_lower c
  | EmptyString => false
  end && Py.all plain_scheme_char s.

(** A character of a host name, a port, or user and password: ASCII, and
    none of the characters that end the network location or open or close
    an IPv6 address. *)
Definition plain_netloc_char (c : ascii) : bool :=
  Py.is_ascii c
  && negb (Py.ends_netloc c) && negb (Py.unsafe_byte c)
  && negb (Ascii.eqb c "[") && negb (Ascii.eqb c "]").

Definition plain_dbname_char (c : ascii) : bool :=
  negb (Py.ends_path c) && negb (Ascii.eqb c ";")
  && negb (Py.unsafe_byte c).

(** What a successful bootstrap adds to the trace. *)
Definition bootstrap_steps (self : Self) (admin_dsn dbname schema_sql : string)
  : trace :=
  [Connect admin_dsn;
   Print ("Deleting " +:+ dbname);
   Execute ("DROP DATABASE IF EXISTS " +:+ dbname);
   Print ("Creating " +:+ dbname);
   Execute ("CREATE DATABASE " +:+ dbname
            +:+ " TEMPLATE template0 ENCODING 'UTF-8'");
   Disconnect admin_dsn;
   Connect (dsn (args self));
   Print "Loading schema";
   ReadFile (Py.join (schema_dir self) ["schema.sql"]);
   Execute schema_sql;
   Disconnect (dsn (args self))].

(** The claim that blank SQL files are not executed. *)
Definition skips_blank_files (E : Env) (self : Self) : Prop :=
  forall sql_file sql,
    In sql_file sql_files ->
    file E (Py.join (schema_dir self) [sql_file]) = Some sql ->
    Py.all Ascii.is_space sql = true ->
    ~ In (Execute sql) (add_indexes E self []).2.

(** ** The steps of the pool as a relation

    [fires t p e p']: at the trace [t] the pool [p] can take a step that
    adds the events [e] and leaves the pool [p']. *)

Section Fires.

Variable E : Env.
Variable self : Self.

Inductive fires (t : trace) (p : pool) : list event -> pool -> Prop :=
| fires_take f :
    futures p !! next p = Some f ->
    (Z.of_nat (busy p) < max_jobs (args self))%Z ->
    fires t p []
      {| futures := futures p; next := S (next p);
         notified := notified p; pc := pc p |}
| fires_begin i f :
    futures p !! i = Some f -> i < next p -> f_state f = Pending ->
    fires t p [] (with_state i (Running false) p)
| fires_notify i f :
    futures p !! i = Some f -> i < next p -> f_state f = Cancelled ->
    fires t p [] (notify i (with_state i CancelledNotified p))
| fires_spawn i f :
    futures p !! i = Some f -> f_state f = Running false ->
    spawn_ok E t (f_task f) = true ->
    fires t p [Popen (f_task f) (base_dir (benchmark self))]
      (with_state i (Running true) p)
| fires_spawn_fails i f :
    futures p !! i = Some f -> f_state f = Running false ->
    spawn_ok E t (f_task f) = false ->
    fires t p []
      (notify i (with_state i (Finished (Some (OSError (f_task f)))) p))
| fires_finish i f :
    futures p !! i = Some f -> f_state f = Running true ->
    exit_code E t (f_task f) = 0%Z ->
    fires t p [Exited (f_task f) 0]
      (notify i (with_state i (Finished None) p))
| fires_finish_fails i f :
    futures p !! i = Some f -> f_state f = Running true ->
    exit_code E t (f_task f) <> 0%Z ->
    fires t p [Exited (f_task f) (exit_code E t (f_task f))]
      (notify i
         (with_state i (Finished (Some (AssertionError exit_message))) p))
| fires_submit task rest :
    pc p = Submitting (task :: rest) ->
    fires t p [Submit task]
      {| futures := futures p ++ [{| f_task := task; f_state := Pending |}];
         next := next p; notified := notified p; pc := Submitting rest |}
| fires_submitted :
    pc p = Submitting [] -> fires t p [] (with_pc Waiting p)
| fires_yield k i f :
    pc p = Waiting -> notified p !! k = Some i ->
    futures p !! i = Some f -> f_state f = Finished None ->
    fires t p [] (unnotify k p)
| fires_yield_failed k i f exc :
    pc p = Waiting -> notified p !! k = Some i ->
    futures p !! i = Some f -> f_state f = Finished (Some exc) ->
    fires t p [Print ("Task threw an exception: " +:+ exn_str exc)]
      (with_pc (Cancelling 0) (unnotify k p))
| fires_yield_cancelled k i f :
    pc p = Waiting -> notified p !! k = Some i ->
    futures p !! i = Some f -> f_state f = CancelledNotified ->
    fires t p [] (with_pc (Leaving CancelledError) (unnotify k p))
| fires_yield_early k i :
    pc p = Waiting -> notified p !! k = Some i ->
    is_done <$> (f_state <$> futures p !! i) <> Some true ->
    fires t p [] (unnotify k p)
| fires_cancel i f :
    pc p = Cancelling i -> futures p !! i = Some f -> f_state f = Pending ->
    fires t p [Cancel (f_task f)]
      (with_pc (Cancelling (S i)) (with_state i Cancelled p))
| fires_cancel_late i f :
    pc p = Cancelling i -> futures p !! i = Some f ->
    f_state f <> Pending ->
    fires t p [] (with_pc (Cancelling (S i)) p)
| fires_cancel_end i :
    pc p = Cancelling i -> futures p !! i = None ->
    fires t p [] (with_pc Waiting p).

End Fires.

(** ** A measure for the pool *)

(** The tasks the main thread has still to submit. *)
Definition rest_of (p : pool) : list string :=
  match pc p with Submitting rest => rest | _ => [] end.

(** The steps a future can still cause, [c] of them for its yield. *)
Definition stage_weight (c : nat) (s : fstate) : nat :=
  match s with
  | Pending | Cancelled => c + 3
  | Running false => c + 2
  | Running true => c + 1
  | CancelledNotified | Finished _ => 0
  end.

Fixpoint stages_weight (c : nat) (fs : list future) : nat :=
  match fs with
  | [] => 0
  | f :: fs' => stage_weight c (f_state f) + stages_weight c fs'
  end.

(** An upper bound on the steps the pool of a batch of [n] tasks can
    still take. *)
Definition weight (n : nat) (p : pool) : nat :=
  match pc p with
  | Submitting rest => (n + 7) * length rest + 1
  | Cancelling i => n + 1 - i
  | _ => 0
  end
  + (length (futures p) - next p)
  + stages_weight (n + 2) (futures p)
  + (n + 2) * length (notified p).

(** The pool belongs to a batch of [n] tasks, and the cancel loop never
    runs past the end of [futures]. *)
Definition pool_ok (n : nat) (p : pool) : Prop :=
  length (futures p) + length (rest_of p) = n
  /\ match pc p with
     | Cancelling i => i <= length (futures p)
     | _ => True
     end.

(** [Q] holds of the pool and of what it has added to the trace, step
    after step. *)
Definition invariant (E : Env) (self : Self) (Q : pool -> trace -> Prop)
  : Prop :=
  forall t p e p' ext, Q p ext -> fires E self t p e p' -> Q p' (ext ++ e).

(** ** Classes of events *)

(** [m] only adds events of class [P] to the trace. *)
Definition emits {A} (P : event -> Prop) (m : M A) : Prop :=
  forall t, exists ext, (m t).2 = t ++ ext /\ Forall P ext.

(** [m] never raises. *)
Definition returns {A} (m : M A) : Prop :=
  forall t, exists a, (m t).1 = Ret a.

(** Handing a task to the pool, or starting its process. *)
Definition dispatch (e : event) : Prop :=
  match e with
  | PoolOpen _ | Submit _ | Popen _ _ | Exited _ _ => True
  | _ => False
  end.

(** What a pool that works on the batch [tasks] adds to the trace. *)
Definition batch_event (tasks : list string) (e : event) : Prop :=
  match e with
  | Submit task | Popen task _ | Exited task _ | Cancel task => In task tasks
  | Print _ => True
  | _ => False
  end.

Definition tasks_of (p : pool) : list string := map f_task (futures p).

(** The tasks that were submitted, in the order of their submission. *)
Fixpoint submitted (tr : trace) : list string :=
  match tr with
  | [] => []
  | Submit task :: tr' => task :: submitted tr'
  | _ :: tr' => submitted tr'
  end.

(** The commands whose process was started, in the order of their start. *)
Fixpoint started (tr : trace) : list string :=
  match tr with
  | [] => []
  | Popen cmd _ :: tr' => cmd :: started tr'
  | _ :: tr' => started tr'
  end.

(** The tasks whose future was cancelled before it ran. *)
Fixpoint cancelled (tr : trace) : list string :=
  match tr with
  | [] => []
  | Cancel task :: tr' => task :: cancelled tr'
  | _ :: tr' => cancelled tr'
  end.

(** The lines that were printed. *)
Fixpoint printed (tr : trace) : list string :=
  match tr with
  | [] => []
  | Print line :: tr' => line :: printed tr'
  | _ :: tr' => printed tr'
  end.

(** The commands that have exited, with their exit codes. *)
Fixpoint exited (tr : trace) : list (string * Z) :=
  match tr with
  | [] => []
  | Exited cmd rc :: tr' => (cmd, rc) :: exited tr'
  | _ :: tr' => exited tr'
  end.

(** In [E] each of [tasks] can always be started and always exits with 0. *)
Definition all_succeed (E : Env) (tasks : list string) : Prop :=
  forall t task, In task tasks ->
                 spawn_ok E t task = true /\ exit_code E t task = 0%Z.

(** ** Invariants of the pool *)

(** The tasks of the futures whose state satisfies [P]. *)
Fixpoint tasks_where (P : fstate -> bool) (fs : list future) : list string :=
  match fs with
  | [] => []
  | f :: fs' =>
      if P (f_state f) then f_task f :: tasks_where P fs'
      else tasks_where P fs'
  end.

(** A process was started for the future: it runs, it has ended, or its
    exit code was refused.  The one error that comes before the process is
    the [OSError] of [Popen]. *)
Definition has_started (s : fstate) : bool :=
  match s with
  | Running true | Finished None => true
  | Finished (Some (OSError _)) => false
  | Finished (Some _) => true
  | _ => false
  end.

Definition spawn_failed (s : fstate) : bool :=
  match s with Finished (Some (OSError _)) => true | _ => false end.

Definition was_cancelled (s : fstate) : bool :=
  match s with Cancelled | CancelledNotified => true | _ => false end.

(** The shape of the pool of the batch [tasks] and of what it has added to
    the trace: the futures are those of the tasks submitted so far; the
    work items no worker has taken are pending or cancelled; a process was
    started only for a task that had been submitted before. *)
Definition wf (tasks : list string) (p : pool) (ext : trace) : Prop :=
  tasks_of p ++ rest_of p = tasks
  /\ submitted ext = tasks_of p
  /\ next p <= length (futures p)
  /\ (forall i f, futures p !! i = Some f -> next p <= i ->
                  waits (f_state f) = true)
  /\ pool_ok (length tasks) p
  /\ Forall (batch_event tasks) ext
  /\ (forall a task cwd b, ext = a ++ Popen task cwd :: b ->
                           In task (submitted a)).

(** How the trace of a batch and the states of its futures go together:
    the processes started and the futures cancelled are those the states
    say; a process that could not be started is one the world refused; and
    nothing is cancelled, and nothing raised, before a failure was
    printed. *)
Definition accounted (E : Env) (p : pool) (ext : trace) : Prop :=
  Permutation (started ext) (tasks_where has_started (futures p))
  /\ Permutation (cancelled ext) (tasks_where was_cancelled (futures p))
  /\ (forall f, In f (futures p) -> spawn_failed (f_state f) = true ->
                exists t, spawn_ok E t (f_task f) = false)
  /\ (cancelled ext <> [] -> printed ext <> [])
  /\ (forall i, pc p = Cancelling i -> printed ext <> [])
  /\ (forall e, pc p = Leaving e ->
                e = CancelledError /\ cancelled ext <> []).

(** A pool in which nothing has gone wrong. *)
Definition healthy (p : pool) (ext : trace) : Prop :=
  (pc p = Waiting \/ exists rest, pc p = Submitting rest)
  /\ (forall f, In f (futures p) ->
                f_state f = Pending \/ (exists b, f_state f = Running b)
                \/ f_state f = Finished None)
  /\ printed ext = []
  /\ cancelled ext = []
  /\ Forall (fun x => x.2 = 0%Z) (exited ext).

(** The process of the future has exited. *)
Definition has_exited (s : fstate) : bool :=
  match s with
  | Finished None => true
  | Finished (Some (OSError _)) => false
  | Finished (Some _) => true
  | _ => false
  end.

(** The pool of one worker: of the work items that were taken only the
    last can be unfinished, and processes start and end in the order of
    the futures, one at a time. *)
Definition serial (p : pool) (ext : trace) : Prop :=
  (forall i f, futures p !! i = Some f -> S i < next p ->
               is_done (f_state f) = true)
  /\ started ext = tasks_where has_started (futures p)
  /\ map fst (exited ext) = tasks_where has_exited (futures p)
  /\ (forall a b, ext = a ++ b ->
                  length (exited a) <= length (started a)
                  /\ length (started a) <= length (exited a) + 1).

(** The pool of a batch of at most one task: nothing is cancelled in it,
    and the main thread stays in the loop. *)
Definition lone (p : pool) : Prop :=
  length (futures p) + length (rest_of p) <= 1
  /\ (forall e, pc p <> Leaving e)
  /\ (forall f, In f (futures p) -> was_cancelled (f_state f) = false)
  /\ (forall i, pc p = Cancelling i ->
                forall f, In f (futures p) -> is_done (f_state f) = true).

(** [run] up to the ingestion stage, and after it. *)
Definition before_ingest (K : Class) (E : Env) (self : Self) : M unit :=
  (match check_diskspace_of_directory (args self) with
   | None | Some EmptyString => ret tt
   | Some diskpace_check_dir => _check_diskspace K E self diskpace_check_dir
   end ;;
   print "Preparing DB" ;;
   prepare_db E self)%py.

Definition after_ingest (K : Class) (E : Env) (self : Self) : M unit :=
  (print "Adding indices" ;;
   add_indexes E self ;;
   print "VACUUM-ANALYZE" ;;
   vacuum_analyze K E self)%py.

(** ** Sample inputs *)

Module Sample.

(** A world with the given regular files, free bytes, exit codes and
    scheduler, in which every connection and every statement succeeds. *)
Definition world (files : list (string * string)) (free : Z)
    (exit : string -> Z) (pick : nat -> nat) : Env :=
  {| isdir := fun _ => true;
     file := fun p =>
       snd <$> List.find (fun kv => String.eqb (fst kv) p) files;
     disk_free := fun _ _ => Some free;
     connect_ok := fun _ _ => true;
     execute_ok := fun _ _ => true;
     spawn_ok := fun _ _ => true;
     exit_code := fun _ cmd => exit cmd;
     sched := fun _ n => pick n |}.

(** No files, every command exits with 0. *)
Definition disk (free : Z) : Env :=
  world [] free (fun _ => 0%Z) (fun _ => 0).

(** The class as [prepare.py] declares it: no tables, no size model. *)
Definition base_class : Class :=
  {| TABLES := [];
     SIZING_FACTORS := ∅;
     get_ingest_tasks := fun _ => PyList [] |}.

Definition sized (sizing : gmap string (gmap Z Z)) : Class :=
  with_sizing base_class sizing.

Definition arguments (variant : string) (sf : Z) : Args :=
  {| scale_factor := sf;
     dsn := "postgresql://localhost:5432/bench";
     schema := variant;
     max_jobs := 2;
     check_diskspace_of_directory := Some "/data" |}.

(** The same command line without the disk-space check. *)
Definition unchecked (variant : string) (sf : Z) : Args :=
  {| scale_factor := sf;
     dsn := "postgresql://localhost:5432/bench";
     schema := variant;
     max_jobs := 2;
     check_diskspace_of_directory := None |}.

Definition tpch : Benchmark := {| name := "tpch"; base_dir := "/opt/tpch" |}.

Definition factory (variant : string) (sf : Z) : Self :=
  {| args := arguments variant sf;
     benchmark := tpch;
     schema_dir := Py.join (base_dir tpch) ["schemas"; variant] |}.

Definition factory_unchecked (variant : string) (sf : Z) : Self :=
  {| args := unchecked variant sf;
     benchmark := tpch;
     schema_dir := Py.join (base_dir tpch) ["schemas"; variant] |}.

(** One worker only. *)
Definition factory_serial (variant : string) (sf : Z) : Self :=
  {| args := {| scale_factor := sf;
                dsn := "postgresql://localhost:5432/bench";
                schema := variant;
                max_jobs := 1;
                check_diskspace_of_directory := None |};
     benchmark := tpch;
     schema_dir := Py.join (base_dir tpch) ["schemas"; variant] |}.

(** A benchmark with the given tables, one ingestion task per table. *)
Definition plugin (tables : list string) (task_for : string -> string)
  : Class :=
  {| TABLES := tables;
     SIZING_FACTORS := ∅;
     get_ingest_tasks := fun table => PyList [task_for table] |}.

(** A schema directory with a schema and one index file. *)
Definition schema_files : list (string * string) :=
  [("/opt/tpch/schemas/psql_native/schema.sql", "CREATE TABLE t (a int);");
   ("/opt/tpch/schemas/psql_native/indexes.sql", "CREATE INDEX i ON t (a);")].

(** Every command exits with 0, except [false]. *)
Definition exit_of (cmd : string) : Z :=
  if String.eqb cmd "false" then 1%Z else 0%Z.

End Sample.

(** ** Pieces of a run *)

(** The descriptor of the administrative database and the name of the
    target database, as [prepare_db] reads them off the parsed [args.dsn]. *)
Definition admin_dsn (dsn_url : Py.ParseResult) : string :=
  Py.scheme dsn_url +:+ "://" +:+ Py.netloc dsn_url +:+ "/postgres".

Definition dbname_of (dsn_url : Py.ParseResult) : string :=
  Py.drop 1 (Py.path dsn_url).

(** The directory part [__init__] puts before [schemas/]. *)
Definition base_prefix (b : Benchmark) : string :=
  if String.eqb (base_dir b) "" || Py.endswith_char "/"%char (base_dir b)
  then base_dir b
  else base_dir b +:+ "/".

(** What the preflight may add to the trace. *)
Definition preflight_event (e : event) : Prop :=
  match e with
  | Print _ | DiskUsage _ => True
  | _ => False
  end.

(** The three SQL files of the index stage, as they show in the trace. *)
Definition index_steps (E : Env) (self : Self) : trace :=
  sql_file_block E self "primary-keys.sql"
  ++ sql_file_block E self "foreign-keys.sql"
  ++ sql_file_block E self "indexes.sql".

(** A world in which nothing goes wrong: every connection, statement and
    process succeeds. *)
Definition cooperative (E : Env) : Prop :=
  (forall t d, connect_ok E t d = true)
  /\ (forall t s, execute_ok E t s = true)
  /\ (forall t task, spawn_ok E t task = true /\ exit_code E t task = 0%Z).

(** ** More sample inputs *)

Module Scenario.

(** The main thread is served before a worker whenever both can take a
    step and at most one worker can. *)
Definition main_first : Env :=
  Sample.world Sample.schema_files GiB Sample.exit_of (fun _ => 1).

(** Both tasks are submitted and taken up before a process is started;
    then the worker that came last is served first. *)
Definition racing : Env :=
  Sample.world Sample.schema_files GiB Sample.exit_of
    (fun n => match n with
              | 1 | 2 | 5 | 6 | 9 => 1
              | _ => 0
              end).

Definition calm : Env :=
  Sample.world Sample.schema_files GiB Sample.exit_of (fun _ => 0).

(** Every command exits with 0. *)
Definition smooth : Env :=
  Sample.world Sample.schema_files GiB (fun _ => 0%Z) (fun _ => 0).

Definition serial : Self := Sample.factory_serial "psql_native" 1.

Definition failing_batch : list string := ["false"; "load a"; "load b"].

Definition good_batch : list string := ["load a"; "load b"].

Definition two_tables : Class :=
  Sample.plugin ["lineitem"; "orders"] (fun table => "load " +:+ table).

(** Scale factor 10 with 5 GB per unit, on a disk with 1 GiB free. *)
Definition sized_class : Class :=
  Sample.sized {[ "psql" := {[ 10%Z := 5%Z ]} ]}.

Definition small_disk : Env := Sample.disk GiB.

Definition checked : Self := Sample.factory "psql_native" 10.

Definition no_space : exn :=
  AssertionError (no_space_message (10 * 1024 * 1024 * 1024 * 5) GiB).

Definition check_trace : trace :=
  [Print (assumptions_message "/data" "psql" "tpch" 10 5); DiskUsage "/data"].

(** A schema directory with all optional files. *)
Definition full_schema : list (string * string) :=
  [("/opt/tpch/schemas/psql_native/schema.sql", "CREATE TABLE t (a int);");
   ("/opt/tpch/schemas/psql_native/primary-keys.sql",
    "ALTER TABLE t ADD PRIMARY KEY (a);");
   ("/opt/tpch/schemas/psql_native/indexes.sql", "CREATE INDEX i ON t (a);")].

(** The schema directory exists but holds no [schema.sql]. *)
Definition no_schema : Env :=
  Sample.world [] GiB (fun _ => 0%Z) (fun _ => 0).

(** A server that refuses every statement. *)
Definition refusing : Env :=
  {| isdir := fun _ => true;
     file := file (Sample.world full_schema GiB (fun _ => 0%Z) (fun _ => 0));
     disk_free := fun _ _ => Some GiB;
     connect_ok := fun _ _ => true;
     execute_ok := fun _ _ => false;
     spawn_ok := fun _ _ => true;
     exit_code := fun _ _ => 0%Z;
     sched := fun _ _ => 0 |}.

Definition unchecked : Self := Sample.factory_unchecked "psql_native" 1.

(** The same command line with another descriptor. *)
Definition with_dsn (d : string) : Self :=
  {| args := {| scale_factor := 1;
                dsn := d;
                schema := "psql_native";
                max_jobs := 2;
                check_diskspace_of_directory := None |};
     benchmark := Sample.tpch;
     schema_dir := Py.join (base_dir Sample.tpch) ["schemas"; "psql_native"] |}.

(** No worker at all. *)
Definition jobless : Self :=
  {| args := {| scale_factor := 1;
                dsn := "postgresql://localhost:5432/bench";
                schema := "psql_native";
                max_jobs := 0;
                check_diskspace_of_directory := None |};
     benchmark := Sample.tpch;
     schema_dir := Py.join (base_dir Sample.tpch) ["schemas"; "psql_native"] |}.

End Scenario.

(** ** The display buffer of the monitor

    [benchmarks/htap/lib/monitoring.py]: the lines of one refresh are
    collected with [_add_display_line] and written by [_print], which first
    moves the cursor up over the lines of the previous refresh.  Standard
    output is the text written to it. *)

Module Monitoring.

Record Monitor : Type := {
  lines : list string;
  total_lines : Z;
  current_line : Z;
}.

Definition esc : ascii := "027"%char.
Definition cursor_up : string := String esc "[F".      (* '\033[F' *)
Definition erase_line : string := String esc "[2K".    (* '\033[2K' *)

(** [n * s] for an integer [n] and a string [s]: empty for [n <= 0]. *)
Fixpoint repeat_string (n : nat) (s : string) : string :=
  match n with
  | O => EmptyString
  | S n' => s +:+ repeat_string n' s
  end.

Definition mul (n : Z) (s : string) : string := repeat_string (Z.to_nat n) s.

Definition _add_display_line (m : Monitor) (line : string) : Monitor :=
  {| lines := lines m ++ [line];
     total_lines := total_lines m;
     current_line := current_line m |}.

(** The loop of [_print]: [print('\033[2K', end=''); print(line)]. *)
Fixpoint print_lines (ls : list string) : string :=
  match ls with
  | [] => EmptyString
  | line :: ls' => erase_line +:+ line +:+ nl +:+ print_lines ls'
  end.

(** [_print]: what is written, and the monitor afterwards. *)
Definition _print (m : Monitor) : string * Monitor :=
  (mul (total_lines m) cursor_up +:+ print_lines (lines m),
   {| lines := [];
      total_lines := Z.of_nat (length (lines m));
      current_line := current_line m |}).

(** One refresh: the given lines are added, then printed. *)
Definition refresh (m : Monitor) (ls : list string) : string * Monitor :=
  _print (fold_left _add_display_line ls m).

(** How often [c] occurs in [s]. *)
Fixpoint count_char (c : ascii) (s : string) : nat :=
  match s with
  | EmptyString => 0
  | String a s' => (if Ascii.eqb a c then 1 else 0) + count_char c s'
  end.

Definition newline : ascii := "010"%char.

End Monitoring.
Ltac unfold_m :=
  cbv beta iota delta
    [bind ret raise emit history print assert attempt finally].

(** ** String primitives *)

Lemma split_nonempty sep s : Py.split sep s <> [].
Proof.
  induction s as [|c s IH]; simpl; [done|].
  destruct (Ascii.eqb c sep); [done|].
  destruct (Py.split sep s); done.
Qed.

Lemma item0_split_underscore s :
  Py.item0 (Py.split "_" s) = before_first_underscore s.
Proof.
  unfold before_first_underscore.
  induction s as [|c s IH]; [reflexivity|].
  cbn [Py.split String.index String.prefix].
  destruct (Ascii.eqb_spec c "_") as [->|Hne].
  - destruct (ascii_dec "_" "_") as [_|Hne]; [|congruence].
    destruct s; reflexivity.
  - destruct (ascii_dec "_" c) as [Heq|_]; [congruence|].
    pose proof (split_nonempty "_"%char s) as Hs.
    destruct (Py.split "_" s) as [|w ws]; [done|].
    cbn [Py.item0 hd] in *. rewrite IH.
    destruct (String.index 0 "_" s); reflexivity.
Qed.

(** ** Disk-space preflight *)

Section PreflightCases.

Variable K : Class.
Variable E : Env.
Variable self : Self.
Variable dir : string.

(** The check, branch by branch. *)
Lemma check_diskspace_cases t :
  _check_diskspace K E self dir t =
  match SIZING_FACTORS K !! db_type_of (schema_dir self) with
  | None => (Raise (KeyError (db_type_of (schema_dir self))), t)
  | Some by_scale =>
      match by_scale !! scale_factor (args self) with
      | None | Some 0%Z => (Ret tt, t ++ [Print skip_message])
      | Some m =>
          match disk_free E (check_time self dir m t) dir with
          | None =>
              (Raise (OSError dir),
               check_time self dir m t ++ [DiskUsage dir])
          | Some free =>
              (if (scale_factor (args self) * 1024 * 1024 * 1024 * m
                   <? free)%Z
               then Ret tt
               else Raise (AssertionError
                      (no_space_message
                         (scale_factor (args self) * 1024 * 1024 * 1024 * m)
                         free)),
               check_time self dir m t ++ [DiskUsage dir])
          end
      end
  end.
Proof.
  unfold _check_diskspace, getitem, bind.
  destruct (SIZING_FACTORS K !! db_type_of (schema_dir self))
    as [by_scale|]; [|reflexivity].
  cbn [ret].
  destruct (by_scale !! scale_factor (args self)) as [[|m|m]|];
    try reflexivity.
  all: unfold disk_usage, check_time; unfold_m;
    match goal with |- context [disk_free E ?h dir] =>
      destruct (disk_free E h dir) end; try reflexivity;
    match goal with |- context [(?a <? ?b)%Z] =>
      destruct (a <? b)%Z end; reflexivity.
Qed.

(** A database type that has no entry in [SIZING_FACTORS] makes the
    subscript of line 43 raise. *)
Lemma check_diskspace_unregistered_type t :
  SIZING_FACTORS K !! db_type_of (schema_dir self) = None ->
  _check_diskspace K E self dir t
  = (Raise (KeyError (db_type_of (schema_dir self))), t).
Proof. intros H. rewrite check_diskspace_cases, H. reflexivity. Qed.

(** A registered database type without size factor for the scale factor
    skips the check with the message of line 45. *)
Lemma check_diskspace_unregistered_scale t by_scale :
  SIZING_FACTORS K !! db_type_of (schema_dir self) = Some by_scale ->
  by_scale !! scale_factor (args self) = None ->
  _check_diskspace K E self dir t = (Ret tt, t ++ [Print skip_message]).
Proof. intros H1 H2. rewrite check_diskspace_cases, H1, H2. reflexivity. Qed.

End PreflightCases.

Section Preflight.

Variable K : Class.
Variable E : Env.
Variable self : Self.
Variable dir : string.

(** C2, amended: for a registered size factor other than 0, the check
    fails exactly when scale factor x 1 GiB x size factor is at least the
    number of free bytes reported at check time; in particular it fails
    when the two are equal. *)
Theorem check_diskspace_fails_iff t by_scale m free :
  SIZING_FACTORS K !! db_type_of (schema_dir self) = Some by_scale ->
  by_scale !! scale_factor (args self) = Some m ->
  m <> 0%Z ->
  disk_free E (check_time self dir m t) dir = Some free ->
  (failed (_check_diskspace K E self dir t).1 = true
   <-> (scale_factor (args self) * GiB * m >= free)%Z)
  /\ ((scale_factor (args self) * GiB * m = free)%Z ->
      failed (_check_diskspace K E self dir t).1 = true).
Proof.
  intros H1 H2 Hm Hfree.
  assert (Hiff : failed (_check_diskspace K E self dir t).1 = true
                 <-> (scale_factor (args self) * GiB * m >= free)%Z).
  { rewrite check_diskspace_cases, H1, H2.
    destruct m as [|m|m]; [done| |]; rewrite Hfree; cbn [fst];
      match goal with |- context [(?a <? ?b)%Z] =>
        destruct (Z.ltb_spec a b) end; cbn [failed]; unfold GiB;
      split; intros; try done; lia. }
  split; [exact Hiff|]. intros Heq. apply Hiff. lia.
Qed.



(** C10, amended: the identifier the preflight looks up is the text of
    the schema directory's base name before its first underscore (all of
    it when there is none), with [sdb] replaced by [s64da]. *)
Theorem db_type_is_prefix :
  db_type_of (schema_dir self)
  = canonical_kind (before_first_underscore (Py.basename (schema_dir self))).
Proof.
  unfold db_type_of, canonical_kind.
  rewrite item0_split_underscore. reflexivity.
Qed.

End Preflight.

(** C2 at its boundary: 10 x 1 GiB x 5 bytes needed, exactly 50 GiB free. *)
Lemma check_diskspace_fails_iff_witness :
  (failed (_check_diskspace (Sample.sized {[ "psql" := {[ 10%Z := 5%Z ]} ]})
             (Sample.disk (50 * GiB)) (Sample.factory "psql_native" 10)
             "/data" []).1 = true
   <-> (10 * GiB * 5 >= 50 * GiB)%Z)
  /\ ((10 * GiB * 5 = 50 * GiB)%Z ->
      failed (_check_diskspace (Sample.sized {[ "psql" := {[ 10%Z := 5%Z ]} ]})
                (Sample.disk (50 * GiB)) (Sample.factory "psql_native" 10)
                "/data" []).1 = true).
Proof.
  apply (check_diskspace_fails_iff
           (Sample.sized {[ "psql" := {[ 10%Z := 5%Z ]} ]})
           (Sample.disk (50 * GiB)) (Sample.factory "psql_native" 10)
           "/data" [] {[ 10%Z := 5%Z ]} 5%Z (50 * GiB)%Z).
  - vm_compute. reflexivity.
  - vm_compute. reflexivity.
  - lia.
  - reflexivity.
Defined.

(** C2 as stated fails for the size factor 0 on a full disk: 0 bytes are
    needed, 0 bytes are free, and the check does not fail. *)
Lemma check_diskspace_zero_counterexample :
  ~ (failed (_check_diskspace (Sample.sized {[ "psql" := {[ 1%Z := 0%Z ]} ]})
               (Sample.disk 0) (Sample.factory "psql_native" 1)
               "/data" []).1 = true
     <-> (1 * GiB * 0 >= 0)%Z).
Proof.
  intros [_ H]. assert (H0 : (1 * GiB * 0 >= 0)%Z) by (unfold GiB; lia).
  apply H in H0. vm_compute in H0. discriminate H0.
Qed.

(** C3: the class as declared has an empty size model; a run that asks for
    the disk-space check then stops with [KeyError] at line 43, before the
    skip message and before any stage. *)
Theorem check_diskspace_unknown_type_raises :
  _check_diskspace Sample.base_class (Sample.disk GiB)
    (Sample.factory "psql_native" 1) "/data" []
  = (Raise (KeyError "psql"), [])
  /\ run Sample.base_class (Sample.disk GiB)
       (Sample.factory "psql_native" 1) []
     = (Raise (KeyError "psql"), []).
Proof. split; vm_compute; reflexivity. Qed.


Example db_type_of_sdb : db_type_of "/opt/tpch/schemas/sdb_native" = "s64da".
Proof. reflexivity. Qed.

Example db_type_of_psql : db_type_of "/opt/tpch/schemas/psql_native" = "psql".
Proof. reflexivity. Qed.

(** Scale factor 10, size factor 5, 60 GiB free: 50 GiB are needed and the
    check passes. *)
Example check_diskspace_passes :
  (_check_diskspace (Sample.sized {[ "psql" := {[ 10%Z := 5%Z ]} ]})
     (Sample.disk (60 * GiB)) (Sample.factory "psql_native" 10)
     "/data" []).1
  = Ret tt.
Proof. vm_compute. reflexivity. Qed.

(** C10 as stated fails for a schema directory named [sdb_...]. *)
Lemma db_type_sdb_counterexample :
  db_type_of "/opt/tpch/schemas/sdb_native"
  <> before_first_underscore (Py.basename "/opt/tpch/schemas/sdb_native").
Proof. vm_compute. discriminate. Qed.

(** ** Index stage *)

Section IndexStage.

Variable E : Env.
Variable self : Self.

Hypothesis connects : forall t d, connect_ok E t d = true.
Hypothesis executes : forall t s, execute_ok E t s = true.

Lemma apply_sql_file_trace sql_file t :
  apply_sql_file E self sql_file t
  = (Ret tt, t ++ sql_file_block E self sql_file).
Proof.
  unfold apply_sql_file, sql_file_block, isfile, with_DBConn, read_file,
    execute.
  destruct (file E (Py.join (schema_dir self) [sql_file])) as [sql|];
    unfold_m; cbn [negb].
  - rewrite connects. destruct sql as [|c sql]; cbn [String.eqb].
    + rewrite <- !app_assoc. reflexivity.
    + rewrite executes, <- !app_assoc. reflexivity.
  - rewrite app_nil_r. reflexivity.
Qed.

(** C4, amended: the three files are applied in the order primary keys,
    foreign keys, indexes, each inside a connection of its own; a missing
    file adds nothing, and a file of length 0 opens and closes its
    connection without executing anything. *)
Theorem add_indexes_trace t :
  add_indexes E self t
  = (Ret tt,
     t ++ sql_file_block E self "primary-keys.sql"
       ++ sql_file_block E self "foreign-keys.sql"
       ++ sql_file_block E self "indexes.sql").
Proof.
  unfold add_indexes, sql_files. cbn [for_each]. unfold bind.
  rewrite !apply_sql_file_trace. unfold ret.
  rewrite <- !app_assoc. reflexivity.
Qed.

End IndexStage.

Lemma add_indexes_trace_witness :
  add_indexes
    (Sample.world [("/opt/tpch/schemas/psql_native/primary-keys.sql", "");
                   ("/opt/tpch/schemas/psql_native/indexes.sql",
                    "CREATE INDEX i ON t (a);")]
       GiB (fun _ => 0%Z) (fun _ => 0))
    (Sample.factory "psql_native" 1) []
  = (Ret tt,
     [Connect "postgresql://localhost:5432/bench";
      Print "Applying /opt/tpch/schemas/psql_native/primary-keys.sql";
      ReadFile "/opt/tpch/schemas/psql_native/primary-keys.sql";
      Disconnect "postgresql://localhost:5432/bench";
      Connect "postgresql://localhost:5432/bench";
      Print "Applying /opt/tpch/schemas/psql_native/indexes.sql";
      ReadFile "/opt/tpch/schemas/psql_native/indexes.sql";
      Execute "CREATE INDEX i ON t (a);";
      Disconnect "postgresql://localhost:5432/bench"]).
Proof.
  apply (add_indexes_trace
           (Sample.world
              [("/opt/tpch/schemas/psql_native/primary-keys.sql", "");
               ("/opt/tpch/schemas/psql_native/indexes.sql",
                "CREATE INDEX i ON t (a);")]
              GiB (fun _ => 0%Z) (fun _ => 0))
           (Sample.factory "psql_native" 1)).
  - reflexivity.
  - reflexivity.
Defined.

(** C4 as stated fails for a file that holds a line break only: its text
    is sent to the database. *)
Lemma add_indexes_blank_counterexample :
  ~ skips_blank_files
      (Sample.world [("/opt/tpch/schemas/psql_native/indexes.sql", nl)]
         GiB (fun _ => 0%Z) (fun _ => 0))
      (Sample.factory "psql_native" 1).
Proof.
  intros H. apply (H "indexes.sql" nl).
  - cbn. tauto.
  - reflexivity.
  - reflexivity.
  - vm_compute. tauto.
Qed.

(** ** Parsing a connection descriptor *)

Lemma append_cons c a b : String c a +:+ b = String c (a +:+ b).
Proof. reflexivity. Qed.

Lemma all_app p a b : Py.all p (a +:+ b) = Py.all p a && Py.all p b.
Proof.
  induction a as [|c a IH]; [reflexivity|].
  rewrite append_cons. cbn [Py.all]. rewrite IH, andb_assoc. reflexivity.
Qed.

Lemma all_impl (p q : ascii -> bool) s :
  (forall c, p c = true -> q c = true) ->
  Py.all p s = true -> Py.all q s = true.
Proof.
  intros Hpq. induction s as [|c s IH]; [reflexivity|].
  cbn [Py.all]. rewrite !andb_true_iff. intros [Hc Hs]. auto.
Qed.

Lemma filter_all p s : Py.all p s = true -> Py.filter p s = s.
Proof.
  induction s as [|c s IH]; [reflexivity|].
  cbn [Py.all Py.filter]. rewrite andb_true_iff. intros [-> Hs].
  rewrite IH by exact Hs. reflexivity.
Qed.

Lemma break_at p a c b :
  Py.all (fun x => negb (p x)) a = true -> p c = true ->
  Py.break p (a +:+ String c b) = (a, String c b).
Proof.
  intros Ha Hc. induction a as [|x a IH].
  - change (Py.break p (String c b) = (EmptyString, String c b)).
    cbn [Py.break]. rewrite Hc. reflexivity.
  - rewrite append_cons. cbn [Py.all Py.break] in *.
    apply andb_true_iff in Ha as [Hx Ha]. apply negb_true_iff in Hx.
    rewrite Hx, IH by exact Ha. reflexivity.
Qed.

Lemma break_none p s :
  Py.all (fun x => negb (p x)) s = true -> Py.break p s = (s, EmptyString).
Proof.
  induction s as [|x s IH]; [reflexivity|].
  cbn [Py.all Py.break]. rewrite andb_true_iff. intros [Hx Hs].
  apply negb_true_iff in Hx. rewrite Hx, IH by exact Hs. reflexivity.
Qed.

Lemma lower_all s :
  Py.all (fun c => negb (Py.is_upper c)) s = true -> Py.lower s = s.
Proof.
  induction s as [|x s IH]; [reflexivity|].
  cbn [Py.all Py.lower]. rewrite andb_true_iff. intros [Hx Hs].
  apply negb_true_iff in Hx. unfold Py.lower_char.
  rewrite Hx, IH by exact Hs. reflexivity.
Qed.

Lemma plain_scheme_char_facts c :
  plain_scheme_char c = true ->
  Py.scheme_char c = true /\ Py.is_upper c = false
  /\ Py.is_colon c = false /\ Py.unsafe_byte c = false.
Proof.
  destruct c as [[] [] [] [] [] [] [] []]; vm_compute; intuition congruence.
Qed.

Lemma is_lower_facts c :
  Py.is_lower c = true -> Py.c0_or_space c = false /\ Py.is_alpha c = true.
Proof.
  destruct c as [[] [] [] [] [] [] [] []]; vm_compute; intuition congruence.
Qed.

Lemma plain_dbname_char_facts c :
  plain_dbname_char c = true ->
  Py.ends_path c = false /\ Ascii.eqb c ";" = false
  /\ Py.unsafe_byte c = false.
Proof.
  destruct c as [[] [] [] [] [] [] [] []]; vm_compute; intuition congruence.
Qed.

(** A descriptor of the plain shape is split at its [://] and at the first
    [/] after it. *)
Lemma plain_netloc_char_facts c :
  plain_netloc_char c = true ->
  Py.ends_netloc c = false /\ Py.unsafe_byte c = false
  /\ Ascii.eqb c "[" = false /\ Ascii.eqb c "]" = false.
Proof.
  destruct c as [[] [] [] [] [] [] [] []]; vm_compute; intuition congruence.
Qed.

Lemma contains_all c (p : ascii -> bool) s :
  (forall a, p a = true -> Ascii.eqb a c = false) ->
  Py.all p s = true -> Py.contains c s = false.
Proof.
  intros Hp Hs. unfold Py.contains. apply negb_false_iff.
  revert Hs. apply all_impl. intros a Ha. rewrite (Hp a Ha). reflexivity.
Qed.

(** A network location of plain characters passes the checks of
    [urlsplit]: it holds no bracket. *)
Lemma plain_netloc_passes netloc :
  Py.all plain_netloc_char netloc = true ->
  Py.check_netloc_brackets netloc = None.
Proof.
  intros Hn. unfold Py.check_netloc_brackets.
  rewrite (contains_all "[" plain_netloc_char netloc),
    (contains_all "]" plain_netloc_char netloc);
    [reflexivity| |exact Hn| |exact Hn];
    intros a Ha; destruct (plain_netloc_char_facts a Ha) as (_ & _ & H1 & H2);
    assumption.
Qed.

Lemma urlparse_plain scheme netloc dbname :
  plain_scheme scheme = true ->
  Py.all plain_netloc_char netloc = true ->
  Py.all plain_dbname_char dbname = true ->
  Py.urlparse (scheme +:+ "://" +:+ netloc +:+ "/" +:+ dbname)
  = Py.Parsed {| Py.scheme := scheme; Py.netloc := netloc;
                 Py.path := "/" +:+ dbname |}.
Proof.
  unfold plain_scheme. rewrite andb_true_iff. intros [H0 Hs] Hn Hd.
  destruct scheme as [|c0 scheme]; [discriminate|].
  destruct (is_lower_facts c0 H0) as [Hc0 Halpha].
  assert (Hsafe : Py.all (fun c => negb (Py.unsafe_byte c))
                    (String c0 scheme +:+ "://" +:+ netloc +:+ "/" +:+ dbname)
                  = true).
  { rewrite !all_app, !andb_true_iff. repeat split; try reflexivity.
    - revert Hs. apply all_impl. intros c Hc.
      destruct (plain_scheme_char_facts c Hc) as (_ & _ & _ & ->). reflexivity.
    - revert Hn. apply all_impl. intros c Hc.
      destruct (plain_netloc_char_facts c Hc) as (_ & -> & _). reflexivity.
    - revert Hd. apply all_impl. intros c Hc.
      destruct (plain_dbname_char_facts c Hc) as (_ & _ & ->). reflexivity. }
  unfold Py.urlparse.
  replace (Py.lstrip Py.c0_or_space
             (String c0 scheme +:+ "://" +:+ netloc +:+ "/" +:+ dbname))
    with (String c0 scheme +:+ "://" +:+ netloc +:+ "/" +:+ dbname)
    by (rewrite append_cons; cbn [Py.lstrip]; rewrite Hc0; reflexivity).
  rewrite (filter_all _ _ Hsafe).
  change ("://" +:+ netloc +:+ "/" +:+ dbname)
    with (String ":" ("//" +:+ netloc +:+ "/" +:+ dbname)).
  rewrite break_at; [| |reflexivity].
  2:{ revert Hs. apply all_impl. intros c Hc.
      destruct (plain_scheme_char_facts c Hc) as (_ & _ & -> & _).
      reflexivity. }
  rewrite Halpha.
  replace (Py.all Py.scheme_char (String c0 scheme)) with true.
  2:{ symmetry. revert Hs. apply all_impl. intros c Hc.
      destruct (plain_scheme_char_facts c Hc) as (-> & _). reflexivity. }
  cbn [andb]. rewrite lower_all.
  2:{ revert Hs. apply all_impl. intros c Hc.
      destruct (plain_scheme_char_facts c Hc) as (_ & -> & _). reflexivity. }
  change ("//" +:+ netloc +:+ "/" +:+ dbname)
    with (String "/" (String "/" (netloc +:+ String "/" dbname))).
  cbv iota beta. rewrite break_at; [| |reflexivity].
  2:{ revert Hn. apply all_impl. intros c Hc.
      destruct (plain_netloc_char_facts c Hc) as (-> & _). reflexivity. }
  rewrite (plain_netloc_passes _ Hn).
  assert (Hpath : Py.all (fun c => negb (Py.ends_path c)) (String "/" dbname)
                  = true).
  { cbn [Py.all]. apply andb_true_iff. split; [reflexivity|].
    revert Hd. apply all_impl. intros c Hc.
    destruct (plain_dbname_char_facts c Hc) as (-> & _). reflexivity. }
  rewrite (break_none _ _ Hpath). cbn [fst].
  replace (Py.contains ";" (String "/" dbname)) with false.
  2:{ symmetry. unfold Py.contains. apply negb_false_iff.
      cbn [Py.all]. apply andb_true_iff. split; [reflexivity|].
      revert Hd. apply all_impl. intros c Hc.
      destruct (plain_dbname_char_facts c Hc) as (_ & -> & _). reflexivity. }
  rewrite andb_false_r. reflexivity.
Qed.

(** ** Database bootstrap *)

Section Bootstrap.

Variable E : Env.
Variable self : Self.

Hypothesis connects : forall t d, connect_ok E t d = true.
Hypothesis executes : forall t s, execute_ok E t s = true.

(** The bootstrap in terms of the parsed descriptor. *)
Lemma prepare_db_trace dsn_url schema_sql t :
  Py.urlparse (dsn (args self)) = Py.Parsed dsn_url ->
  file E (Py.join (schema_dir self) ["schema.sql"]) = Some schema_sql ->
  prepare_db E self t
  = (Ret tt,
     t ++ bootstrap_steps self (admin_dsn dsn_url) (dbname_of dsn_url)
            schema_sql).
Proof.
  intros Hurl Hfile. unfold prepare_db, bootstrap_steps, admin_dsn, dbname_of.
  rewrite Hurl.
  unfold with_DBConn, execute, read_file. rewrite Hfile.
  unfold_m.
  repeat (first [rewrite connects | rewrite executes]; cbv beta iota).
  rewrite <- !app_assoc. reflexivity.
Qed.

(** C5: for a descriptor [scheme://netloc/dbname] with a network
    location of ASCII characters without brackets, when the server accepts
    every connection and statement, the bootstrap connects to
    [scheme://netloc/postgres], drops the database if it exists, creates it
    from [template0] with encoding UTF-8, disconnects, connects with the
    descriptor as given, executes the whole text of [schema.sql] and
    disconnects; it does nothing else. *)
Theorem prepare_db_steps scheme netloc dbname schema_sql t :
  dsn (args self) = scheme +:+ "://" +:+ netloc +:+ "/" +:+ dbname ->
  plain_scheme scheme = true ->
  Py.all plain_netloc_char netloc = true ->
  Py.all plain_dbname_char dbname = true ->
  file E (Py.join (schema_dir self) ["schema.sql"]) = Some schema_sql ->
  prepare_db E self t
  = (Ret tt,
     t ++ bootstrap_steps self (scheme +:+ "://" +:+ netloc +:+ "/postgres")
            dbname schema_sql).
Proof.
  intros Hdsn Hs Hn Hd Hfile.
  rewrite (prepare_db_trace
             {| Py.scheme := scheme; Py.netloc := netloc;
                Py.path := "/" +:+ dbname |} _ _) by
    (try exact Hfile; rewrite Hdsn; apply urlparse_plain; assumption).
  reflexivity.
Qed.

End Bootstrap.

Lemma prepare_db_steps_witness :
  prepare_db
    (Sample.world [("/opt/tpch/schemas/psql_native/schema.sql",
                    "CREATE TABLE t (a int);")]
       GiB (fun _ => 0%Z) (fun _ => 0))
    (Sample.factory "psql_native" 1) []
  = (Ret tt,
     [Connect "postgresql://localhost:5432/postgres";
      Print "Deleting bench";
      Execute "DROP DATABASE IF EXISTS bench";
      Print "Creating bench";
      Execute "CREATE DATABASE bench TEMPLATE template0 ENCODING 'UTF-8'";
      Disconnect "postgresql://localhost:5432/postgres";
      Connect "postgresql://localhost:5432/bench";
      Print "Loading schema";
      ReadFile "/opt/tpch/schemas/psql_native/schema.sql";
      Execute "CREATE TABLE t (a int);";
      Disconnect "postgresql://localhost:5432/bench"]).
Proof.
  apply (prepare_db_steps
           (Sample.world [("/opt/tpch/schemas/psql_native/schema.sql",
                           "CREATE TABLE t (a int);")]
              GiB (fun _ => 0%Z) (fun _ => 0))
           (Sample.factory "psql_native" 1)
           ltac:(reflexivity) ltac:(reflexivity)
           "postgresql" "localhost:5432" "bench" "CREATE TABLE t (a int);" []);
    reflexivity.
Defined.
(** ** Which events a computation can add *)

Section Emits.

Context {A B : Type}.
Variable P : event -> Prop.

Lemma emits_ret (a : A) : emits P (ret a).
Proof.
  intros t. exists []. rewrite app_nil_r. split; [reflexivity|constructor].
Qed.

Lemma emits_raise e : emits P (@raise A e).
Proof.
  intros t. exists []. rewrite app_nil_r. split; [reflexivity|constructor].
Qed.

Lemma emits_emit e : P e -> emits P (emit e).
Proof.
  intros He t. exists [e]. split; [reflexivity|].
  repeat constructor. exact He.
Qed.

Lemma emits_history : emits P history.
Proof.
  intros t. exists []. rewrite app_nil_r. split; [reflexivity|constructor].
Qed.

Lemma emits_bind_from (m : M A) (k : A -> M B) :
  emits P m ->
  (forall t a t', m t = (Ret a, t') -> emits P (k a)) ->
  emits P (bind m k).
Proof.
  intros Hm Hk t. unfold bind. destruct (Hm t) as (ext & Ht & Hext).
  destruct (m t) as [[a|e] t1] eqn:Hmt; cbn [snd] in Ht; subst t1.
  - destruct (Hk _ _ _ Hmt (t ++ ext)) as (ext' & Ht' & Hext').
    exists (ext ++ ext'). rewrite Ht', app_assoc. split; [reflexivity|].
    apply Forall_app; split; assumption.
  - exists ext. split; [reflexivity|assumption].
Qed.

Lemma emits_bind (m : M A) (k : A -> M B) :
  emits P m -> (forall a, emits P (k a)) -> emits P (bind m k).
Proof.
  intros Hm Hk t. unfold bind. destruct (Hm t) as (ext & Ht & Hext).
  destruct (m t) as [[a|e] t1]; cbn [snd] in Ht; subst t1.
  - destruct (Hk a (t ++ ext)) as (ext' & Ht' & Hext').
    exists (ext ++ ext'). rewrite Ht', app_assoc. split; [reflexivity|].
    apply Forall_app; split; assumption.
  - exists ext. split; [reflexivity|assumption].
Qed.

Lemma emits_finally (m : M A) (h : M unit) :
  emits P m -> emits P h -> emits P (finally m h).
Proof.
  intros Hm Hh t. unfold finally. destruct (Hm t) as (ext & Ht & Hext).
  destruct (m t) as [r t1]; cbn [snd] in Ht; subst t1.
  destruct (Hh (t ++ ext)) as (ext' & Ht' & Hext').
  exists (ext ++ ext'). rewrite app_assoc, <- Ht'. split.
  - destruct r; destruct (h (t ++ ext)) as [[]]; reflexivity.
  - apply Forall_app; split; assumption.
Qed.

Lemma emits_attempt (m : M A) : emits P m -> emits P (attempt m).
Proof.
  intros Hm t. unfold attempt. destruct (Hm t) as (ext & Ht & Hext).
  destruct (m t) as [r t1]. exists ext. split; assumption.
Qed.

End Emits.

Lemma emits_weaken {A} (P Q : event -> Prop) (m : M A) :
  (forall e, P e -> Q e) -> emits P m -> emits Q m.
Proof.
  intros HPQ Hm t. destruct (Hm t) as (ext & Ht & Hext).
  exists ext. split; [assumption|]. eapply Forall_impl; eassumption.
Qed.

Lemma emits_for_each {A} P (l : list A) body :
  (forall x, emits P (body x)) -> emits P (for_each l body).
Proof.
  intros Hb. induction l as [|x l IH]; cbn [for_each].
  - apply emits_ret.
  - apply emits_bind; [apply Hb|intros _; exact IH].
Qed.

Ltac emits_step :=
  first
    [ apply emits_ret | apply emits_raise | apply emits_history
    | apply emits_emit;
      first [exact I | assumption | (let H := fresh in intros H; exact H)]
    | apply emits_bind; [|intros ?]
    | apply emits_finally
    | apply emits_attempt
    | apply emits_for_each; intros ?
    | match goal with
      | |- emits _ (if ?c then _ else _) => destruct c
      | |- emits _ (match ?x with _ => _ end) => destruct x
      end ].

(** ** Computations that cannot raise *)

Lemma returns_ret {A} (a : A) : returns (ret a).
Proof. intros t. exists a. reflexivity. Qed.

Lemma returns_emit e : returns (emit e).
Proof. intros t. exists tt. reflexivity. Qed.

Lemma returns_history : returns history.
Proof. intros t. exists t. reflexivity. Qed.

Lemma returns_attempt {A} (m : M A) : returns (attempt m).
Proof.
  intros t. unfold attempt. destruct (m t) as [r t']. exists r. reflexivity.
Qed.

Lemma returns_bind {A B} (m : M A) (k : A -> M B) :
  returns m -> (forall a, returns (k a)) -> returns (bind m k).
Proof.
  intros Hm Hk t. unfold bind. destruct (Hm t) as (a & Ha).
  destruct (m t) as [r t']. cbn [fst] in Ha. subst r. apply Hk.
Qed.

Ltac returns_step :=
  first
    [ apply returns_ret | apply returns_history | apply returns_emit
    | apply returns_attempt
    | apply returns_bind; [|intros ?]
    | match goal with
      | |- returns (if ?c then _ else _) => destruct c
      | |- returns (match ?x with _ => _ end) => destruct x
      end ].

(** ** Sequencing *)

Lemma bind_assoc {A B C} (m : M A) (k : A -> M B) (h : B -> M C) t :
  bind (bind m k) h t = bind m (fun a => bind (k a) h) t.
Proof. unfold bind. destruct (m t) as [[a|e] t1]; reflexivity. Qed.

Lemma bind_eq {A B} (m : M A) (k : A -> M B) t :
  bind m k t
  = match m t with
    | (Ret a, t') => k a t'
    | (Raise e, t') => (Raise e, t')
    end.
Proof. reflexivity. Qed.

(** ** Reading the trace *)

Lemma submitted_app tr tr' :
  submitted (tr ++ tr') = submitted tr ++ submitted tr'.
Proof.
  induction tr as [|e tr IH]; [reflexivity|].
  destruct e; cbn [app submitted]; rewrite IH; reflexivity.
Qed.

Lemma started_app tr tr' : started (tr ++ tr') = started tr ++ started tr'.
Proof.
  induction tr as [|e tr IH]; [reflexivity|].
  destruct e; cbn [app started]; rewrite IH; reflexivity.
Qed.

Lemma cancelled_app tr tr' :
  cancelled (tr ++ tr') = cancelled tr ++ cancelled tr'.
Proof.
  induction tr as [|e tr IH]; [reflexivity|].
  destruct e; cbn [app cancelled]; rewrite IH; reflexivity.
Qed.

Lemma printed_app tr tr' : printed (tr ++ tr') = printed tr ++ printed tr'.
Proof.
  induction tr as [|e tr IH]; [reflexivity|].
  destruct e; cbn [app printed]; rewrite IH; reflexivity.
Qed.

Lemma exited_app tr tr' : exited (tr ++ tr') = exited tr ++ exited tr'.
Proof.
  induction tr as [|e tr IH]; [reflexivity|].
  destruct e; cbn [app exited]; rewrite IH; reflexivity.
Qed.

Lemma started_in cmd tr :
  In cmd (started tr) -> exists cwd, In (Popen cmd cwd) tr.
Proof.
  induction tr as [|e tr IH]; [intros []|].
  destruct e; cbn [started]; try (intros H; destruct (IH H) as [cwd Hc];
    exists cwd; right; exact Hc).
  intros [<-|H]; [eexists; left; reflexivity|].
  destruct (IH H) as [cwd' Hc]. exists cwd'. right. exact Hc.
Qed.

(** ** The futures of a pool *)

Lemma lookup_set_state i j s fs :
  set_state i s fs !! j
  = if decide (i = j)
    then (fun f => {| f_task := f_task f; f_state := s |}) <$> fs !! j
    else fs !! j.
Proof.
  unfold set_state. destruct (decide (i = j)) as [->|Hne].
  - apply list_lookup_alter_eq.
  - apply list_lookup_alter_ne. exact Hne.
Qed.

Lemma length_set_state i s fs : length (set_state i s fs) = length fs.
Proof. apply length_alter. Qed.

Lemma tasks_set_state i s fs :
  map f_task (set_state i s fs) = map f_task fs.
Proof.
  unfold set_state. revert i. induction fs as [|f fs IH]; intros [|i];
    cbn [alter list_alter map f_task]; try reflexivity.
  rewrite IH. reflexivity.
Qed.

Lemma in_set_state g i s fs :
  In g (set_state i s fs) ->
  In g fs
  \/ exists f, fs !! i = Some f /\ g = {| f_task := f_task f; f_state := s |}.
Proof.
  unfold set_state. revert i. induction fs as [|f fs IH]; intros i Hg.
  - destruct i; destruct Hg.
  - destruct i as [|i]; cbn [alter list_alter] in Hg.
    + destruct Hg as [<-|Hg]; [right; exists f; auto|left; right; exact Hg].
    + destruct Hg as [<-|Hg]; [left; left; reflexivity|].
      destruct (IH _ Hg) as [H|(f' & Hf' & ->)];
        [left; right; exact H|right; exists f'; auto].
Qed.

Lemma lookup_in (fs : list future) i f : fs !! i = Some f -> In f fs.
Proof.
  intros H. apply list_elem_of_In. eapply list_elem_of_lookup_2. exact H.
Qed.

Lemma in_lookup (fs : list future) f : In f fs -> exists i, fs !! i = Some f.
Proof.
  intros H. apply list_elem_of_In, list_elem_of_lookup_1 in H. exact H.
Qed.

Lemma task_of_lookup p i f :
  futures p !! i = Some f -> In (f_task f) (tasks_of p).
Proof. intros Hf. apply in_map. eapply lookup_in. exact Hf. Qed.

(** Changing the state of one future moves its task into or out of the
    tasks with a given kind of state, and leaves the others. *)
Lemma tasks_where_set_state (P : fstate -> bool) i s fs f :
  fs !! i = Some f ->
  Permutation
    ((if P s then [f_task f] else []) ++ tasks_where P fs)
    ((if P (f_state f) then [f_task f] else [])
     ++ tasks_where P (set_state i s fs)).
Proof.
  unfold set_state. revert i. induction fs as [|g fs IH]; intros i Hi.
  - destruct i; discriminate.
  - destruct i as [|i]; cbn in Hi.
    + injection Hi as ->. cbn [alter list_alter tasks_where f_state f_task].
      destruct (P s), (P (f_state f)); cbn [app]; try reflexivity.
    + specialize (IH _ Hi). cbn [alter list_alter tasks_where].
      destruct (P (f_state g)); [|exact IH].
      destruct (P s), (P (f_state f)); cbn [app] in *.
      * rewrite (Permutation_swap _ _ _). rewrite IH.
        rewrite (Permutation_swap _ _ _). reflexivity.
      * rewrite (Permutation_swap _ _ _). rewrite IH. reflexivity.
      * rewrite IH. rewrite (Permutation_swap _ _ _). reflexivity.
      * rewrite IH. reflexivity.
Qed.

Lemma tasks_where_same (P : fstate -> bool) i s fs f :
  fs !! i = Some f -> P s = P (f_state f) ->
  tasks_where P (set_state i s fs) = tasks_where P fs.
Proof.
  unfold set_state. revert i. induction fs as [|g fs IH]; intros i Hi Hs.
  - destruct i; discriminate.
  - destruct i as [|i]; cbn in Hi.
    + injection Hi as ->. cbn [alter list_alter tasks_where f_state f_task].
      rewrite Hs. reflexivity.
    + cbn [alter list_alter tasks_where]. rewrite (IH _ Hi Hs). reflexivity.
Qed.

Lemma tasks_where_app (P : fstate -> bool) fs gs :
  tasks_where P (fs ++ gs) = tasks_where P fs ++ tasks_where P gs.
Proof.
  induction fs as [|f fs IH]; [reflexivity|].
  cbn [app tasks_where]. rewrite IH. destruct (P (f_state f)); reflexivity.
Qed.

Lemma tasks_where_in (P : fstate -> bool) fs f :
  In f fs -> P (f_state f) = true -> tasks_where P fs <> [].
Proof.
  induction fs as [|g fs IH]; [intros []|].
  intros [->|Hin] HP; cbn [tasks_where].
  - rewrite HP. discriminate.
  - destruct (P (f_state g)); [discriminate|auto].
Qed.

Lemma tasks_where_elim (P : fstate -> bool) fs task :
  In task (tasks_where P fs) ->
  exists f, In f fs /\ P (f_state f) = true /\ f_task f = task.
Proof.
  induction fs as [|g fs IH]; [intros []|]. cbn [tasks_where].
  destruct (P (f_state g)) eqn:Hg.
  - intros [<-|Hin].
    + exists g. repeat split; [left; reflexivity|exact Hg].
    + destruct (IH Hin) as (f & Hf & HP & Ht). exists f.
      repeat split; [right; exact Hf|exact HP|exact Ht].
  - intros Hin. destruct (IH Hin) as (f & Hf & HP & Ht). exists f.
    repeat split; [right; exact Hf|exact HP|exact Ht].
Qed.

Lemma tasks_where_all (P : fstate -> bool) fs :
  (forall f, In f fs -> P (f_state f) = true) ->
  tasks_where P fs = map f_task fs.
Proof.
  induction fs as [|g fs IH]; intros H; [reflexivity|].
  cbn [tasks_where map]. rewrite (H g) by (left; reflexivity).
  rewrite IH by (intros; apply H; right; assumption). reflexivity.
Qed.

Lemma tasks_where_none (P : fstate -> bool) fs :
  (forall f, In f fs -> P (f_state f) = false) -> tasks_where P fs = [].
Proof.
  induction fs as [|g fs IH]; intros H; [reflexivity|].
  cbn [tasks_where]. rewrite (H g) by (left; reflexivity).
  apply IH. intros; apply H; right; assumption.
Qed.

(** Futures that are done were started, cancelled, or refused a process. *)
Lemma tasks_where_done fs :
  (forall f, In f fs -> is_done (f_state f) = true) ->
  Permutation
    (tasks_where has_started fs ++ tasks_where was_cancelled fs
     ++ tasks_where spawn_failed fs)
    (map f_task fs).
Proof.
  induction fs as [|g fs IH]; intros H; [reflexivity|].
  specialize (IH (fun f Hf => H f (or_intror Hf))).
  pose proof (H g (or_introl eq_refl)) as Hg.
  cbn [tasks_where map].
  destruct (f_state g) as [|[]| | |[[]|]]; try discriminate Hg;
    cbn [has_started was_cancelled spawn_failed app].
  all: repeat rewrite <- Permutation_middle; constructor; exact IH.
Qed.

Lemma stages_set_state c i s fs f :
  fs !! i = Some f ->
  stages_weight c (set_state i s fs) + stage_weight c (f_state f)
  = stages_weight c fs + stage_weight c s.
Proof.
  unfold set_state. revert i. induction fs as [|g fs IH]; intros i Hi.
  - destruct i; discriminate.
  - destruct i as [|i]; cbn in Hi.
    + injection Hi as ->. cbn [alter list_alter stages_weight f_state]. lia.
    + specialize (IH _ Hi). cbn [alter list_alter stages_weight]. lia.
Qed.

Lemma stages_app c fs gs :
  stages_weight c (fs ++ gs) = stages_weight c fs + stages_weight c gs.
Proof.
  induction fs as [|f fs IH]; [reflexivity|].
  cbn [app stages_weight]. rewrite IH. lia.
Qed.

(** The indices [select_from] picks. *)
Lemma select_from_spec P k i fs :
  In i (select_from P k fs) <->
  exists f, fs !! (i - k) = Some f /\ k <= i /\ P i (f_state f) = true.
Proof.
  revert k. induction fs as [|g fs IH]; intros k; cbn [select_from].
  - split; [intros []|intros (f & Hf & _)]. destruct (i - k); discriminate.
  - assert (Htail : In i (select_from P (S k) fs) <->
                    exists f, (g :: fs) !! (i - k) = Some f /\ S k <= i
                              /\ P i (f_state f) = true).
    { rewrite IH. split; intros (f & Hf & Hle & HP); exists f.
      - replace (i - k) with (S (i - S k)) by lia. auto.
      - replace (i - k) with (S (i - S k)) in Hf by lia. auto. }
    split.
    + intros Hin.
      assert (Hcases : i = k /\ P k (f_state g) = true
                       \/ In i (select_from P (S k) fs)).
      { destruct (P k (f_state g)) eqn:Hg; [|auto].
        destruct Hin as [<-|Hin]; auto. }
      destruct Hcases as [[-> Hg]|Hin'].
      * exists g. rewrite Nat.sub_diag. auto.
      * apply Htail in Hin' as (f & Hf & Hle & HP). exists f.
        repeat split; [exact Hf|lia|exact HP].
    + intros (f & Hf & Hle & HP).
      destruct (decide (i = k)) as [->|Hne].
      * rewrite Nat.sub_diag in Hf. injection Hf as ->. rewrite HP.
        left. reflexivity.
      * assert (Hin : In i (select_from P (S k) fs))
          by (apply Htail; exists f; repeat split; [exact Hf|lia|exact HP]).
        destruct (P k (f_state g)); [right|]; exact Hin.
Qed.

Lemma select_nil P fs i f :
  select_from P 0 fs = [] -> fs !! i = Some f -> P i (f_state f) = false.
Proof.
  intros Hnil Hf. destruct (P i (f_state f)) eqn:HP; [|reflexivity].
  assert (Hin : In i (select_from P 0 fs)).
  { apply select_from_spec. exists f. rewrite Nat.sub_0_r. auto with arith. }
  rewrite Hnil in Hin. destruct Hin.
Qed.

(** ** The parallel task runner *)

Section Runner.

Variable E : Env.
Variable self : Self.

Let W : Z := max_jobs (args self).

(** What it takes for a step to be enabled. *)
Lemma enabled_inv a p :
  In a (enabled W p) ->
  match a with
  | Take => next p < length (futures p) /\ (Z.of_nat (busy p) < W)%Z
  | Begin i =>
      exists f, futures p !! i = Some f /\ i < next p
                /\ waits (f_state f) = true
  | Spawn i => exists f, futures p !! i = Some f /\ f_state f = Running false
  | Finish i => exists f, futures p !! i = Some f /\ f_state f = Running true
  | SubmitStep => exists rest, pc p = Submitting rest
  | Yield k => pc p = Waiting /\ k < length (notified p)
  | CancelStep => exists i, pc p = Cancelling i
  end.
Proof.
  unfold enabled. rewrite !in_app_iff, !in_map_iff.
  intros [H|[(j & <- & Hj)|[(j & <- & Hj)|[(j & <- & Hj)|H]]]].
  - destruct (Nat.ltb_spec (next p) (length (futures p))) as [Hlt|];
      [|destruct H].
    destruct (Z.ltb_spec (Z.of_nat (busy p)) W) as [Hb|]; [|destruct H].
    destruct H as [<-|[]]. auto.
  - apply select_from_spec in Hj as (f & Hf & _ & HP).
    rewrite Nat.sub_0_r in Hf. apply andb_true_iff in HP as [Hlt Hw].
    apply Nat.ltb_lt in Hlt. eauto.
  - apply select_from_spec in Hj as (f & Hf & _ & HP).
    rewrite Nat.sub_0_r in Hf. exists f. split; [exact Hf|].
    destruct (f_state f) as [|[]| | |]; try discriminate HP. reflexivity.
  - apply select_from_spec in Hj as (f & Hf & _ & HP).
    rewrite Nat.sub_0_r in Hf. exists f. split; [exact Hf|].
    destruct (f_state f) as [|[]| | |]; try discriminate HP. reflexivity.
  - destruct (pc p) as [rest| |i|e].
    + destruct H as [<-|[]]. eauto.
    + apply in_map_iff in H as (k & <- & Hk). apply in_seq in Hk.
      split; [reflexivity|lia].
    + destruct H as [<-|[]]. eauto.
    + destruct H.
Qed.

(** An enabled step is one of the steps of [fires]; it never raises. *)
Lemma step_fires a p t :
  In a (enabled W p) ->
  exists e p', step E self a p t = (Ret p', t ++ e) /\ fires E self t p e p'.
Proof.
  intros Hen. apply enabled_inv in Hen. destruct a as [|i|i|i| |k|];
    cbn [step].
  - destruct Hen as [Hlt Hb].
    destruct (lookup_lt_is_Some_2 _ _ Hlt) as [f Hf]. rewrite Hf.
    exists [], {| futures := futures p; next := S (next p);
                  notified := notified p; pc := pc p |}.
    rewrite app_nil_r. split; [reflexivity|]. eapply fires_take; eassumption.
  - destruct Hen as (f & Hf & Hlt & Hw). rewrite Hf.
    cbn [fmap option_fmap option_map].
    destruct (f_state f) eqn:Hst; try discriminate Hw.
    + exists [], (with_state i (Running false) p). rewrite app_nil_r.
      split; [reflexivity|]. eapply fires_begin; eassumption.
    + exists [], (notify i (with_state i CancelledNotified p)).
      rewrite app_nil_r. split; [reflexivity|].
      eapply fires_notify; eassumption.
  - destruct Hen as (f & Hf & Hst). rewrite Hf, Hst.
    unfold popen. unfold_m.
    destruct (spawn_ok E t (f_task f)) eqn:Hspawn.
    + exists [Popen (f_task f) (base_dir (benchmark self))],
        (with_state i (Running true) p).
      split; [reflexivity|]. eapply fires_spawn; eassumption.
    + exists [],
        (notify i (with_state i (Finished (Some (OSError (f_task f)))) p)).
      rewrite app_nil_r. split; [reflexivity|].
      eapply fires_spawn_fails; eassumption.
  - destruct Hen as (f & Hf & Hst). rewrite Hf, Hst.
    unfold wait. unfold_m.
    destruct (Z.eqb_spec (exit_code E t (f_task f)) 0) as [Hrc|Hrc].
    + exists [Exited (f_task f) 0], (notify i (with_state i (Finished None) p)).
      rewrite Hrc. split; [reflexivity|]. eapply fires_finish; eassumption.
    + exists [Exited (f_task f) (exit_code E t (f_task f))],
        (notify i
           (with_state i (Finished (Some (AssertionError exit_message))) p)).
      split; [reflexivity|]. eapply fires_finish_fails; eassumption.
  - destruct Hen as (rest & Hpc). rewrite Hpc. destruct rest as [|task rest].
    + exists [], (with_pc Waiting p). rewrite app_nil_r.
      split; [reflexivity|]. apply fires_submitted. exact Hpc.
    + eexists [Submit task], _. split; [reflexivity|].
      apply fires_submit. exact Hpc.
  - destruct Hen as [Hpc Hk]. rewrite Hpc.
    destruct (lookup_lt_is_Some_2 _ _ Hk) as [i Hi]. rewrite Hi.
    destruct (futures p !! i) as [f|] eqn:Hf;
      cbn [fmap option_fmap option_map].
    + destruct (f_state f) as [|b| | |[exc|]] eqn:Hst.
      1-3: exists [], (unnotify k p); rewrite app_nil_r;
        (split; [reflexivity|]); eapply fires_yield_early; try eassumption;
        rewrite Hf; cbn; rewrite Hst; discriminate.
      * exists [], (with_pc (Leaving CancelledError) (unnotify k p)).
        rewrite app_nil_r. split; [reflexivity|].
        eapply fires_yield_cancelled; eassumption.
      * eexists [Print _], (with_pc (Cancelling 0) (unnotify k p)).
        split; [reflexivity|]. eapply fires_yield_failed; eassumption.
      * exists [], (unnotify k p). rewrite app_nil_r.
        split; [reflexivity|]. eapply fires_yield; eassumption.
    + exists [], (unnotify k p). rewrite app_nil_r. split; [reflexivity|].
      eapply fires_yield_early; try eassumption. rewrite Hf. discriminate.
  - destruct Hen as (i & Hpc). rewrite Hpc.
    destruct (futures p !! i) as [f|] eqn:Hf.
    + destruct (f_state f) eqn:Hst.
      1:{ exists [Cancel (f_task f)],
            (with_pc (Cancelling (S i)) (with_state i Cancelled p)).
          split; [reflexivity|]. eapply fires_cancel; eassumption. }
      all: exists [], (with_pc (Cancelling (S i)) p); rewrite app_nil_r;
        (split; [reflexivity|]); eapply fires_cancel_late; try eassumption;
        rewrite Hst; discriminate.
    + exists [], (with_pc Waiting p). rewrite app_nil_r.
      split; [reflexivity|]. eapply fires_cancel_end; eassumption.
Qed.

End Runner.
(** ** The pool, step by step *)

Ltac fires_cases H :=
  destruct H as
    [ f Hf Hbusy
    | i f Hf Hlt Hst
    | i f Hf Hlt Hst
    | i f Hf Hst Hspawn
    | i f Hf Hst Hspawn
    | i f Hf Hst Hrc
    | i f Hf Hst Hrc
    | task rest Hpc
    | Hpc
    | k i f Hpc Hk Hf Hst
    | k i f exc Hpc Hk Hf Hst
    | k i f Hpc Hk Hf Hst
    | k i Hpc Hk Hearly
    | i f Hpc Hf Hst
    | i f Hpc Hf Hst
    | i Hpc Hf ].

Ltac pool_simpl :=
  cbn [with_state notify with_pc unnotify futures next notified pc] in *.

Section Steps.

Variable E : Env.
Variable self : Self.

Let W : Z := max_jobs (args self).

(** Every step keeps the pool well-formed and lowers its weight. *)
Lemma fires_weight n t p e p' :
  pool_ok n p -> fires E self t p e p' ->
  pool_ok n p' /\ weight n p' < weight n p.
Proof.
  intros [Hn Hok] Hfires. unfold pool_ok, weight, rest_of in *.
  fires_cases Hfires; pool_simpl;
    rewrite ?length_set_state, ?length_app, ?stages_app;
    cbn [length stages_weight f_state stage_weight];
    try (pose proof (stages_set_state (n + 2) i (Running false) _ _ Hf) as HS);
    try (pose proof (stages_set_state (n + 2) i (Running true) _ _ Hf) as HS1);
    try (pose proof (stages_set_state (n + 2) i CancelledNotified _ _ Hf)
          as HS2);
    try (pose proof (stages_set_state (n + 2) i (Finished None) _ _ Hf)
          as HS3);
    try (pose proof (stages_set_state (n + 2) i
                       (Finished (Some (OSError (f_task f)))) _ _ Hf) as HS4);
    try (pose proof (stages_set_state (n + 2) i
                       (Finished (Some (AssertionError exit_message))) _ _ Hf)
          as HS5);
    try (pose proof (stages_set_state (n + 2) i Cancelled _ _ Hf) as HS6);
    try rewrite Hst in *; cbn [stage_weight] in *;
    try (assert (Hdel : length (delete k (notified p))
                        = length (notified p) - 1)
          by (apply length_delete; eauto));
    try (apply lookup_lt_Some in Hk);
    try (apply lookup_lt_Some in Hf as Hlen);
    try (apply lookup_ge_None in Hf as Hlen);
    try rewrite Hpc in *; try rewrite Hdel;
    try (destruct (pc p)); cbn [length] in *;
    (split; [split|]); try lia; try nia.
Qed.

(** A pool with no weight left is at rest. *)
Lemma weightless_rests n p : pool_ok n p -> weight n p = 0 -> enabled W p = [].
Proof.
  intros Hok Hw. destruct (enabled W p) as [|a acts] eqn:Hen; [reflexivity|].
  destruct (step_fires E self a p []) as (e & p' & _ & Hfires);
    [fold W; rewrite Hen; left; reflexivity|].
  apply (fires_weight n) in Hfires as [_ Hlt]; [lia|exact Hok].
Qed.

(** With fuel for its weight the pool runs until it is at rest, and what
    holds step by step holds of the pool at rest. *)
Lemma pool_loop_runs (Q : pool -> trace -> Prop) m :
  invariant E self Q ->
  forall fuel n p t ext,
    Q p ext -> pool_ok m p -> weight m p <= fuel ->
    exists e p',
      pool_loop E self fuel n p t = (Ret p', t ++ e)
      /\ Q p' (ext ++ e) /\ enabled W p' = [].
Proof.
  intros HQ. induction fuel as [|fuel IH]; intros n p t ext Hq Hok Hw;
    cbn [pool_loop].
  - exists [], p. rewrite !app_nil_r. split; [reflexivity|].
    split; [exact Hq|]. apply (weightless_rests m); [exact Hok|lia].
  - fold W. destruct (enabled W p) as [|a acts] eqn:Hen.
    + exists [], p. rewrite !app_nil_r. auto.
    + rewrite bind_eq. unfold history. rewrite bind_eq.
      set (k := sched E t n mod length (a :: acts)).
      assert (Hin : In (nth k (a :: acts) a) (enabled W p)).
      { rewrite Hen. apply nth_In. apply Nat.mod_upper_bound. discriminate. }
      destruct (step_fires E self _ p t Hin) as (e1 & p1 & -> & Hfires).
      destruct (fires_weight m _ _ _ _ Hok Hfires) as [Hok1 Hlt].
      destruct (IH (S n) p1 (t ++ e1) (ext ++ e1)) as (e2 & p2 & -> & Hq2 & Hr);
        [eapply HQ; eassumption|exact Hok1|lia|].
      exists (e1 ++ e2), p2. rewrite !app_assoc. auto.
Qed.

(** In a pool at rest every future is done, and the main thread has left
    the loop over [as_completed], at its end or by an exception. *)
Lemma rest_done p :
  (0 < W)%Z -> enabled W p = [] ->
  (forall f, In f (futures p) -> is_done (f_state f) = true)
  /\ (pc p = Waiting \/ exists e, pc p = Leaving e).
Proof.
  intros HW Hen. unfold enabled in Hen.
  apply app_eq_nil in Hen as [Htake Hen].
  apply app_eq_nil in Hen as [Hheld Hen]. apply map_eq_nil in Hheld.
  apply app_eq_nil in Hen as [Hbegun Hen]. apply map_eq_nil in Hbegun.
  apply app_eq_nil in Hen as [Hspawned Hmain]. apply map_eq_nil in Hspawned.
  assert (Hnext : length (futures p) <= next p).
  { unfold busy in Htake. rewrite Hheld, Hbegun, Hspawned in Htake.
    change (Z.of_nat (length (@nil nat) + length (@nil nat)
                      + length (@nil nat))) with 0%Z in Htake.
    rewrite (proj2 (Z.ltb_lt 0 W) HW), andb_true_r in Htake.
    destruct (Nat.ltb_spec (next p) (length (futures p))); [discriminate|lia]. }
  split.
  - intros f Hin. apply in_lookup in Hin as [i Hi].
    pose proof (select_nil _ _ _ _ Hheld Hi) as H1.
    pose proof (select_nil _ _ _ _ Hbegun Hi) as H2.
    pose proof (select_nil _ _ _ _ Hspawned Hi) as H3.
    cbv beta in H1, H2, H3. apply lookup_lt_Some in Hi.
    rewrite (proj2 (Nat.ltb_lt i (next p))) in H1 by lia.
    destruct (f_state f) as [|[]| | |]; try discriminate; reflexivity.
  - destruct (pc p) as [rest| |i|e]; try discriminate Hmain; eauto.
Qed.

(** The runner in terms of its pool: for a positive bound it opens the
    pool, runs it to rest, shuts it down, and raises what made the main
    thread leave the loop, if anything did. *)
Lemma runner_runs (Q : pool -> trace -> Prop) tasks t :
  (0 < W)%Z -> invariant E self Q -> Q (new_pool tasks) [] ->
  exists ext p,
    _run_tasks_parallel E self tasks t
    = (match pc p with Leaving e => Raise e | _ => Ret tt end,
       t ++ PoolOpen W :: ext ++ [PoolShutdown])
    /\ Q p ext
    /\ (forall f, In f (futures p) -> is_done (f_state f) = true)
    /\ (pc p = Waiting \/ exists e, pc p = Leaving e).
Proof.
  intros HW HQ H0. unfold _run_tasks_parallel. fold W.
  destruct (Z.leb_spec W 0) as [?|_]; [lia|].
  rewrite bind_eq. unfold emit at 1. rewrite bind_eq.
  destruct (pool_loop_runs Q (length tasks) HQ (pool_fuel (length tasks)) 0
              (new_pool tasks) (t ++ [PoolOpen W]) [] H0)
    as (ext & p & -> & Hq & Hrest).
  - split; [reflexivity|exact I].
  - unfold weight, new_pool, pool_fuel. cbn [pc futures next notified length
      stages_weight]. lia.
  - exists ext, p. destruct (rest_done p HW Hrest) as [Hdone Hpc].
    split; [|auto]. rewrite bind_eq. unfold emit.
    rewrite <- !app_assoc. cbn [app].
    destruct (pc p); reflexivity.
Qed.

Lemma invariant_and (Q1 Q2 : pool -> trace -> Prop) :
  invariant E self Q1 -> invariant E self Q2 ->
  invariant E self (fun p ext => Q1 p ext /\ Q2 p ext).
Proof.
  intros H1 H2 t p e p' ext [Hq1 Hq2] Hfires. split; eauto.
Qed.

End Steps.
(** ** Invariants of the pool *)

Lemma not_nil_app {A} (l l' : list A) : l <> [] -> l ++ l' <> [].
Proof. destruct l; [congruence|discriminate]. Qed.

(** A process is started only for a task submitted before it. *)
Lemma submitted_before ext e :
  (forall a task cwd b, ext = a ++ Popen task cwd :: b ->
                        In task (submitted a)) ->
  (e = []
   \/ exists ev, e = [ev]
                 /\ forall task cwd, ev = Popen task cwd ->
                                     In task (submitted ext)) ->
  forall a task cwd b, ext ++ e = a ++ Popen task cwd :: b ->
                       In task (submitted a).
Proof.
  intros Hext [->|(ev & -> & Hev)] a task cwd b.
  - rewrite app_nil_r. apply Hext.
  - destruct b as [|x b _] using rev_ind.
    + intros Heq. apply app_inj_tail in Heq as [<- ->]. eapply Hev. reflexivity.
    + change (a ++ Popen task cwd :: b ++ [x])
        with (a ++ (Popen task cwd :: b) ++ [x]).
      rewrite app_assoc. intros Heq. apply app_inj_tail in Heq as [-> _].
      eapply Hext. reflexivity.
Qed.

Section Invariants.

Variable E : Env.
Variable self : Self.

Lemma wf_invariant tasks : invariant E self (wf tasks).
Proof.
  intros t p e p' ext (H1 & H2 & H3 & H4 & H5 & H6 & H7) Hfires.
  destruct (fires_weight E self _ _ _ _ _ H5 Hfires) as [Hok _].
  assert (Hin : forall i f, futures p !! i = Some f -> In (f_task f) tasks).
  { intros i f Hf. rewrite <- H1. apply in_or_app. left.
    eapply task_of_lookup. exact Hf. }
  unfold wf. split; [|split; [|split; [|split; [|split; [exact Hok|split]]]]].
  - unfold tasks_of, rest_of in *.
    fires_cases Hfires; pool_simpl; rewrite ?tasks_set_state;
      try rewrite Hpc in *; try exact H1.
    rewrite map_app, <- app_assoc. exact H1.
  - unfold tasks_of in *. rewrite submitted_app.
    fires_cases Hfires; pool_simpl; rewrite ?tasks_set_state;
      cbn [submitted]; rewrite ?app_nil_r; try exact H2.
    rewrite map_app, H2. reflexivity.
  - fires_cases Hfires; pool_simpl;
      rewrite ?length_set_state, ?length_app; cbn [length]; try lia.
    apply lookup_lt_Some in Hf. lia.
  - intros j g.
    fires_cases Hfires; pool_simpl; rewrite ?lookup_set_state;
      try (destruct (decide (i = j)) as [<-|Hne];
           [rewrite Hf; intros [= <-] Hle; cbn [f_state]|]);
      try (intros Hg Hle; apply (H4 _ _ Hg); lia);
      try reflexivity;
      try (pose proof (H4 _ _ Hf Hle) as Hw; rewrite Hst in Hw;
           discriminate Hw);
      try (exact (H4 _ _ Hf Hle));
      try lia.
    intros Hg Hle. apply lookup_app_Some in Hg as [Hg|[_ Hg]].
    + apply (H4 _ _ Hg Hle).
    + destruct (j - length (futures p)); [|destruct n; discriminate].
      injection Hg as <-. reflexivity.
  - apply Forall_app. split; [exact H6|].
    fires_cases Hfires; repeat constructor; cbn [batch_event];
      try (eapply Hin; eassumption).
    rewrite <- H1. apply in_or_app. right. unfold rest_of. rewrite Hpc.
    left. reflexivity.
  - apply submitted_before; [exact H7|].
    fires_cases Hfires; try (left; reflexivity); right; eexists;
      (split; [reflexivity|]); intros task' cwd' Heq; try discriminate Heq.
    injection Heq as <- <-. rewrite H2. eapply task_of_lookup. exact Hf.
Qed.

Lemma accounted_invariant : invariant E self (accounted E).
Proof.
  intros t p e p' ext (A1 & A2 & A3 & A4 & A5 & A6) Hfires.
  unfold accounted. split; [|split; [|split; [|split; [|split]]]].
  - rewrite started_app.
    fires_cases Hfires; pool_simpl; cbn [started]; rewrite ?app_nil_r;
      try exact A1;
      try (rewrite (tasks_where_same has_started i _ _ f Hf)
             by (rewrite Hst; reflexivity); exact A1).
    + pose proof (tasks_where_set_state has_started i (Running true) _ _ Hf)
        as HP.
      rewrite Hst in HP. cbn [has_started app] in HP.
      rewrite <- HP, <- Permutation_cons_append. constructor. exact A1.
    + rewrite tasks_where_app. cbn [tasks_where f_state has_started].
      rewrite app_nil_r. exact A1.
  - rewrite cancelled_app.
    fires_cases Hfires; pool_simpl; cbn [cancelled]; rewrite ?app_nil_r;
      try exact A2;
      try (rewrite (tasks_where_same was_cancelled i _ _ f Hf)
             by (rewrite Hst; reflexivity); exact A2).
    + rewrite tasks_where_app. cbn [tasks_where f_state was_cancelled].
      rewrite app_nil_r. exact A2.
    + pose proof (tasks_where_set_state was_cancelled i Cancelled _ _ Hf)
        as HP.
      rewrite Hst in HP. cbn [was_cancelled app] in HP.
      rewrite <- HP, <- Permutation_cons_append. constructor. exact A2.
  - intros g Hg Hfail.
    fires_cases Hfires; pool_simpl; try (exact (A3 g Hg Hfail));
      try (apply in_set_state in Hg as [Hg|(f' & Hf' & ->)];
           [exact (A3 g Hg Hfail)|]; cbn [f_state] in Hfail;
           try discriminate Hfail).
    + rewrite Hf in Hf'. injection Hf' as <-. exists t. exact Hspawn.
    + apply in_app_or in Hg as [Hg|[<-|[]]]; [exact (A3 g Hg Hfail)|].
      discriminate Hfail.
  - rewrite cancelled_app, printed_app. intros Hc.
    assert (Hcases : cancelled e = [] \/ exists i, pc p = Cancelling i).
    { fires_cases Hfires; eauto. }
    destruct Hcases as [He|(i & Hpc)].
    + rewrite He, app_nil_r in Hc. apply not_nil_app. auto.
    + apply not_nil_app. eapply A5. exact Hpc.
  - intros j Hpc'. rewrite printed_app.
    fires_cases Hfires; pool_simpl;
      try (apply not_nil_app; eapply A5; eassumption);
      try (rewrite Hpc in Hpc'; discriminate Hpc');
      try discriminate Hpc'.
    cbn [printed]. intros H. apply app_eq_nil in H as [_ H]. discriminate H.
  - intros x Hpc'. rewrite cancelled_app.
    fires_cases Hfires; pool_simpl;
      try (destruct (A6 _ Hpc') as [-> Hc]; split; [reflexivity|];
           apply not_nil_app; exact Hc);
      try (rewrite Hpc in Hpc'; discriminate Hpc');
      try discriminate Hpc'.
    injection Hpc' as <-. split; [reflexivity|]. apply not_nil_app.
    intros Hnil. rewrite Hnil in A2. apply Permutation_nil in A2.
    apply lookup_in in Hf.
    apply (tasks_where_in was_cancelled _ _ Hf); [rewrite Hst; reflexivity|].
    exact A2.
Qed.

(** When every task succeeds nothing is printed or cancelled, and the main
    thread stays in the loop. *)
Lemma healthy_invariant tasks :
  all_succeed E tasks ->
  invariant E self (fun p ext => wf tasks p ext /\ healthy p ext).
Proof.
  intros Hall t p e p' ext [Hwf (H1 & H2 & H3 & H4 & H5)] Hfires.
  split; [exact (wf_invariant tasks _ _ _ _ _ Hwf Hfires)|].
  destruct Hwf as (Htasks & _).
  assert (Hin : forall i f, futures p !! i = Some f -> In (f_task f) tasks).
  { intros i f Hf. rewrite <- Htasks. apply in_or_app. left.
    eapply task_of_lookup. exact Hf. }
  assert (Hgood : forall i f, futures p !! i = Some f ->
                              f_state f <> Cancelled
                              /\ f_state f <> CancelledNotified
                              /\ forall exc, f_state f <> Finished (Some exc)).
  { intros i f Hf. apply lookup_in in Hf.
    destruct (H2 f Hf) as [->|[[b ->]| ->]]; repeat split; congruence. }
  unfold healthy. rewrite printed_app, cancelled_app, exited_app, H3, H4.
  fires_cases Hfires; pool_simpl; cbn [printed cancelled exited app];
    try (destruct (Hgood _ _ Hf) as (Hg1 & Hg2 & Hg3); congruence);
    try (destruct (Hall t _ (Hin _ _ Hf)); congruence);
    try (destruct H1 as [H1|[? H1]]; congruence);
    rewrite ?app_nil_r.
  all: split; [eauto|]. 
  all: (split; [|split; [reflexivity|split; [reflexivity|]]]);
    try exact H5; try exact H2;
    try (apply Forall_app; split; [exact H5|repeat constructor]).
  all: intros g Hg;
    try (apply in_set_state in Hg as [Hg|(f' & Hf' & ->)];
         [exact (H2 g Hg)|cbn [f_state]; eauto]).
  apply in_app_or in Hg as [Hg|[<-|[]]]; [exact (H2 g Hg)|].
  left. reflexivity.
Qed.

Lemma lone_future (fs : list future) i f g :
  length fs <= 1 -> fs !! i = Some f -> In g fs -> g = f.
Proof.
  destruct fs as [|x [|y fs]]; cbn [length]; intros Hlen Hf Hg; try lia.
  - destruct i; discriminate.
  - destruct Hg as [<-|[]]. destruct i as [|i]; cbn in Hf; [congruence|].
    destruct i; discriminate.
Qed.

(** In the pool of one task nothing is ever cancelled, and the main thread
    never leaves the loop by an exception. *)
Lemma lone_invariant : invariant E self (fun p _ => lone p).
Proof.
  intros t p e p' ext (L1 & L2 & L3 & L4) Hfires.
  assert (Hidle : forall i j f, pc p = Cancelling j ->
                                futures p !! i = Some f ->
                                is_done (f_state f) = true).
  { intros i j f Hpc Hf. apply (L4 _ Hpc). eapply lookup_in. exact Hf. }
  unfold lone, rest_of in *.
  fires_cases Hfires; pool_simpl;
    try (pose proof (L3 f (lookup_in _ _ _ Hf)) as Hc; rewrite Hst in Hc;
         discriminate Hc);
    try (pose proof (Hidle _ _ _ Hpc Hf) as Hd; rewrite Hst in Hd;
         discriminate Hd);
    rewrite ?length_set_state, ?length_app; try rewrite Hpc in *;
    cbn [length] in *.
  all: split; [lia|]. all: split; [try exact L2; congruence|].
  all: split.
  all: try exact L3; try exact L4; try discriminate.
  all: try (intros g Hg;
            apply in_set_state in Hg as [Hg|(f' & Hf' & ->)];
            [exact (L3 g Hg)|reflexivity]).
  all: try (intros j Hpc' g Hg;
            apply in_set_state in Hg as [Hg|(f' & Hf' & ->)];
            [exact (L4 _ Hpc' g Hg)|];
            pose proof (Hidle _ _ _ Hpc' Hf) as Hd; rewrite Hst in Hd;
            discriminate Hd).
  - intros g Hg. apply in_app_or in Hg as [Hg|[<-|[]]];
      [exact (L3 g Hg)|reflexivity].
  - intros _ _ g Hg.
    assert (Hlen : length (futures p) <= 1) by lia.
    rewrite (lone_future _ _ _ _ Hlen Hf Hg), Hst. reflexivity.
  - intros j _ g Hg. eapply L4; [reflexivity|exact Hg].
Qed.

End Invariants.
(** ** What the runner guarantees in every schedule *)

Lemma wf_new_pool tasks : wf tasks (new_pool tasks) [].
Proof.
  unfold wf, new_pool, tasks_of, rest_of, pool_ok.
  cbn [futures next pc map app submitted length].
  repeat split; try lia.
  - intros i f Hf. destruct i; discriminate.
  - constructor.
  - intros [|x a] task cwd b H; discriminate.
Qed.

Lemma accounted_new_pool E tasks : accounted E (new_pool tasks) [].
Proof.
  unfold accounted, new_pool. cbn [futures pc started cancelled tasks_where].
  repeat split; try constructor; try discriminate; try congruence.
  intros f [].
Qed.

Lemma healthy_new_pool tasks : healthy (new_pool tasks) [].
Proof.
  unfold healthy, new_pool. cbn [futures pc printed cancelled exited].
  repeat split; eauto. intros f [].
Qed.

(** Once the main thread has left the list of line 29, every task has a
    future. *)
Lemma wf_all_submitted tasks p ext :
  wf tasks p ext -> (pc p = Waiting \/ exists e, pc p = Leaving e) ->
  tasks_of p = tasks /\ submitted ext = tasks.
Proof.
  intros (H1 & H2 & _) Hpc. unfold rest_of in H1.
  assert (Heq : tasks_of p = tasks).
  { destruct Hpc as [Hpc|[e Hpc]]; rewrite Hpc, app_nil_r in H1; exact H1. }
  split; [exact Heq|]. rewrite H2. exact Heq.
Qed.

Section LoneTask.

Variable E : Env.
Variable self : Self.

(** A batch of one task comes back normally whatever the task, the world
    and the scheduler do: a failure is printed, never raised. *)
Lemma lone_task_returns task t :
  (0 < max_jobs (args self))%Z ->
  (_run_tasks_parallel E self [task] t).1 = Ret tt.
Proof.
  intros HW.
  destruct (runner_runs E self (fun p _ => lone p) [task] t HW
              (lone_invariant E self))
    as (ext & p & -> & (_ & Hpc & _) & _).
  - unfold lone, new_pool, rest_of. cbn [futures pc length].
    repeat split; try lia; try discriminate. intros f [].
  - cbn [fst]. destruct (pc p) as [| | |e] eqn:Hp; try reflexivity.
    destruct (Hpc e eq_refl).
Qed.

End LoneTask.

(** C1, at the failing input: one table whose only ingestion task exits
    with 1.  Whatever the scheduler does the runner returns normally, and
    the run goes on: the index file is applied, VACUUM and ANALYZE are run,
    and the pipeline ends without an exception. *)
Theorem failed_ingest_task_is_ignored :
  let K := Sample.plugin ["lineitem"] (fun _ => "false") in
  let E := Sample.world Sample.schema_files GiB Sample.exit_of (fun _ => 0) in
  let self := Sample.factory_unchecked "psql_native" 1 in
  (forall pick t,
     (_run_tasks_parallel
        (Sample.world Sample.schema_files GiB Sample.exit_of pick)
        self ["false"] t).1 = Ret tt)
  /\ run K E self []
     = (Ret tt,
        [Print "Preparing DB"]
        ++ bootstrap_steps self "postgresql://localhost:5432/postgres"
             "bench" "CREATE TABLE t (a int);"
        ++ [Print "Ingesting data";
            PoolOpen 2;
            Submit "false";
            Popen "false" "/opt/tpch";
            Exited "false" 1;
            Print ("Task threw an exception: " +:+ exit_message);
            PoolShutdown;
            Print "Adding indices"]
        ++ sql_file_block E self "indexes.sql"
        ++ [Print "VACUUM-ANALYZE";
            Popen (vacuum_task self) "/opt/tpch";
            Exited (vacuum_task self) 0;
            PoolOpen 2;
            Submit (analyze_task self "lineitem");
            Popen (analyze_task self "lineitem") "/opt/tpch";
            Exited (analyze_task self "lineitem") 0;
            PoolShutdown]).
Proof.
  cbv zeta. split.
  - intros pick t. apply lone_task_returns. reflexivity.
  - vm_compute. reflexivity.
Qed.

(** With one worker and the main thread served first, the failure of the
    first of three tasks is seen while the other two are pending: they are
    cancelled, and the first cancelled future that [as_completed] yields
    makes [exception()] raise [CancelledError] out of the runner. *)
Example cancelled_future_raises :
  _run_tasks_parallel Scenario.main_first Scenario.serial
    Scenario.failing_batch []
  = (Raise CancelledError,
     [PoolOpen 1; Submit "false"; Submit "load a"; Submit "load b";
      Popen "false" "/opt/tpch"; Exited "false" 1;
      Print ("Task threw an exception: " +:+ exit_message);
      Cancel "load a"; Cancel "load b"; PoolShutdown]).
Proof. vm_compute. reflexivity. Qed.

(** With the workers served first, the process of a task runs, and ends,
    while the main thread has not yet submitted the next task. *)
Example workers_run_during_submission :
  _run_tasks_parallel Scenario.calm Scenario.unchecked Scenario.good_batch []
  = (Ret tt,
     [PoolOpen 2; Submit "load a"; Popen "load a" "/opt/tpch";
      Exited "load a" 0; Submit "load b"; Popen "load b" "/opt/tpch";
      Exited "load b" 0; PoolShutdown]).
Proof. vm_compute. reflexivity. Qed.

(** Two workers that hold a work item each race for the start of their
    processes: the task submitted last can be started first. *)
Example workers_race :
  _run_tasks_parallel Scenario.racing Scenario.unchecked Scenario.good_batch []
  = (Ret tt,
     [PoolOpen 2; Submit "load a"; Submit "load b";
      Popen "load b" "/opt/tpch"; Popen "load a" "/opt/tpch";
      Exited "load b" 0; Exited "load a" 0; PoolShutdown]).
Proof. vm_compute. reflexivity. Qed.

Section RunnerGuarantees.

Variable E : Env.
Variable self : Self.
Variable tasks : list string.

Hypothesis workers : (0 < max_jobs (args self))%Z.

(** The runner with what holds of its pool in every schedule. *)
Lemma runner_facts t :
  exists ext p,
    _run_tasks_parallel E self tasks t
    = (match pc p with Leaving e => Raise e | _ => Ret tt end,
       t ++ PoolOpen (max_jobs (args self)) :: ext ++ [PoolShutdown])
    /\ wf tasks p ext /\ accounted E p ext
    /\ (all_succeed E tasks -> healthy p ext)
    /\ (forall f, In f (futures p) -> is_done (f_state f) = true)
    /\ (pc p = Waiting \/ exists e, pc p = Leaving e)
    /\ tasks_of p = tasks /\ submitted ext = tasks.
Proof.
  destruct (runner_runs E self
              (fun p ext => wf tasks p ext /\ accounted E p ext
                            /\ (all_succeed E tasks -> healthy p ext))
              tasks t workers)
    as (ext & p & Hrun & (Hwf & Hacc & Hh) & Hdone & Hpc).
  - intros t0 p e p' ext (Hwf & Hacc & Hh) Hfires.
    split; [exact (wf_invariant E self tasks _ _ _ _ _ Hwf Hfires)|].
    split; [exact (accounted_invariant E self _ _ _ _ _ Hacc Hfires)|].
    intros Hall.
    exact (proj2 (healthy_invariant E self tasks Hall _ _ _ _ _
                    (conj Hwf (Hh Hall)) Hfires)).
  - split; [apply wf_new_pool|]. split; [apply accounted_new_pool|].
    intros _. apply healthy_new_pool.
  - destruct (wf_all_submitted _ _ _ Hwf Hpc) as [Htasks Hsub].
    exists ext, p. auto 10.
Qed.

(** When every task succeeds: the runner returns, every task was started
    once, and nothing was cancelled or printed. *)
Lemma runner_success ext p :
  accounted E p ext -> healthy p ext ->
  (forall f, In f (futures p) -> is_done (f_state f) = true) ->
  tasks_of p = tasks ->
  (forall e, pc p <> Leaving e)
  /\ Permutation (started ext) tasks
  /\ Forall (fun x => x.2 = 0%Z) (exited ext)
  /\ cancelled ext = []
  /\ printed ext = [].
Proof.
  intros (Hst & _) (Hmain & Hstates & Hprinted & Hcancelled & Hexits)
    Hdone Htasks.
  split; [destruct Hmain as [->|[rest ->]]; discriminate|].
  repeat split; try assumption.
  rewrite Hst, <- Htasks. unfold tasks_of.
  rewrite tasks_where_all; [reflexivity|].
  intros f Hf. pose proof (Hdone f Hf) as Hd.
  destruct (Hstates f Hf) as [H|[[b H]|H]]; rewrite H in *;
    try discriminate Hd. reflexivity.
Qed.

(** X1: with a positive [max_jobs], whatever the tasks and the scheduler
    do, the runner opens one pool with that bound first and shuts it down
    last; in between it submits every task once, in the given order,
    starts a process only for a task it has submitted before, and for the
    rest only awaits or cancels tasks of this batch and prints failures;
    it either returns or raises [CancelledError]. *)
Theorem runner_shape t :
  exists ext,
    (_run_tasks_parallel E self tasks t).2
    = t ++ PoolOpen (max_jobs (args self)) :: ext ++ [PoolShutdown]
    /\ submitted ext = tasks
    /\ Forall (batch_event tasks) ext
    /\ (forall a task cwd b, ext = a ++ Popen task cwd :: b ->
                             In task (submitted a))
    /\ ((_run_tasks_parallel E self tasks t).1 = Ret tt
        \/ (_run_tasks_parallel E self tasks t).1 = Raise CancelledError).
Proof.
  destruct (runner_facts t)
    as (ext & p & -> & Hwf & Hacc & _ & _ & Hpc & _ & Hsub).
  destruct Hwf as (_ & _ & _ & _ & _ & Hbatch & Hbefore).
  destruct Hacc as (_ & _ & _ & _ & _ & Hleave).
  exists ext. cbn [fst snd]. repeat split; try assumption.
  destruct (pc p) as [| | |e] eqn:Hp; auto.
  destruct (Hleave e eq_refl) as [-> _]. auto.
Qed.

(** X2: every process started and every future cancelled belongs to a
    task of the batch of its own: together with the tasks for which no
    process could be started they are the batch, task for task.  So no
    task is started twice, or started and cancelled, unless the batch
    names it twice; and when every process can be started, each task is
    started once or cancelled once. *)
Theorem runner_conserves_tasks t :
  exists ext unstarted,
    (_run_tasks_parallel E self tasks t).2
    = t ++ PoolOpen (max_jobs (args self)) :: ext ++ [PoolShutdown]
    /\ Permutation (started ext ++ cancelled ext ++ unstarted) tasks
    /\ (forall task, In task unstarted ->
                     exists t', spawn_ok E t' task = false)
    /\ (List.NoDup tasks -> List.NoDup (started ext ++ cancelled ext))
    /\ ((forall t' task, In task tasks -> spawn_ok E t' task = true) ->
        Permutation (started ext ++ cancelled ext) tasks).
Proof.
  destruct (runner_facts t)
    as (ext & p & -> & Hwf & Hacc & _ & Hdone & _ & Htasks & _).
  destruct Hacc as (Hst & Hca & Hfail & _).
  pose proof (tasks_where_done _ Hdone) as Hall.
  fold (tasks_of p) in Hall. rewrite Htasks, <- Hst, <- Hca in Hall.
  assert (Hun : forall task, In task (tasks_where spawn_failed (futures p)) ->
                             exists t', spawn_ok E t' task = false).
  { intros task Hin.
    apply tasks_where_elim in Hin as (f & Hf & Hsf & <-).
    exact (Hfail f Hf Hsf). }
  exists ext, (tasks_where spawn_failed (futures p)). cbn [snd].
  split; [reflexivity|]. split; [exact Hall|]. split; [exact Hun|]. split.
  - intros Hnd. symmetry in Hall.
    apply (Permutation_NoDup Hall) in Hnd.
    rewrite app_assoc in Hnd. apply NoDup_app_remove_r in Hnd. exact Hnd.
  - intros Hspawn.
    destruct (tasks_where spawn_failed (futures p)) as [|task rest] eqn:Hsf.
    + rewrite !app_nil_r in Hall. exact Hall.
    + destruct (Hun task (or_introl eq_refl)) as [t' Ht'].
      rewrite Hspawn in Ht'; [discriminate|].
      apply (Permutation_in task Hall), in_or_app. right.
      apply in_or_app. right. left. reflexivity.
Qed.

(** X3: the runner raises only after the failure of a task was printed and
    a future was cancelled that had not begun to run; what it raises then
    is [CancelledError], not the error of the task. *)
Theorem runner_raises_after_cancel t e :
  (_run_tasks_parallel E self tasks t).1 = Raise e ->
  e = CancelledError
  /\ exists ext,
       (_run_tasks_parallel E self tasks t).2
       = t ++ PoolOpen (max_jobs (args self)) :: ext ++ [PoolShutdown]
       /\ submitted ext = tasks
       /\ cancelled ext <> []
       /\ printed ext <> [].
Proof.
  destruct (runner_facts t)
    as (ext & p & -> & Hwf & Hacc & _ & _ & _ & _ & Hsub).
  destruct Hacc as (_ & _ & _ & Hprinted & _ & Hleave).
  cbn [fst snd]. destruct (pc p) as [| | |e'] eqn:Hp; try discriminate.
  intros [= <-]. destruct (Hleave e' eq_refl) as [-> Hc].
  split; [reflexivity|]. exists ext. auto.
Qed.

(** X4: when every task of the batch can be started and exits with 0, the
    runner returns normally under every schedule: every task was submitted
    and then started exactly once, in whatever order the workers came to
    it, every exit code seen was 0, nothing was cancelled and nothing was
    printed. *)
Theorem runner_all_succeed t :
  all_succeed E tasks ->
  exists ext,
    _run_tasks_parallel E self tasks t
    = (Ret tt,
       t ++ PoolOpen (max_jobs (args self)) :: ext ++ [PoolShutdown])
    /\ submitted ext = tasks
    /\ Permutation (started ext) tasks
    /\ Forall (fun x => x.2 = 0%Z) (exited ext)
    /\ cancelled ext = []
    /\ printed ext = [].
Proof.
  intros Hall.
  destruct (runner_facts t)
    as (ext & p & Hrun & _ & Hacc & Hh & Hdone & _ & Htasks & Hsub).
  destruct (runner_success ext p Hacc (Hh Hall) Hdone Htasks)
    as (Hpc & Hst & Hex & Hca & Hpr).
  exists ext. split; [|auto].
  rewrite Hrun. destruct (pc p) as [| | |e] eqn:Hp; try reflexivity.
  destruct (Hpc e eq_refl).
Qed.

End RunnerGuarantees.

Lemma runner_shape_witness :
  exists ext,
    (_run_tasks_parallel Scenario.main_first Scenario.serial
       Scenario.failing_batch []).2
    = [] ++ PoolOpen (max_jobs (args Scenario.serial))
         :: ext ++ [PoolShutdown]
    /\ submitted ext = Scenario.failing_batch
    /\ Forall (batch_event Scenario.failing_batch) ext
    /\ (forall a task cwd b, ext = a ++ Popen task cwd :: b ->
                             In task (submitted a))
    /\ ((_run_tasks_parallel Scenario.main_first Scenario.serial
           Scenario.failing_batch []).1 = Ret tt
        \/ (_run_tasks_parallel Scenario.main_first Scenario.serial
              Scenario.failing_batch []).1 = Raise CancelledError).
Proof.
  exact (runner_shape Scenario.main_first Scenario.serial
           Scenario.failing_batch eq_refl []).
Defined.

Lemma runner_conserves_tasks_witness :
  exists ext unstarted,
    (_run_tasks_parallel Scenario.main_first Scenario.serial
       Scenario.failing_batch []).2
    = [] ++ PoolOpen (max_jobs (args Scenario.serial))
         :: ext ++ [PoolShutdown]
    /\ Permutation (started ext ++ cancelled ext ++ unstarted)
         Scenario.failing_batch
    /\ (forall task, In task unstarted ->
                     exists t', spawn_ok Scenario.main_first t' task = false)
    /\ (List.NoDup Scenario.failing_batch ->
        List.NoDup (started ext ++ cancelled ext))
    /\ ((forall t' task, In task Scenario.failing_batch ->
                         spawn_ok Scenario.main_first t' task = true) ->
        Permutation (started ext ++ cancelled ext) Scenario.failing_batch).
Proof.
  exact (runner_conserves_tasks Scenario.main_first Scenario.serial
           Scenario.failing_batch eq_refl []).
Defined.

Lemma runner_raises_after_cancel_witness :
  CancelledError = CancelledError
  /\ exists ext,
       (_run_tasks_parallel Scenario.main_first Scenario.serial
          Scenario.failing_batch []).2
       = [] ++ PoolOpen (max_jobs (args Scenario.serial))
            :: ext ++ [PoolShutdown]
       /\ submitted ext = Scenario.failing_batch
       /\ cancelled ext <> []
       /\ printed ext <> [].
Proof.
  apply (runner_raises_after_cancel Scenario.main_first Scenario.serial
           Scenario.failing_batch eq_refl [] CancelledError).
  vm_compute. reflexivity.
Defined.

Lemma runner_all_succeed_witness :
  exists ext,
    _run_tasks_parallel Scenario.racing Scenario.unchecked
      Scenario.good_batch []
    = (Ret tt,
       [] ++ PoolOpen (max_jobs (args Scenario.unchecked))
          :: ext ++ [PoolShutdown])
    /\ submitted ext = Scenario.good_batch
    /\ Permutation (started ext) Scenario.good_batch
    /\ Forall (fun x => x.2 = 0%Z) (exited ext)
    /\ cancelled ext = []
    /\ printed ext = [].
Proof.
  apply (runner_all_succeed Scenario.racing Scenario.unchecked
           Scenario.good_batch eq_refl []).
  intros t task [<-|[<-|[]]]; split; reflexivity.
Defined.
(** ** Ingestion *)

Section Ingestion.

Variable K : Class.
Variable E : Env.
Variable self : Self.

(** [run], stage by stage. *)
Lemma run_stages t :
  run K E self t
  = (before_ingest K E self ;;
     print "Ingesting data" ;;
     ingest_tasks <- gather_ingest_tasks K (TABLES K) [] ;;
     _run_tasks_parallel E self ingest_tasks ;;
     after_ingest K E self)%py t.
Proof.
  unfold run, before_ingest, after_ingest.
  unfold bind.
  match goal with |- context [?m t] =>
    match type of m with M unit => destruct (m t) as [[u|e] t1] end end;
    [|reflexivity].
  cbv beta iota delta [print emit].
  destruct (prepare_db E self (t1 ++ [Print "Preparing DB"])) as [[u'|e] t2];
    reflexivity.
Qed.

Lemma before_ingest_quiet :
  emits (fun e => ~ dispatch e) (before_ingest K E self).
Proof.
  unfold before_ingest, _check_diskspace, prepare_db, getitem, disk_usage,
    with_DBConn, execute, read_file, print, assert.
  repeat emits_step.
Qed.

Lemma gather_silent tables acc t :
  (gather_ingest_tasks K tables acc t).2 = t.
Proof.
  revert acc. induction tables as [|table tables IH]; intros acc;
    cbn [gather_ingest_tasks]; [reflexivity|].
  unfold bind, assert. destruct (isinstance_list _); [apply IH|reflexivity].
Qed.

Lemma gather_not_list tables acc t :
  (exists table, In table tables
                 /\ isinstance_list (get_ingest_tasks K table) = false) ->
  (gather_ingest_tasks K tables acc t).1
  = Raise (AssertionError "Returned object is not a list").
Proof.
  revert acc. induction tables as [|table tables IH];
    intros acc (bad & Hin & Hbad).
  - destruct Hin.
  - cbn [gather_ingest_tasks]. unfold bind, assert.
    destruct (isinstance_list (get_ingest_tasks K table)) eqn:Hl;
      [|reflexivity].
    apply IH. exists bad. destruct Hin as [->|Hin]; [congruence|auto].
Qed.

(** The loop of lines 70-73 appends the answers, table by table. *)
Lemma gather_lists (answers : string -> list string) tables acc t :
  (forall table, In table tables ->
                 get_ingest_tasks K table = PyList (answers table)) ->
  gather_ingest_tasks K tables acc t
  = (Ret (acc ++ concat (map answers tables)), t).
Proof.
  revert acc. induction tables as [|table tables IH]; intros acc Hall;
    cbn [gather_ingest_tasks map concat].
  - rewrite app_nil_r. reflexivity.
  - unfold bind, assert. rewrite (Hall table) by (left; reflexivity).
    cbn [isinstance_list ret list_items].
    rewrite IH by (intros; apply Hall; right; assumption).
    rewrite app_assoc. reflexivity.
Qed.

Lemma gather_returns tables acc t :
  (forall table, In table tables ->
                 isinstance_list (get_ingest_tasks K table) = true) ->
  exists tasks, gather_ingest_tasks K tables acc t = (Ret tasks, t).
Proof.
  revert acc. induction tables as [|table tables IH]; intros acc Hall;
    cbn [gather_ingest_tasks].
  - eexists. reflexivity.
  - unfold bind, assert. rewrite (Hall table) by (left; reflexivity).
    cbn [ret]. apply IH. intros; apply Hall; right; assumption.
Qed.

(** C6: when the answer for some table is not a list the run fails, with
    the assertion of line 72 unless an earlier stage failed, and nothing is
    submitted to a pool or started.  When the plugin answers every table
    with a list, the run calls the runner once for ingestion, on the
    answers for all tables joined in the order of [TABLES]; the runner
    announces the bound [max_jobs] and submits exactly these tasks, each
    once and in that order. *)
Theorem ingestion_batch t :
  ((exists table, In table (TABLES K)
                  /\ isinstance_list (get_ingest_tasks K table) = false) ->
   failed (run K E self t).1 = true
   /\ ((before_ingest K E self t).1 = Ret tt ->
       (run K E self t).1
       = Raise (AssertionError "Returned object is not a list"))
   /\ exists ext, (run K E self t).2 = t ++ ext
                  /\ Forall (fun e => ~ dispatch e) ext)
  /\ (forall answers : string -> list string,
        (forall table, In table (TABLES K) ->
                       get_ingest_tasks K table = PyList (answers table)) ->
        run K E self t
        = (before_ingest K E self ;;
           print "Ingesting data" ;;
           _run_tasks_parallel E self (concat (map answers (TABLES K))) ;;
           after_ingest K E self)%py t
        /\ ((0 < max_jobs (args self))%Z ->
            forall t1, exists ext,
              (_run_tasks_parallel E self
                 (concat (map answers (TABLES K))) t1).2
              = t1 ++ PoolOpen (max_jobs (args self))
                   :: ext ++ [PoolShutdown]
              /\ submitted ext = concat (map answers (TABLES K))
              /\ Forall (batch_event (concat (map answers (TABLES K))))
                   ext)).
Proof.
  split.
  - intros Hbad. rewrite run_stages.
    rewrite (bind_eq (before_ingest K E self)).
    destruct (before_ingest_quiet t) as (ext & Hext & Hquiet).
    destruct (before_ingest K E self t) as [[u|e] t1]; cbn [snd] in Hext;
      subst t1.
    + rewrite (bind_eq (print "Ingesting data")). unfold print, emit.
      rewrite (bind_eq (gather_ingest_tasks K (TABLES K) [])).
      pose proof (gather_not_list (TABLES K) []
                    ((t ++ ext) ++ [Print "Ingesting data"]) Hbad) as Hr.
      pose proof (gather_silent (TABLES K) []
                    ((t ++ ext) ++ [Print "Ingesting data"])) as Ht.
      destruct (gather_ingest_tasks K (TABLES K) [] _) as [r t2].
      cbn [fst snd] in Hr, Ht. subst r t2. split; [reflexivity|].
      split; [reflexivity|].
      exists (ext ++ [Print "Ingesting data"]). cbn [snd].
      rewrite app_assoc. split; [reflexivity|].
      apply Forall_app. split; [exact Hquiet|].
      repeat constructor. intros H. exact H.
    + split; [reflexivity|]. split; [discriminate|].
      exists ext. split; [reflexivity|exact Hquiet].
  - intros answers Hall. split.
    + rewrite run_stages. rewrite !(bind_eq (before_ingest K E self)).
      destruct (before_ingest K E self t) as [[u|e] t1]; [|reflexivity].
      rewrite !(bind_eq (print "Ingesting data")). unfold print, emit.
      rewrite (bind_eq (gather_ingest_tasks K (TABLES K) [])).
      rewrite (gather_lists answers _ _ _ Hall). reflexivity.
    + intros HW t1.
      destruct (runner_facts E self (concat (map answers (TABLES K))) HW t1)
        as (ext & p & -> & Hwf & _ & _ & _ & _ & _ & Hsub).
      destruct Hwf as (_ & _ & _ & _ & _ & Hbatch & _).
      exists ext. auto.
Qed.

End Ingestion.

Lemma ingestion_batch_witness :
  run Scenario.two_tables Scenario.smooth Scenario.unchecked []
  = (before_ingest Scenario.two_tables Scenario.smooth Scenario.unchecked ;;
     print "Ingesting data" ;;
     _run_tasks_parallel Scenario.smooth Scenario.unchecked
       ["load lineitem"; "load orders"] ;;
     after_ingest Scenario.two_tables Scenario.smooth Scenario.unchecked)%py
      []
  /\ exists ext,
       (_run_tasks_parallel Scenario.smooth Scenario.unchecked
          ["load lineitem"; "load orders"] []).2
       = [] ++ PoolOpen 2 :: ext ++ [PoolShutdown]
       /\ submitted ext = ["load lineitem"; "load orders"]
       /\ Forall (batch_event ["load lineitem"; "load orders"]) ext.
Proof.
  destruct (ingestion_batch Scenario.two_tables Scenario.smooth
              Scenario.unchecked []) as [_ H].
  destruct (H (fun table => ["load " +:+ table])) as [Hrun Hpool].
  - intros table _. reflexivity.
  - split; [exact Hrun|]. exact (Hpool eq_refl []).
Defined.

(** A plugin that answers [None] for its table stops the run after the
    bootstrap, with nothing submitted. *)
Example run_rejects_non_list :
  run {| TABLES := ["lineitem"]; SIZING_FACTORS := ∅;
         get_ingest_tasks := fun _ => PyNone |}
    (Sample.world Sample.schema_files GiB Sample.exit_of (fun _ => 0))
    (Sample.factory_unchecked "psql_native" 1) []
  = (Raise (AssertionError "Returned object is not a list"),
     [Print "Preparing DB"]
     ++ bootstrap_steps (Sample.factory_unchecked "psql_native" 1)
          "postgresql://localhost:5432/postgres" "bench"
          "CREATE TABLE t (a int);"
     ++ [Print "Ingesting data"]).
Proof. vm_compute. reflexivity. Qed.

(** ** Statistics *)

Section Statistics.

Variable K : Class.
Variable E : Env.
Variable self : Self.

Lemma vacuum_not_analyze table : vacuum_task self <> analyze_task self table.
Proof.
  unfold vacuum_task, analyze_task. intros H.
  repeat apply String.app_inj in H. discriminate H.
Qed.

(** C7: the stage starts one process, [psql <dsn> -c "VACUUM"], in the
    main thread and waits for its exit before anything else happens; when
    it cannot be started or does not exit with 0 the stage ends there.
    After exit 0 one pool is opened with the bound [max_jobs], and what is
    submitted to it is [psql <dsn> -c "ANALYZE <table>"] for each entry of
    [TABLES], once and in that order; the pool starts no process but
    these, so no second VACUUM; and when all of them succeed the stage
    returns with each of them started exactly once and none cancelled. *)
Theorem vacuum_then_analyze t :
  (0 < max_jobs (args self))%Z ->
  let quote := String "034"%char EmptyString in
  let vacuum :=
    "psql " +:+ dsn (args self) +:+ " -c " +:+ quote +:+ "VACUUM" +:+ quote in
  let analyze := fun table =>
    "psql " +:+ dsn (args self) +:+ " -c " +:+ quote
    +:+ "ANALYZE " +:+ table +:+ quote in
  let cwd := base_dir (benchmark self) in
  let rc := exit_code E (t ++ [Popen vacuum cwd]) vacuum in
  let t1 := t ++ [Popen vacuum cwd; Exited vacuum rc] in
  (spawn_ok E t vacuum = false ->
   vacuum_analyze K E self t = (Raise (OSError vacuum), t))
  /\ (spawn_ok E t vacuum = true -> rc <> 0%Z ->
      vacuum_analyze K E self t = (Raise (AssertionError exit_message), t1))
  /\ (spawn_ok E t vacuum = true -> rc = 0%Z ->
      exists ext,
        (vacuum_analyze K E self t).2
        = t1 ++ PoolOpen (max_jobs (args self)) :: ext ++ [PoolShutdown]
        /\ submitted ext = map analyze (TABLES K)
        /\ Forall (batch_event (map analyze (TABLES K))) ext
        /\ ~ In vacuum (started ext)
        /\ (all_succeed E (map analyze (TABLES K)) ->
            (vacuum_analyze K E self t).1 = Ret tt
            /\ Permutation (started ext) (map analyze (TABLES K))
            /\ cancelled ext = [])).
Proof.
  intros HW quote vacuum analyze cwd rc t1.
  change vacuum with (vacuum_task self) in *.
  change analyze with (analyze_task self) in *.
  assert (Hvac : spawn_ok E t (vacuum_task self) = true ->
                 _run_shell_task E self (vacuum_task self) t
                 = (if (rc =? 0)%Z then Ret tt
                    else Raise (AssertionError exit_message), t1)).
  { intros Hspawn. unfold _run_shell_task, popen, wait. unfold_m.
    rewrite Hspawn. fold cwd. fold rc. unfold t1. rewrite <- app_assoc.
    destruct (rc =? 0)%Z; reflexivity. }
  unfold vacuum_analyze. rewrite bind_eq. split; [|split].
  - intros Hspawn. unfold _run_shell_task, popen. unfold_m.
    rewrite Hspawn. reflexivity.
  - intros Hspawn Hrc. rewrite (Hvac Hspawn). apply Z.eqb_neq in Hrc.
    rewrite Hrc. reflexivity.
  - intros Hspawn Hrc. rewrite (Hvac Hspawn), (proj2 (Z.eqb_eq _ _) Hrc).
    destruct (runner_facts E self (map (analyze_task self) (TABLES K)) HW t1)
      as (ext & p & -> & Hwf & Hacc & Hh & Hdone & _ & Htasks & Hsub).
    destruct Hwf as (_ & _ & _ & _ & _ & Hbatch & _).
    exists ext. cbn [fst snd].
    split; [reflexivity|]. split; [exact Hsub|]. split; [exact Hbatch|].
    split.
    + intros Hin. apply started_in in Hin as [cwd' Hin].
      rewrite Forall_forall in Hbatch.
      apply list_elem_of_In, Hbatch in Hin.
      cbn [batch_event] in Hin.
      apply in_map_iff in Hin as (table & Heq & _).
      symmetry in Heq. exact (vacuum_not_analyze table Heq).
    + intros Hall.
      destruct (runner_success E _ ext p Hacc (Hh Hall) Hdone Htasks)
        as (Hpc & Hst & _ & Hca & _).
      split; [|auto].
      destruct (pc p) as [| | |e] eqn:Hp; try reflexivity.
      destruct (Hpc e eq_refl).
Qed.

End Statistics.

Lemma vacuum_then_analyze_witness :
  let vacuum :=
    "psql postgresql://localhost:5432/bench -c " +:+ dq +:+ "VACUUM" +:+ dq in
  let analyze_lineitem :=
    "psql postgresql://localhost:5432/bench -c " +:+ dq
    +:+ "ANALYZE lineitem" +:+ dq in
  let analyze_orders :=
    "psql postgresql://localhost:5432/bench -c " +:+ dq
    +:+ "ANALYZE orders" +:+ dq in
  exists ext,
    (vacuum_analyze Scenario.two_tables Scenario.racing Scenario.unchecked
       []).2
    = ([] ++ [Popen vacuum "/opt/tpch"; Exited vacuum 0])
      ++ PoolOpen 2 :: ext ++ [PoolShutdown]
    /\ submitted ext = [analyze_lineitem; analyze_orders]
    /\ Permutation (started ext) [analyze_lineitem; analyze_orders].
Proof.
  destruct (vacuum_then_analyze Scenario.two_tables Scenario.racing
              Scenario.unchecked [] eq_refl) as (_ & _ & H).
  destruct (H eq_refl eq_refl) as (ext & Htrace & Hsub & _ & _ & Hall).
  exists ext. split; [exact Htrace|]. split; [exact Hsub|].
  apply Hall. intros t task [<-|[<-|[]]]; split; reflexivity.
Defined.
(** ** The pipeline as a whole *)

Section Pipeline.

Variable K : Class.
Variable E : Env.
Variable self : Self.

Lemma check_diskspace_emits dir :
  emits preflight_event (_check_diskspace K E self dir).
Proof.
  unfold _check_diskspace, getitem, disk_usage, print, assert.
  repeat emits_step.
Qed.

(** X5: when the disk-space check raises, [run] ends with that exception
    and the trace of the check: only lines were printed and the free space
    was asked for, no connection was opened and no process started. *)
Theorem run_stops_at_preflight dir t e t' :
  check_diskspace_of_directory (args self) = Some dir ->
  dir <> EmptyString ->
  _check_diskspace K E self dir t = (Raise e, t') ->
  run K E self t = (Raise e, t')
  /\ exists ext, t' = t ++ ext /\ Forall preflight_event ext.
Proof.
  intros Hdir Hne Hcheck. split.
  - unfold run. rewrite Hdir. destruct dir as [|c dir]; [done|].
    rewrite bind_eq, Hcheck. reflexivity.
  - destruct (check_diskspace_emits dir t) as (ext & Hext & Hev).
    rewrite Hcheck in Hext. exists ext. auto.
Qed.

Lemma run_unchecked t :
  (check_diskspace_of_directory (args self) = None
   \/ check_diskspace_of_directory (args self) = Some EmptyString) ->
  run K E self t
  = (prepare_db E self ;;
     print "Ingesting data" ;;
     ingest_tasks <- gather_ingest_tasks K (TABLES K) [] ;;
     _run_tasks_parallel E self ingest_tasks ;;
     after_ingest K E self)%py (t ++ [Print "Preparing DB"]).
Proof.
  intros Hdir. unfold run, after_ingest.
  destruct Hdir as [-> | ->]; reflexivity.
Qed.

(** X6: without a directory to check, given as nothing or as the empty
    string, [run] starts with the bootstrap, and when the bootstrap raises
    [run] ends with that exception: nothing was submitted or started. *)
Theorem run_stops_at_bootstrap t e t' :
  (check_diskspace_of_directory (args self) = None
   \/ check_diskspace_of_directory (args self) = Some EmptyString) ->
  prepare_db E self (t ++ [Print "Preparing DB"]) = (Raise e, t') ->
  run K E self t = (Raise e, t')
  /\ exists ext, t' = t ++ ext /\ Forall (fun ev => ~ dispatch ev) ext.
Proof.
  intros Hdir Hdb. rewrite (run_unchecked _ Hdir), bind_eq, Hdb.
  split; [reflexivity|].
  destruct (before_ingest_quiet K E self t) as (ext & Hext & Hq).
  assert (Hb : before_ingest K E self t = (Raise e, t')).
  { unfold before_ingest.
    destruct Hdir as [-> | ->]; unfold_m; rewrite Hdb; reflexivity. }
  rewrite Hb in Hext. exists ext. auto.
Qed.

Lemma add_indexes_steps t :
  (forall t d, connect_ok E t d = true) ->
  (forall t s, execute_ok E t s = true) ->
  add_indexes E self t = (Ret tt, t ++ index_steps E self).
Proof.
  intros Hc He. unfold add_indexes, sql_files, index_steps.
  cbn [for_each]. unfold bind.
  rewrite !(apply_sql_file_trace E self Hc He). unfold ret.
  rewrite <- !app_assoc. reflexivity.
Qed.

Lemma run_shell_task_ok task t :
  spawn_ok E t task = true ->
  exit_code E (t ++ [Popen task (base_dir (benchmark self))]) task = 0%Z ->
  _run_shell_task E self task t
  = (Ret tt,
     t ++ [Popen task (base_dir (benchmark self)); Exited task 0]).
Proof.
  intros Hs Hx. unfold _run_shell_task, popen, wait. unfold_m.
  rewrite Hs, Hx. cbn [Z.eqb]. rewrite <- app_assoc. reflexivity.
Qed.

(** X7: in a world where every connection, statement and process
    succeeds, with a descriptor that parses, its network location in
    ASCII, and a plugin that answers with lists, a run without disk-space
    check ends normally after the four stages in their order: the
    bootstrap; one pool to which the answers of
    the plugin are submitted in order and in which each of them is started
    exactly once; the index files; then VACUUM and one pool to which the
    ANALYZE commands are submitted in the order of [TABLES] and in which
    each of them is started exactly once. *)
Theorem run_succeeds dsn_url schema_sql (answers : string -> list string) t :
  (check_diskspace_of_directory (args self) = None
   \/ check_diskspace_of_directory (args self) = Some EmptyString) ->
  cooperative E ->
  (0 < max_jobs (args self))%Z ->
  Py.urlparse (dsn (args self)) = Py.Parsed dsn_url ->
  Py.all Py.is_ascii (Py.netloc dsn_url) = true ->
  file E (Py.join (schema_dir self) ["schema.sql"]) = Some schema_sql ->
  (forall table, In table (TABLES K) ->
                 get_ingest_tasks K table = PyList (answers table)) ->
  exists ingest_ext analyze_ext,
    run K E self t
    = (Ret tt,
       t ++ [Print "Preparing DB"]
         ++ bootstrap_steps self (admin_dsn dsn_url) (dbname_of dsn_url)
              schema_sql
         ++ [Print "Ingesting data"; PoolOpen (max_jobs (args self))]
         ++ ingest_ext
         ++ [PoolShutdown; Print "Adding indices"]
         ++ index_steps E self
         ++ [Print "VACUUM-ANALYZE";
             Popen (vacuum_task self) (base_dir (benchmark self));
             Exited (vacuum_task self) 0;
             PoolOpen (max_jobs (args self))]
         ++ analyze_ext
         ++ [PoolShutdown])
    /\ submitted ingest_ext = concat (map answers (TABLES K))
    /\ Permutation (started ingest_ext) (concat (map answers (TABLES K)))
    /\ submitted analyze_ext = map (analyze_task self) (TABLES K)
    /\ Permutation (started analyze_ext)
         (map (analyze_task self) (TABLES K)).
Proof.
  intros Hdir (Hc & He & Hp) HW Hurl _ Hfile Hl.
  assert (Hall : forall tasks, all_succeed E tasks)
    by (intros tasks t0 task _; apply Hp).
  assert (Hpool : forall tasks t0, exists ext,
             _run_tasks_parallel E self tasks t0
             = (Ret tt,
                t0 ++ PoolOpen (max_jobs (args self)) :: ext
                   ++ [PoolShutdown])
             /\ submitted ext = tasks /\ Permutation (started ext) tasks).
  { intros tasks t0.
    destruct (runner_facts E self tasks HW t0)
      as (ext & p & Hrun & _ & Hacc & Hh & Hdone & _ & Htasks & Hsub).
    destruct (runner_success E _ ext p Hacc (Hh (Hall _)) Hdone Htasks)
      as (Hpc & Hst & _).
    exists ext. split; [|auto]. rewrite Hrun.
    destruct (pc p) as [| | |e] eqn:Hpcp; try reflexivity.
    destruct (Hpc e eq_refl). }
  rewrite (run_unchecked _ Hdir), bind_eq.
  rewrite (prepare_db_trace E self Hc He _ _ _ Hurl Hfile).
  rewrite bind_eq. unfold print at 1, emit at 1.
  rewrite bind_eq, (gather_lists K answers _ _ _ Hl). cbn [app].
  rewrite bind_eq.
  match goal with |- context [_run_tasks_parallel E self _ ?t0] =>
    destruct (Hpool (concat (map answers (TABLES K))) t0)
      as (ext1 & -> & Hs1 & Hp1)
  end.
  unfold after_ingest. rewrite bind_eq. unfold print at 1, emit at 1.
  rewrite bind_eq, (add_indexes_steps _ Hc He).
  rewrite bind_eq. unfold print at 1, emit at 1.
  unfold vacuum_analyze. rewrite bind_eq.
  rewrite run_shell_task_ok by apply Hp.
  match goal with |- context [_run_tasks_parallel E self _ ?t0] =>
    destruct (Hpool (map (analyze_task self) (TABLES K)) t0)
      as (ext2 & -> & Hs2 & Hp2)
  end.
  exists ext1, ext2. split; [|auto].
  f_equal. repeat (progress (rewrite <- ?app_assoc; cbn [app])).
  reflexivity.
Qed.

Lemma gather_empty tables acc t :
  (forall table, In table tables -> get_ingest_tasks K table = PyList []) ->
  gather_ingest_tasks K tables acc t = (Ret acc, t).
Proof.
  revert acc. induction tables as [|table tables IH]; intros acc Hall;
    cbn [gather_ingest_tasks]; [reflexivity|].
  rewrite bind_eq, (Hall table) by (left; reflexivity).
  cbn [isinstance_list assert ret list_items]. rewrite app_nil_r.
  apply IH. intros; apply Hall; right; assumption.
Qed.

(** X8: when the plugin has no task for any table, which is what
    [get_ingest_tasks] of the class itself answers, ingestion opens and
    shuts one pool without starting a process, and the run goes on with
    the index stage. *)
Theorem run_without_ingest_tasks t t1 :
  (forall table, In table (TABLES K) ->
                 get_ingest_tasks K table = PyList []) ->
  (0 < max_jobs (args self))%Z ->
  before_ingest K E self t = (Ret tt, t1) ->
  run K E self t
  = after_ingest K E self
      (t1 ++ [Print "Ingesting data"; PoolOpen (max_jobs (args self));
              PoolShutdown]).
Proof.
  intros Hall HW Hb. rewrite run_stages, bind_eq, Hb.
  rewrite bind_eq. unfold print at 1, emit at 1.
  rewrite bind_eq, (gather_empty _ _ _ Hall), bind_eq.
  unfold _run_tasks_parallel.
  destruct (Z.leb_spec (max_jobs (args self)) 0) as [?|_]; [lia|].
  rewrite bind_eq. unfold emit at 1. rewrite bind_eq.
  cbn [length pool_fuel Nat.mul Nat.add pool_loop].
  change (enabled (max_jobs (args self)) (new_pool [])) with [SubmitStep].
  unfold_m. cbn [length]. rewrite Nat.mod_1_r. cbn [nth step new_pool pc].
  unfold_m. cbn [with_pc pc]. rewrite <- !app_assoc. reflexivity.
Qed.

(** X9: a [max_jobs] of 0 or less is noticed only when the first pool is
    made: the bootstrap has run, the tasks are collected, and then the run
    ends with [ValueError] before anything is submitted. *)
Theorem run_rejects_worker_count t t1 :
  (max_jobs (args self) <= 0)%Z ->
  (forall table, In table (TABLES K) ->
                 isinstance_list (get_ingest_tasks K table) = true) ->
  before_ingest K E self t = (Ret tt, t1) ->
  run K E self t
  = (Raise (ValueError "max_workers must be greater than 0"),
     t1 ++ [Print "Ingesting data"]).
Proof.
  intros HW Hl Hb. rewrite run_stages, bind_eq, Hb.
  rewrite bind_eq. unfold print at 1, emit at 1.
  destruct (gather_returns K (TABLES K) [] (t1 ++ [Print "Ingesting data"])
              Hl) as (tasks & Hg).
  rewrite bind_eq, Hg, bind_eq.
  unfold _run_tasks_parallel.
  rewrite (proj2 (Z.leb_le _ _) HW). reflexivity.
Qed.

End Pipeline.

Lemma run_stops_at_preflight_witness :
  run Scenario.sized_class Scenario.small_disk Scenario.checked []
  = (Raise Scenario.no_space, Scenario.check_trace)
  /\ exists ext, Scenario.check_trace = [] ++ ext
                 /\ Forall preflight_event ext.
Proof.
  apply (run_stops_at_preflight Scenario.sized_class Scenario.small_disk
           Scenario.checked "/data" [] Scenario.no_space Scenario.check_trace).
  - reflexivity.
  - discriminate.
  - vm_compute. reflexivity.
Defined.

Lemma run_stops_at_bootstrap_witness :
  run Sample.base_class Scenario.refusing Scenario.unchecked []
  = (Raise (DatabaseError "DROP DATABASE IF EXISTS bench"),
     [Print "Preparing DB"; Connect "postgresql://localhost:5432/postgres";
      Print "Deleting bench"; Execute "DROP DATABASE IF EXISTS bench";
      Disconnect "postgresql://localhost:5432/postgres"])
  /\ exists ext,
       [Print "Preparing DB"; Connect "postgresql://localhost:5432/postgres";
        Print "Deleting bench"; Execute "DROP DATABASE IF EXISTS bench";
        Disconnect "postgresql://localhost:5432/postgres"]
       = [] ++ ext
       /\ Forall (fun ev => ~ dispatch ev) ext.
Proof.
  apply (run_stops_at_bootstrap Sample.base_class Scenario.refusing
           Scenario.unchecked []).
  - left. reflexivity.
  - vm_compute. reflexivity.
Defined.

Lemma run_succeeds_witness :
  exists ingest_ext analyze_ext,
    run Scenario.two_tables Scenario.smooth Scenario.unchecked []
    = (Ret tt,
       [] ++ [Print "Preparing DB"]
          ++ bootstrap_steps Scenario.unchecked
               "postgresql://localhost:5432/postgres" "bench"
               "CREATE TABLE t (a int);"
          ++ [Print "Ingesting data"; PoolOpen 2]
          ++ ingest_ext
          ++ [PoolShutdown; Print "Adding indices"]
          ++ index_steps Scenario.smooth Scenario.unchecked
          ++ [Print "VACUUM-ANALYZE";
              Popen (vacuum_task Scenario.unchecked) "/opt/tpch";
              Exited (vacuum_task Scenario.unchecked) 0;
              PoolOpen 2]
          ++ analyze_ext ++ [PoolShutdown])
    /\ submitted ingest_ext = ["load lineitem"; "load orders"]
    /\ Permutation (started ingest_ext) ["load lineitem"; "load orders"]
    /\ submitted analyze_ext
       = map (analyze_task Scenario.unchecked) ["lineitem"; "orders"]
    /\ Permutation (started analyze_ext)
         (map (analyze_task Scenario.unchecked) ["lineitem"; "orders"]).
Proof.
  apply (run_succeeds Scenario.two_tables Scenario.smooth Scenario.unchecked
           {| Py.scheme := "postgresql"; Py.netloc := "localhost:5432";
              Py.path := "/bench" |}
           "CREATE TABLE t (a int);" (fun table => ["load " +:+ table]) []).
  - left. reflexivity.
  - repeat split; reflexivity.
  - reflexivity.
  - reflexivity.
  - reflexivity.
  - reflexivity.
  - intros table _. reflexivity.
Defined.

Lemma run_without_ingest_tasks_witness :
  run Sample.base_class Scenario.calm Scenario.unchecked []
  = after_ingest Sample.base_class Scenario.calm Scenario.unchecked
      (([Print "Preparing DB"]
        ++ bootstrap_steps Scenario.unchecked
             "postgresql://localhost:5432/postgres" "bench"
             "CREATE TABLE t (a int);")
       ++ [Print "Ingesting data"; PoolOpen 2; PoolShutdown]).
Proof.
  apply (run_without_ingest_tasks Sample.base_class Scenario.calm
           Scenario.unchecked []).
  - intros table [].
  - reflexivity.
  - vm_compute. reflexivity.
Defined.

Lemma run_rejects_worker_count_witness :
  run Scenario.two_tables Scenario.calm Scenario.jobless []
  = (Raise (ValueError "max_workers must be greater than 0"),
     ([Print "Preparing DB"]
      ++ bootstrap_steps Scenario.jobless
           "postgresql://localhost:5432/postgres" "bench"
           "CREATE TABLE t (a int);")
     ++ [Print "Ingesting data"]).
Proof.
  apply (run_rejects_worker_count Scenario.two_tables Scenario.calm
           Scenario.jobless []).
  - discriminate.
  - intros table _. reflexivity.
  - vm_compute. reflexivity.
Defined.

(** ** Failures of the bootstrap and of the index stage *)

Section StageFailures.

Variable E : Env.
Variable self : Self.

(** X10: for a descriptor that parses, its network location in ASCII,
    when the server refuses the DROP statement the bootstrap ends with
    that error after closing the administrative connection: CREATE is not
    sent and the target database is never connected to. *)
Theorem prepare_db_drop_refused dsn_url t :
  Py.urlparse (dsn (args self)) = Py.Parsed dsn_url ->
  Py.all Py.is_ascii (Py.netloc dsn_url) = true ->
  connect_ok E t (admin_dsn dsn_url) = true ->
  execute_ok E
    (t ++ [Connect (admin_dsn dsn_url);
           Print ("Deleting " +:+ dbname_of dsn_url)])
    ("DROP DATABASE IF EXISTS " +:+ dbname_of dsn_url) = false ->
  prepare_db E self t
  = (Raise (DatabaseError ("DROP DATABASE IF EXISTS " +:+ dbname_of dsn_url)),
     t ++ [Connect (admin_dsn dsn_url);
           Print ("Deleting " +:+ dbname_of dsn_url);
           Execute ("DROP DATABASE IF EXISTS " +:+ dbname_of dsn_url);
           Disconnect (admin_dsn dsn_url)]).
Proof.
  intros Hurl _ Hc Hx. unfold prepare_db, with_DBConn, execute. rewrite Hurl.
  fold (admin_dsn dsn_url). fold (dbname_of dsn_url). unfold_m.
  rewrite Hc. cbv beta iota. rewrite <- !app_assoc. cbn [app].
  rewrite Hx. cbv beta iota. rewrite <- !app_assoc. reflexivity.
Qed.

(** X11: for a descriptor that parses, its network location in ASCII, a
    missing [schema.sql] is noticed only inside the second connection: by
    then the database was dropped and created again; the bootstrap ends
    with the error of [open] after closing the connection, and no
    statement was sent to the new database. *)
Theorem prepare_db_missing_schema dsn_url t :
  Py.urlparse (dsn (args self)) = Py.Parsed dsn_url ->
  Py.all Py.is_ascii (Py.netloc dsn_url) = true ->
  (forall t d, connect_ok E t d = true) ->
  (forall t s, execute_ok E t s = true) ->
  file E (Py.join (schema_dir self) ["schema.sql"]) = None ->
  prepare_db E self t
  = (Raise (OSError (Py.join (schema_dir self) ["schema.sql"])),
     t ++ [Connect (admin_dsn dsn_url);
           Print ("Deleting " +:+ dbname_of dsn_url);
           Execute ("DROP DATABASE IF EXISTS " +:+ dbname_of dsn_url);
           Print ("Creating " +:+ dbname_of dsn_url);
           Execute ("CREATE DATABASE " +:+ dbname_of dsn_url
                    +:+ " TEMPLATE template0 ENCODING 'UTF-8'");
           Disconnect (admin_dsn dsn_url);
           Connect (dsn (args self));
           Print "Loading schema";
           Disconnect (dsn (args self))]).
Proof.
  intros Hurl _ Hc Hx Hfile.
  unfold prepare_db, with_DBConn, execute, read_file. rewrite Hurl.
  fold (admin_dsn dsn_url). fold (dbname_of dsn_url). rewrite Hfile. unfold_m.
  repeat (first [rewrite Hc | rewrite Hx]; cbv beta iota).
  rewrite <- !app_assoc. reflexivity.
Qed.

(** X12: when the server refuses the statements of one of the SQL files,
    the index stage ends with that error after closing the connection, and
    the files after it are not applied. *)
Theorem add_indexes_stops_at_error before sql_file after sql t t1 :
  sql_files = before ++ sql_file :: after ->
  for_each before (apply_sql_file E self) t = (Ret tt, t1) ->
  file E (Py.join (schema_dir self) [sql_file]) = Some sql ->
  sql <> EmptyString ->
  connect_ok E t1 (dsn (args self)) = true ->
  execute_ok E
    (t1 ++ [Connect (dsn (args self));
            Print ("Applying " +:+ Py.join (schema_dir self) [sql_file]);
            ReadFile (Py.join (schema_dir self) [sql_file])])
    sql = false ->
  add_indexes E self t
  = (Raise (DatabaseError sql),
     t1 ++ [Connect (dsn (args self));
            Print ("Applying " +:+ Py.join (schema_dir self) [sql_file]);
            ReadFile (Py.join (schema_dir self) [sql_file]);
            Execute sql;
            Disconnect (dsn (args self))]).
Proof.
  intros Hfiles Hbefore Hfile Hsql Hc Hx. unfold add_indexes.
  rewrite Hfiles. clear Hfiles. revert t Hbefore.
  induction before as [|f before IH]; intros t Hbefore.
  - cbn [for_each] in Hbefore. injection Hbefore as ->.
    cbn [app for_each]. rewrite bind_eq.
    unfold apply_sql_file, isfile, with_DBConn, read_file, execute.
    rewrite Hfile. cbn [negb]. unfold_m.
    rewrite Hc. cbv beta iota.
    destruct sql as [|c sql]; [done|]. cbn [String.eqb].
    rewrite <- !app_assoc. cbn [app]. rewrite Hx. cbv beta iota.
    rewrite <- !app_assoc. reflexivity.
  - cbn [app for_each] in *. rewrite bind_eq in *.
    destruct (apply_sql_file E self f t) as [[[]|e] t'];
      [|discriminate]. apply IH. exact Hbefore.
Qed.

End StageFailures.

Lemma prepare_db_drop_refused_witness :
  prepare_db Scenario.refusing Scenario.unchecked []
  = (Raise (DatabaseError "DROP DATABASE IF EXISTS bench"),
     [Connect "postgresql://localhost:5432/postgres";
      Print "Deleting bench";
      Execute "DROP DATABASE IF EXISTS bench";
      Disconnect "postgresql://localhost:5432/postgres"]).
Proof.
  apply (prepare_db_drop_refused Scenario.refusing Scenario.unchecked
           {| Py.scheme := "postgresql"; Py.netloc := "localhost:5432";
              Py.path := "/bench" |} []);
    reflexivity.
Defined.

Lemma prepare_db_missing_schema_witness :
  prepare_db Scenario.no_schema Scenario.unchecked []
  = (Raise (OSError "/opt/tpch/schemas/psql_native/schema.sql"),
     [Connect "postgresql://localhost:5432/postgres";
      Print "Deleting bench";
      Execute "DROP DATABASE IF EXISTS bench";
      Print "Creating bench";
      Execute "CREATE DATABASE bench TEMPLATE template0 ENCODING 'UTF-8'";
      Disconnect "postgresql://localhost:5432/postgres";
      Connect "postgresql://localhost:5432/bench";
      Print "Loading schema";
      Disconnect "postgresql://localhost:5432/bench"]).
Proof.
  apply (prepare_db_missing_schema Scenario.no_schema Scenario.unchecked
           {| Py.scheme := "postgresql"; Py.netloc := "localhost:5432";
              Py.path := "/bench" |} []);
    reflexivity.
Defined.

Lemma add_indexes_stops_at_error_witness :
  add_indexes Scenario.refusing Scenario.unchecked []
  = (Raise (DatabaseError "ALTER TABLE t ADD PRIMARY KEY (a);"),
     [Connect "postgresql://localhost:5432/bench";
      Print "Applying /opt/tpch/schemas/psql_native/primary-keys.sql";
      ReadFile "/opt/tpch/schemas/psql_native/primary-keys.sql";
      Execute "ALTER TABLE t ADD PRIMARY KEY (a);";
      Disconnect "postgresql://localhost:5432/bench"]).
Proof.
  apply (add_indexes_stops_at_error Scenario.refusing Scenario.unchecked
           [] "primary-keys.sql" ["foreign-keys.sql"; "indexes.sql"]
           "ALTER TABLE t ADD PRIMARY KEY (a);" [] []);
    first [reflexivity | discriminate].
Defined.
(** ** Paths *)

Lemma append_assoc (a b c : string) : (a +:+ b) +:+ c = a +:+ b +:+ c.
Proof.
  induction a as [|x a IH]; [reflexivity|].
  rewrite !append_cons, IH. reflexivity.
Qed.

Lemma append_nil_r (a : string) : a +:+ "" = a.
Proof.
  induction a as [|x a IH]; [reflexivity|]. rewrite append_cons, IH.
  reflexivity.
Qed.

Lemma endswith_char_app c a x b :
  Py.endswith_char c (a +:+ String x b) = Py.endswith_char c (String x b).
Proof.
  induction a as [|y a IH]; [reflexivity|].
  rewrite append_cons. destruct a as [|z a].
  - reflexivity.
  - rewrite append_cons in *. exact IH.
Qed.

Lemma eqb_app_cons a x b : String.eqb (a +:+ String x b) "" = false.
Proof. destruct a; reflexivity. Qed.

Lemma join_schemas base :
  Py.join2 base "schemas"
  = (if String.eqb base "" || Py.endswith_char "/"%char base
     then base else base +:+ "/") +:+ "schemas".
Proof.
  unfold Py.join2. cbn [Py.startswith String.prefix].
  destruct (ascii_dec "/" "s") as [Heq|_]; [discriminate Heq|].
  destruct (String.eqb base "" || Py.endswith_char "/"%char base);
    [reflexivity|]. rewrite append_assoc. reflexivity.
Qed.

Section Construction.

Variable E : Env.

(** X13: for a schema name that does not start with a slash, [__init__]
    looks for [<base_dir>/schemas/<schema>] (no second slash when
    [base_dir] ends with one, no slash at all when it is empty); it returns
    the instance with that [schema_dir] when the directory exists and
    raises the assertion otherwise, without any effect. *)
Theorem init_relative_schema a b t :
  Py.startswith "/" (schema a) = false ->
  __init__ E a b t
  = if isdir E (base_prefix b +:+ "schemas/" +:+ schema a)
    then (Ret {| args := a; benchmark := b;
                 schema_dir := base_prefix b +:+ "schemas/" +:+ schema a |},
          t)
    else (Raise (AssertionError "Schema does not exist"), t).
Proof.
  intros Hrel. unfold __init__, Py.join. cbn [fold_left].
  rewrite join_schemas. fold (base_prefix b).
  assert (Hj : Py.join2 (base_prefix b +:+ "schemas") (schema a)
               = base_prefix b +:+ "schemas/" +:+ schema a).
  { unfold Py.join2. rewrite Hrel.
    change "schemas" with (String "s" "chemas").
    rewrite eqb_app_cons, endswith_char_app. cbn [orb].
    replace (Py.endswith_char "/" "schemas") with false by reflexivity.
    rewrite !append_assoc. reflexivity. }
  rewrite Hj. unfold_m.
  destruct (isdir E (base_prefix b +:+ "schemas/" +:+ schema a)); reflexivity.
Qed.

(** X14: a schema name that starts with a slash replaces the whole path:
    [schema_dir] is that name itself and the benchmark's directory plays
    no part. *)
Theorem init_absolute_schema a b t :
  Py.startswith "/" (schema a) = true ->
  __init__ E a b t
  = if isdir E (schema a)
    then (Ret {| args := a; benchmark := b; schema_dir := schema a |}, t)
    else (Raise (AssertionError "Schema does not exist"), t).
Proof.
  intros Habs. unfold __init__, Py.join. cbn [fold_left].
  assert (Hj : Py.join2 (Py.join2 (base_dir b) "schemas") (schema a)
               = schema a)
    by (unfold Py.join2 at 1; rewrite Habs; reflexivity).
  rewrite Hj. unfold_m. destruct (isdir E (schema a)); reflexivity.
Qed.

End Construction.

Lemma init_relative_schema_witness :
  __init__ Scenario.calm (Sample.arguments "psql_native" 10) Sample.tpch []
  = (Ret (Sample.factory "psql_native" 10), []).
Proof.
  apply (init_relative_schema Scenario.calm
           (Sample.arguments "psql_native" 10) Sample.tpch []).
  reflexivity.
Defined.

Lemma init_absolute_schema_witness :
  __init__ Scenario.calm (Sample.arguments "/srv/custom_schema" 10)
    Sample.tpch []
  = (Ret {| args := Sample.arguments "/srv/custom_schema" 10;
            benchmark := Sample.tpch;
            schema_dir := "/srv/custom_schema" |}, []).
Proof.
  apply (init_absolute_schema Scenario.calm
           (Sample.arguments "/srv/custom_schema" 10) Sample.tpch []).
  reflexivity.
Defined.

(** ** Shell tasks *)

Section ShellTask.

Variable E : Env.
Variable self : Self.

(** X15: a shell task returns normally exactly when its process could be
    started and exited with 0; it starts at most one process, in the
    benchmark's directory, and never returns or raises before that process
    has exited. *)
Theorem run_shell_task_outcomes task t :
  ((_run_shell_task E self task t).1 = Ret tt
   <-> spawn_ok E t task = true
       /\ exit_code E (t ++ [Popen task (base_dir (benchmark self))]) task
          = 0%Z)
  /\ ((_run_shell_task E self task t).2 = t
      \/ exists rc,
           (_run_shell_task E self task t).2
           = t ++ [Popen task (base_dir (benchmark self)); Exited task rc]).
Proof.
  unfold _run_shell_task, popen, wait. unfold_m.
  destruct (spawn_ok E t task); cbv beta iota.
  - destruct (Z.eqb_spec
                (exit_code E (t ++ [Popen task (base_dir (benchmark self))])
                   task) 0) as [Hrc|Hrc]; cbn [fst snd].
    + split; [tauto|]. right. eexists. rewrite <- app_assoc. reflexivity.
    + split; [|right; eexists; rewrite <- app_assoc; reflexivity].
      split; [discriminate|]. intros [_ H]. contradiction.
  - cbn [fst snd]. split; [|left; reflexivity].
    split; [discriminate|]. intros [H _]. discriminate H.
Qed.

End ShellTask.

(** ** The database type and the schema directory *)

Lemma drop_app a n b :
  Py.drop (String.length a + n) (a +:+ b) = Py.drop n b.
Proof.
  induction a as [|x a IH]; [reflexivity|].
  rewrite append_cons. cbn [String.length Nat.add Py.drop]. exact IH.
Qed.

Lemma rfind_absent c s : Py.contains c s = false -> Py.rfind c s = (-1)%Z.
Proof.
  unfold Py.contains. rewrite negb_false_iff.
  induction s as [|a s IH]; [reflexivity|].
  cbn [Py.all Py.rfind]. rewrite andb_true_iff, negb_true_iff.
  intros [Ha Hs]. rewrite (IH Hs), Ha. reflexivity.
Qed.

Lemma rfind_app_last c a b :
  Py.contains c b = false ->
  Py.rfind c (a +:+ String c b) = Z.of_nat (String.length a).
Proof.
  intros Hb. induction a as [|x a IH].
  - change (Py.rfind c (String c b) = 0%Z). cbn [Py.rfind].
    rewrite (rfind_absent _ _ Hb), Ascii.eqb_refl. reflexivity.
  - rewrite append_cons. cbn [Py.rfind String.length]. rewrite IH.
    destruct (Z.leb_spec 0 (Z.of_nat (String.length a))); lia.
Qed.

Lemma basename_last dir name :
  Py.contains "/" name = false ->
  Py.basename (dir +:+ "/" +:+ name) = name.
Proof.
  intros Hn. unfold Py.basename.
  change ("/" +:+ name) with (String "/" name).
  rewrite (rfind_app_last _ _ _ Hn).
  replace (Z.to_nat (Z.of_nat (String.length dir) + 1))
    with (String.length dir + 1) by lia.
  rewrite drop_app. reflexivity.
Qed.

Lemma basename_plain name :
  Py.contains "/" name = false -> Py.basename name = name.
Proof.
  intros Hn. unfold Py.basename. rewrite (rfind_absent _ _ Hn). reflexivity.
Qed.

Lemma rfind_lower c s : (-1 <= Py.rfind c s)%Z.
Proof.
  induction s as [|a s IH]; cbn [Py.rfind]; [lia|].
  destruct (Z.leb_spec 0 (Py.rfind c s)); [lia|].
  destruct (Ascii.eqb a c); lia.
Qed.

Lemma basename_no_slash p : Py.contains "/" (Py.basename p) = false.
Proof.
  unfold Py.contains, Py.basename. rewrite negb_false_iff.
  induction p as [|a p IH]; [reflexivity|].
  cbn [Py.rfind]. pose proof (rfind_lower "/" p) as Hlow.
  destruct (Z.leb_spec 0 (Py.rfind "/" p)) as [Hge|Hlt].
  - replace (Z.to_nat (Py.rfind "/" p + 1 + 1))
      with (S (Z.to_nat (Py.rfind "/" p + 1))) by lia.
    cbn [Py.drop]. exact IH.
  - replace (Py.rfind "/" p) with (-1)%Z in * by lia.
    change (Z.to_nat (-1 + 1)) with 0 in *. cbn [Py.drop] in IH.
    destruct (Ascii.eqb a "/") eqn:Ha.
    + change (Z.to_nat (0 + 1)) with 1. cbn [Py.drop]. exact IH.
    + change (Z.to_nat (-1 + 1)) with 0. cbn [Py.drop Py.all].
      rewrite Ha. exact IH.
Qed.

Lemma item0_split_all p sep s :
  Py.all p s = true -> Py.all p (Py.item0 (Py.split sep s)) = true.
Proof.
  induction s as [|c s IH]; [reflexivity|].
  cbn [Py.all Py.split]. rewrite andb_true_iff. intros [Hc Hs].
  destruct (Ascii.eqb c sep); [reflexivity|].
  pose proof (split_nonempty sep s). specialize (IH Hs).
  destruct (Py.split sep s) as [|w ws]; [done|].
  cbn [Py.item0 hd Py.all] in *. rewrite Hc, IH. reflexivity.
Qed.

Lemma item0_split_no_sep sep s :
  Py.contains sep (Py.item0 (Py.split sep s)) = false.
Proof.
  unfold Py.contains. rewrite negb_false_iff.
  induction s as [|c s IH]; [reflexivity|].
  cbn [Py.split]. destruct (Ascii.eqb c sep) eqn:Hc; [reflexivity|].
  pose proof (split_nonempty sep s).
  destruct (Py.split sep s) as [|w ws]; [done|].
  cbn [Py.item0 hd Py.all] in *. rewrite Hc, IH. reflexivity.
Qed.

(** X16: a schema directory written with a slash at its end has an empty
    base name, so the database type the preflight looks up is the empty
    string, whatever the directory is called. *)
Theorem db_type_of_trailing_slash dir : db_type_of (dir +:+ "/") = "".
Proof.
  unfold db_type_of.
  replace (Py.basename (dir +:+ "/")) with EmptyString; [reflexivity|].
  symmetry. rewrite <- (append_nil_r (dir +:+ "/")), append_assoc.
  apply basename_last. reflexivity.
Qed.

(** X17: the database type depends on the last component of the schema
    directory only: the directories before it, underscores in their names
    included, play no part. *)
Theorem db_type_of_last_component dir name :
  Py.contains "/" name = false ->
  db_type_of (dir +:+ "/" +:+ name) = db_type_of name.
Proof.
  intros Hn. unfold db_type_of.
  rewrite (basename_last _ _ Hn), (basename_plain _ Hn). reflexivity.
Qed.

(** X18: the database type never contains an underscore or a slash. *)
Theorem db_type_of_chars schema_dir :
  Py.contains "_" (db_type_of schema_dir) = false
  /\ Py.contains "/" (db_type_of schema_dir) = false.
Proof.
  unfold db_type_of.
  destruct (String.eqb _ "sdb"); [split; reflexivity|].
  split; [apply item0_split_no_sep|].
  pose proof (basename_no_slash schema_dir) as Hb.
  unfold Py.contains in *. rewrite negb_false_iff in *.
  apply item0_split_all. exact Hb.
Qed.

Lemma db_type_of_last_component_witness :
  db_type_of ("/opt/my_bench/schemas" +:+ "/" +:+ "psql_native")
  = db_type_of "psql_native".
Proof.
  apply (db_type_of_last_component "/opt/my_bench/schemas" "psql_native").
  reflexivity.
Defined.

(** ** Descriptors with options, without a database, and with brackets *)

(** Behind a plain scheme and [://], the rest is cut at the first of
    [/?#] into the network location and what follows, and the network
    location is checked for brackets. *)
Lemma urlparse_after_scheme scheme rest :
  plain_scheme scheme = true ->
  Py.all (fun c => negb (Py.unsafe_byte c)) rest = true ->
  Py.urlparse (scheme +:+ "://" +:+ rest)
  = let '(netloc, url) := Py.break Py.ends_netloc rest in
    match Py.check_netloc_brackets netloc with
    | Some msg => Py.Invalid msg
    | None =>
        let url := fst (Py.break Py.ends_path url) in
        Py.Parsed
          {| Py.scheme := scheme;
             Py.netloc := netloc;
             Py.path := if bool_decide (scheme ∈ Py.uses_params)
                           && Py.contains ";" url
                        then Py.strip_params url else url |}
    end.
Proof.
  unfold plain_scheme. rewrite andb_true_iff. intros [H0 Hs] Hr.
  destruct scheme as [|c0 scheme]; [discriminate|].
  destruct (is_lower_facts c0 H0) as [Hc0 Halpha].
  assert (Hsafe : Py.all (fun c => negb (Py.unsafe_byte c))
                    (String c0 scheme +:+ "://" +:+ rest) = true).
  { rewrite !all_app, !andb_true_iff. repeat split; try reflexivity.
    - revert Hs. apply all_impl. intros c Hc.
      destruct (plain_scheme_char_facts c Hc) as (_ & _ & _ & ->). reflexivity.
    - exact Hr. }
  unfold Py.urlparse.
  replace (Py.lstrip Py.c0_or_space (String c0 scheme +:+ "://" +:+ rest))
    with (String c0 scheme +:+ "://" +:+ rest)
    by (rewrite append_cons; cbn [Py.lstrip]; rewrite Hc0; reflexivity).
  rewrite (filter_all _ _ Hsafe).
  change ("://" +:+ rest) with (String ":" ("//" +:+ rest)).
  rewrite break_at; [| |reflexivity].
  2:{ revert Hs. apply all_impl. intros c Hc.
      destruct (plain_scheme_char_facts c Hc) as (_ & _ & -> & _).
      reflexivity. }
  rewrite Halpha.
  replace (Py.all Py.scheme_char (String c0 scheme)) with true.
  2:{ symmetry. revert Hs. apply all_impl. intros c Hc.
      destruct (plain_scheme_char_facts c Hc) as (-> & _). reflexivity. }
  cbn [andb]. rewrite lower_all.
  2:{ revert Hs. apply all_impl. intros c Hc.
      destruct (plain_scheme_char_facts c Hc) as (_ & -> & _). reflexivity. }
  change ("//" +:+ rest) with (String "/" (String "/" rest)).
  cbv iota beta. destruct (Py.break Py.ends_netloc rest) as [netloc url].
  reflexivity.
Qed.

Lemma contains_app c a b :
  Py.contains c (a +:+ b) = Py.contains c a || Py.contains c b.
Proof.
  unfold Py.contains. rewrite all_app, negb_andb. reflexivity.
Qed.

Lemma plain_netloc_safe netloc :
  Py.all plain_netloc_char netloc = true ->
  Py.all (fun c => negb (Py.unsafe_byte c)) netloc = true
  /\ Py.all (fun c => negb (Py.ends_netloc c)) netloc = true.
Proof.
  intros Hn. split; revert Hn; apply all_impl; intros c Hc;
    destruct (plain_netloc_char_facts c Hc) as (H1 & H2 & _);
    [rewrite H2|rewrite H1]; reflexivity.
Qed.

Lemma plain_dbname_path dbname :
  Py.all plain_dbname_char dbname = true ->
  Py.all (fun c => negb (Py.unsafe_byte c)) dbname = true
  /\ Py.all (fun c => negb (Py.ends_path c)) (String "/" dbname) = true
  /\ Py.contains ";" (String "/" dbname) = false.
Proof.
  intros Hd. split; [|split].
  - revert Hd. apply all_impl. intros c Hc.
    destruct (plain_dbname_char_facts c Hc) as (_ & _ & ->). reflexivity.
  - cbn [Py.all]. apply andb_true_iff. split; [reflexivity|].
    revert Hd. apply all_impl. intros c Hc.
    destruct (plain_dbname_char_facts c Hc) as (-> & _). reflexivity.
  - unfold Py.contains. apply negb_false_iff. cbn [Py.all].
    apply andb_true_iff. split; [reflexivity|].
    revert Hd. apply all_impl. intros c Hc.
    destruct (plain_dbname_char_facts c Hc) as (_ & -> & _). reflexivity.
Qed.

(** How [urlparse] reads the three shapes of descriptor. *)
Lemma urlparse_with_options scheme netloc dbname options :
  plain_scheme scheme = true ->
  Py.all plain_netloc_char netloc = true ->
  Py.all plain_dbname_char dbname = true ->
  Py.all (fun c => negb (Py.unsafe_byte c)) options = true ->
  Py.urlparse
    (scheme +:+ "://" +:+ netloc +:+ "/" +:+ dbname +:+ "?" +:+ options)
  = Py.Parsed {| Py.scheme := scheme; Py.netloc := netloc;
                 Py.path := "/" +:+ dbname |}.
Proof.
  intros Hs Hn Hd Ho.
  destruct (plain_netloc_safe _ Hn) as [Hn1 Hn2].
  destruct (plain_dbname_path _ Hd) as (Hd1 & Hd2 & Hd3).
  rewrite urlparse_after_scheme; [|exact Hs|].
  2:{ rewrite !all_app, !andb_true_iff. repeat split; try reflexivity;
        assumption. }
  change ("/" +:+ dbname +:+ "?" +:+ options)
    with (String "/" (dbname +:+ "?" +:+ options)).
  rewrite break_at; [|exact Hn2|reflexivity].
  rewrite (plain_netloc_passes _ Hn).
  change (String "/" (dbname +:+ "?" +:+ options))
    with (("/" +:+ dbname) +:+ String "?" options).
  rewrite break_at; [|exact Hd2|reflexivity].
  cbn [fst]. change ("/" +:+ dbname) with (String "/" dbname).
  rewrite Hd3, andb_false_r. reflexivity.
Qed.

Lemma urlparse_without_path scheme netloc :
  plain_scheme scheme = true ->
  Py.all plain_netloc_char netloc = true ->
  Py.urlparse (scheme +:+ "://" +:+ netloc)
  = Py.Parsed {| Py.scheme := scheme; Py.netloc := netloc; Py.path := "" |}.
Proof.
  intros Hs Hn. destruct (plain_netloc_safe _ Hn) as [Hn1 Hn2].
  rewrite urlparse_after_scheme; [|exact Hs|exact Hn1].
  rewrite break_none by exact Hn2.
  rewrite (plain_netloc_passes _ Hn).
  cbn [Py.break fst Py.contains Py.all negb].
  rewrite andb_false_r. reflexivity.
Qed.

Section Descriptors.

Variable E : Env.
Variable self : Self.

Hypothesis connects : forall t d, connect_ok E t d = true.
Hypothesis executes : forall t s, execute_ok E t s = true.

(** X19: what follows a [?] in the descriptor is used for the target
    connection only: the bootstrap connects to [scheme://netloc/postgres]
    for the administrative statements, drops and creates the database
    named before the [?], and connects with the whole descriptor, options
    included, to load the schema. *)
Theorem dsn_options_dropped scheme netloc dbname options schema_sql t :
  dsn (args self)
  = scheme +:+ "://" +:+ netloc +:+ "/" +:+ dbname +:+ "?" +:+ options ->
  plain_scheme scheme = true ->
  Py.all plain_netloc_char netloc = true ->
  Py.all plain_dbname_char dbname = true ->
  Py.all (fun c => negb (Py.unsafe_byte c)) options = true ->
  file E (Py.join (schema_dir self) ["schema.sql"]) = Some schema_sql ->
  prepare_db E self t
  = (Ret tt,
     t ++ [Connect (scheme +:+ "://" +:+ netloc +:+ "/postgres");
           Print ("Deleting " +:+ dbname);
           Execute ("DROP DATABASE IF EXISTS " +:+ dbname);
           Print ("Creating " +:+ dbname);
           Execute ("CREATE DATABASE " +:+ dbname
                    +:+ " TEMPLATE template0 ENCODING 'UTF-8'");
           Disconnect (scheme +:+ "://" +:+ netloc +:+ "/postgres");
           Connect (scheme +:+ "://" +:+ netloc +:+ "/" +:+ dbname
                    +:+ "?" +:+ options);
           Print "Loading schema";
           ReadFile (Py.join (schema_dir self) ["schema.sql"]);
           Execute schema_sql;
           Disconnect (scheme +:+ "://" +:+ netloc +:+ "/" +:+ dbname
                       +:+ "?" +:+ options)]).
Proof.
  intros Hdsn Hs Hn Hd Ho Hfile.
  rewrite (prepare_db_trace E self connects executes
             {| Py.scheme := scheme; Py.netloc := netloc;
                Py.path := "/" +:+ dbname |} _ _) by
    (try exact Hfile; rewrite Hdsn; apply urlparse_with_options; assumption).
  unfold bootstrap_steps. rewrite Hdsn. reflexivity.
Qed.

(** X20: a descriptor that ends after the network location names no
    database: the bootstrap sends DROP and CREATE with an empty name. *)
Theorem dsn_without_database scheme netloc schema_sql t :
  dsn (args self) = scheme +:+ "://" +:+ netloc ->
  plain_scheme scheme = true ->
  Py.all plain_netloc_char netloc = true ->
  file E (Py.join (schema_dir self) ["schema.sql"]) = Some schema_sql ->
  prepare_db E self t
  = (Ret tt,
     t ++ [Connect (scheme +:+ "://" +:+ netloc +:+ "/postgres");
           Print "Deleting ";
           Execute "DROP DATABASE IF EXISTS ";
           Print "Creating ";
           Execute "CREATE DATABASE  TEMPLATE template0 ENCODING 'UTF-8'";
           Disconnect (scheme +:+ "://" +:+ netloc +:+ "/postgres");
           Connect (scheme +:+ "://" +:+ netloc);
           Print "Loading schema";
           ReadFile (Py.join (schema_dir self) ["schema.sql"]);
           Execute schema_sql;
           Disconnect (scheme +:+ "://" +:+ netloc)]).
Proof.
  intros Hdsn Hs Hn Hfile.
  rewrite (prepare_db_trace E self connects executes
             {| Py.scheme := scheme; Py.netloc := netloc; Py.path := "" |}
             _ _) by
    (try exact Hfile; rewrite Hdsn; apply urlparse_without_path; assumption).
  unfold bootstrap_steps. rewrite Hdsn. reflexivity.
Qed.

End Descriptors.

Lemma dsn_options_dropped_witness :
  prepare_db Scenario.smooth
    (Scenario.with_dsn "postgresql://db.example:5432/bench?sslmode=require")
    []
  = (Ret tt,
     [] ++ [Connect ("postgresql" +:+ "://" +:+ "db.example:5432"
                     +:+ "/postgres");
            Print ("Deleting " +:+ "bench");
            Execute ("DROP DATABASE IF EXISTS " +:+ "bench");
            Print ("Creating " +:+ "bench");
            Execute ("CREATE DATABASE " +:+ "bench"
                     +:+ " TEMPLATE template0 ENCODING 'UTF-8'");
            Disconnect ("postgresql" +:+ "://" +:+ "db.example:5432"
                        +:+ "/postgres");
            Connect ("postgresql" +:+ "://" +:+ "db.example:5432" +:+ "/"
                     +:+ "bench" +:+ "?" +:+ "sslmode=require");
            Print "Loading schema";
            ReadFile "/opt/tpch/schemas/psql_native/schema.sql";
            Execute "CREATE TABLE t (a int);";
            Disconnect ("postgresql" +:+ "://" +:+ "db.example:5432" +:+ "/"
                        +:+ "bench" +:+ "?" +:+ "sslmode=require")]).
Proof.
  apply (dsn_options_dropped Scenario.smooth
           (Scenario.with_dsn
              "postgresql://db.example:5432/bench?sslmode=require")
           ltac:(reflexivity) ltac:(reflexivity)
           "postgresql" "db.example:5432" "bench" "sslmode=require"
           "CREATE TABLE t (a int);" []);
    reflexivity.
Defined.

Lemma dsn_without_database_witness :
  prepare_db Scenario.smooth
    (Scenario.with_dsn "postgresql://db.example:5432") []
  = (Ret tt,
     [] ++ [Connect ("postgresql" +:+ "://" +:+ "db.example:5432"
                     +:+ "/postgres");
            Print "Deleting ";
            Execute "DROP DATABASE IF EXISTS ";
            Print "Creating ";
            Execute "CREATE DATABASE  TEMPLATE template0 ENCODING 'UTF-8'";
            Disconnect ("postgresql" +:+ "://" +:+ "db.example:5432"
                        +:+ "/postgres");
            Connect ("postgresql" +:+ "://" +:+ "db.example:5432");
            Print "Loading schema";
            ReadFile "/opt/tpch/schemas/psql_native/schema.sql";
            Execute "CREATE TABLE t (a int);";
            Disconnect ("postgresql" +:+ "://" +:+ "db.example:5432")]).
Proof.
  apply (dsn_without_database Scenario.smooth
           (Scenario.with_dsn "postgresql://db.example:5432")
           ltac:(reflexivity) ltac:(reflexivity)
           "postgresql" "db.example:5432" "CREATE TABLE t (a int);" []);
    reflexivity.
Defined.

Section InvalidDescriptors.

Variable E : Env.
Variable self : Self.

(** X24: a descriptor whose network location holds an opening bracket
    without a closing one, or a closing one without an opening one, is
    refused by [urlparse]: the bootstrap raises [ValueError] before it
    connects to anything. *)
Theorem prepare_db_unbalanced_bracket scheme netloc dbname t :
  dsn (args self) = scheme +:+ "://" +:+ netloc +:+ "/" +:+ dbname ->
  plain_scheme scheme = true ->
  Py.all (fun c => negb (Py.ends_netloc c) && negb (Py.unsafe_byte c)) netloc
  = true ->
  Py.all (fun c => negb (Py.unsafe_byte c)) dbname = true ->
  Py.contains "[" netloc <> Py.contains "]" netloc ->
  prepare_db E self t = (Raise (ValueError "Invalid IPv6 URL"), t).
Proof.
  intros Hdsn Hs Hn Hd Hbr. unfold prepare_db.
  rewrite Hdsn, urlparse_after_scheme; [|exact Hs|].
  2:{ rewrite !all_app, !andb_true_iff. repeat split; try reflexivity;
        [|exact Hd].
      revert Hn. apply all_impl. intros c Hc.
      apply andb_true_iff in Hc as [_ Hc]. exact Hc. }
  change ("/" +:+ dbname) with (String "/" dbname).
  rewrite break_at; [| |reflexivity].
  2:{ revert Hn. apply all_impl. intros c Hc.
      apply andb_true_iff in Hc as [Hc _]. exact Hc. }
  unfold Py.check_netloc_brackets.
  destruct (Py.contains "[" netloc), (Py.contains "]" netloc);
    try congruence; reflexivity.
Qed.

End InvalidDescriptors.

Lemma prepare_db_unbalanced_bracket_witness :
  prepare_db Scenario.smooth (Scenario.with_dsn "postgresql://[::1/bench") []
  = (Raise (ValueError "Invalid IPv6 URL"), []).
Proof.
  apply (prepare_db_unbalanced_bracket Scenario.smooth
           (Scenario.with_dsn "postgresql://[::1/bench")
           "postgresql" "[::1" "bench" []);
    first [reflexivity | discriminate].
Defined.

(** An IPv6 address in brackets is a network location like any other; an
    IPv4 address in brackets is refused. *)
Example prepare_db_ipv6_host :
  prepare_db Scenario.refusing
    (Scenario.with_dsn "postgresql://bench@[2001:db8::1]:5432/bench") []
  = (Raise (DatabaseError "DROP DATABASE IF EXISTS bench"),
     [Connect "postgresql://bench@[2001:db8::1]:5432/postgres";
      Print "Deleting bench";
      Execute "DROP DATABASE IF EXISTS bench";
      Disconnect "postgresql://bench@[2001:db8::1]:5432/postgres"]).
Proof. vm_compute. reflexivity. Qed.

Example prepare_db_ipv4_in_brackets :
  prepare_db Scenario.smooth
    (Scenario.with_dsn "postgresql://[127.0.0.1]:5432/bench") []
  = (Raise (ValueError "An IPv4 address cannot be in brackets"), []).
Proof. vm_compute. reflexivity. Qed.

(** ** The ANALYZE commands *)

Lemma append_char_inj a b c :
  a +:+ String c "" = b +:+ String c "" -> a = b.
Proof.
  revert b. induction a as [|x a IH]; intros [|y b] H.
  - reflexivity.
  - rewrite append_cons in H. injection H as _ H. destruct b; discriminate H.
  - rewrite append_cons in H. injection H as _ H. destruct a; discriminate H.
  - rewrite !append_cons in H. injection H as -> H. f_equal. exact (IH _ H).
Qed.

(** X21: the ANALYZE command names its table and nothing else varies:
    different tables give different commands, so a list of distinct tables
    gives as many distinct ANALYZE tasks. *)
Theorem analyze_tasks_distinct self (tables : list string) :
  (forall t1 t2, analyze_task self t1 = analyze_task self t2 -> t1 = t2)
  /\ (List.NoDup tables -> List.NoDup (map (analyze_task self) tables)).
Proof.
  assert (Hinj : forall t1 t2,
             analyze_task self t1 = analyze_task self t2 -> t1 = t2).
  { intros t1 t2 H. unfold analyze_task in H.
    repeat apply String.app_inj in H. exact (append_char_inj _ _ _ H). }
  split; [exact Hinj|].
  induction tables as [|table tables IH]; intros Hnd; cbn [map].
  - constructor.
  - inversion Hnd as [|? ? Hnotin Hnd']; subst. constructor.
    + intros Hin. apply in_map_iff in Hin as (t' & Heq & Hin).
      apply Hinj in Heq. subst t'. contradiction.
    + exact (IH Hnd').
Qed.

Lemma analyze_tasks_distinct_witness :
  List.NoDup ["lineitem"; "orders"]
  /\ List.NoDup
       (map (analyze_task Scenario.unchecked) ["lineitem"; "orders"]).
Proof.
  assert (H : List.NoDup ["lineitem"; "orders"]).
  { constructor; [|constructor; [|constructor]]; cbn; intuition discriminate. }
  split; [exact H|].
  exact (proj2 (analyze_tasks_distinct Scenario.unchecked _) H).
Defined.

(** ** The display buffer of the monitor *)

Lemma add_display_lines m ls :
  fold_left Monitoring._add_display_line ls m
  = {| Monitoring.lines := Monitoring.lines m ++ ls;
       Monitoring.total_lines := Monitoring.total_lines m;
       Monitoring.current_line := Monitoring.current_line m |}.
Proof.
  revert m. induction ls as [|l ls IH]; intros m; cbn [fold_left].
  - rewrite app_nil_r. destruct m; reflexivity.
  - rewrite IH. unfold Monitoring._add_display_line.
    cbn [Monitoring.lines Monitoring.total_lines Monitoring.current_line].
    rewrite <- app_assoc. reflexivity.
Qed.

Lemma count_char_app c a b :
  Monitoring.count_char c (a +:+ b)
  = Monitoring.count_char c a + Monitoring.count_char c b.
Proof.
  induction a as [|x a IH]; [reflexivity|].
  rewrite append_cons. cbn [Monitoring.count_char]. rewrite IH. lia.
Qed.

Lemma count_char_cursor_up n :
  Monitoring.count_char Monitoring.newline
    (Monitoring.repeat_string n Monitoring.cursor_up) = 0.
Proof.
  induction n as [|n IH]; [reflexivity|].
  cbn [Monitoring.repeat_string]. rewrite count_char_app, IH. reflexivity.
Qed.

Lemma count_char_print_lines ls :
  (forall line, In line ls ->
                Monitoring.count_char Monitoring.newline line = 0) ->
  Monitoring.count_char Monitoring.newline (Monitoring.print_lines ls)
  = length ls.
Proof.
  induction ls as [|l ls IH]; intros Hls; [reflexivity|].
  cbn [Monitoring.print_lines length]. rewrite !count_char_app.
  rewrite (Hls l) by (left; reflexivity).
  rewrite IH by (intros; apply Hls; right; assumption). reflexivity.
Qed.

(** X22: adding lines and printing writes [total_lines] times the code
    [ESC [F], and then for every buffered line, in the order in which the
    lines were added, the code [ESC [2K], the line and a line break;
    afterwards the buffer is empty and [total_lines] is the number of
    lines written. *)
Theorem refresh_writes_buffer m ls :
  let ESC := String "027"%char in
  let LF := String "010"%char EmptyString in
  Monitoring.refresh m ls
  = (fold_right String.append EmptyString
       (repeat (ESC "[F") (Z.to_nat (Monitoring.total_lines m))
        ++ map (fun line => ESC "[2K" +:+ line +:+ LF)
             (Monitoring.lines m ++ ls)),
     {| Monitoring.lines := [];
        Monitoring.total_lines :=
          Z.of_nat (length (Monitoring.lines m ++ ls));
        Monitoring.current_line := Monitoring.current_line m |}).
Proof.
  intros ESC LF. unfold Monitoring.refresh, Monitoring._print.
  rewrite add_display_lines.
  cbn [Monitoring.lines Monitoring.total_lines Monitoring.current_line].
  f_equal. rewrite fold_right_app. unfold Monitoring.mul.
  generalize (Monitoring.lines m ++ ls). intros buffer.
  induction (Z.to_nat (Monitoring.total_lines m)) as [|n IH].
  - cbn [Monitoring.repeat_string repeat fold_right].
    induction buffer as [|line buffer IHb]; [reflexivity|].
    cbn [Monitoring.print_lines map fold_right]. rewrite <- IHb.
    change (String.append ?a ?b) with (a +:+ b).
    rewrite !append_assoc. reflexivity.
  - cbn [Monitoring.repeat_string repeat fold_right]. rewrite <- IH.
    change (String.append ?a ?b) with (a +:+ b).
    rewrite append_assoc. reflexivity.
Qed.

(** X23: the display is redrawn in place: when no displayed line holds a
    line break, the next refresh starts by moving the cursor up once for
    every line break the refresh before it wrote. *)
Theorem refresh_in_place m ls ls' :
  (forall line, In line (Monitoring.lines m ++ ls) ->
                Monitoring.count_char Monitoring.newline line = 0) ->
  (Monitoring.refresh (Monitoring.refresh m ls).2 ls').1
  = Monitoring.repeat_string
      (Monitoring.count_char Monitoring.newline (Monitoring.refresh m ls).1)
      Monitoring.cursor_up
    +:+ Monitoring.print_lines ls'.
Proof.
  intros Hls. unfold Monitoring.refresh, Monitoring._print.
  rewrite !add_display_lines.
  cbn [fst snd Monitoring.lines Monitoring.total_lines app].
  rewrite count_char_app. unfold Monitoring.mul at 2.
  rewrite count_char_cursor_up, (count_char_print_lines _ Hls).
  unfold Monitoring.mul. rewrite Nat2Z.id, length_app. reflexivity.
Qed.

Lemma refresh_in_place_witness :
  (Monitoring.refresh
     (Monitoring.refresh
        {| Monitoring.lines := []; Monitoring.total_lines := 0;
           Monitoring.current_line := 0 |}
        ["DB size: 1 GB"; "Elapsed: 1 second"]).2
     ["DB size: 2 GB"]).1
  = Monitoring.repeat_string
      (Monitoring.count_char Monitoring.newline
         (Monitoring.refresh
            {| Monitoring.lines := []; Monitoring.total_lines := 0;
               Monitoring.current_line := 0 |}
            ["DB size: 1 GB"; "Elapsed: 1 second"]).1)
      Monitoring.cursor_up
    +:+ Monitoring.print_lines ["DB size: 2 GB"].
Proof.
  apply (refresh_in_place
           {| Monitoring.lines := []; Monitoring.total_lines := 0;
              Monitoring.current_line := 0 |}
           ["DB size: 1 GB"; "Elapsed: 1 second"] ["DB size: 2 GB"]).
  intros line [<-|[<-|[]]]; reflexivity.
Defined.

(** ** One worker *)

Lemma tasks_where_set_last (P : fstate -> bool) i s fs f :
  fs !! i = Some f -> P (f_state f) = false -> P s = true ->
  (forall j g, fs !! j = Some g -> i < j -> P (f_state g) = false) ->
  tasks_where P (set_state i s fs) = tasks_where P fs ++ [f_task f].
Proof.
  unfold set_state. revert i.
  induction fs as [|g fs IH]; intros i Hi Hf Hs Hafter.
  - destruct i; discriminate.
  - destruct i as [|i]; cbn in Hi.
    + injection Hi as ->. cbn [alter list_alter tasks_where f_state f_task].
      rewrite Hs, Hf. rewrite tasks_where_none; [reflexivity|].
      intros h Hh. apply in_lookup in Hh as [j Hj].
      apply (Hafter (S j) h); [exact Hj|lia].
    + cbn [alter list_alter tasks_where].
      rewrite (IH i Hi Hf Hs)
        by (intros j h Hj Hlt; apply (Hafter (S j) h); [exact Hj|lia]).
      destruct (P (f_state g)); reflexivity.
Qed.

Lemma tasks_where_sublist (P : fstate -> bool) fs :
  sublist (tasks_where P fs) (map f_task fs).
Proof.
  induction fs as [|g fs IH]; [constructor|].
  cbn [tasks_where map]. destruct (P (f_state g)); constructor; exact IH.
Qed.

(** The processes that were started have exited or run. *)
Lemma started_exited_spawned fs :
  length (tasks_where has_started fs)
  = length (tasks_where has_exited fs) + length (tasks_where is_spawned fs).
Proof.
  induction fs as [|g fs IH]; [reflexivity|].
  cbn [tasks_where].
  destruct (f_state g) as [|[]| | |[[]|]];
    cbn [has_started has_exited is_spawned length]; lia.
Qed.

Lemma one_spawned k fs :
  (forall i f, fs !! i = Some f -> is_spawned (f_state f) = true -> i = k) ->
  length (tasks_where is_spawned fs) <= 1.
Proof.
  revert k. induction fs as [|g fs IH]; intros k Hk; [cbn; lia|].
  cbn [tasks_where]. destruct (is_spawned (f_state g)) eqn:Hg.
  - rewrite tasks_where_none; [cbn; lia|].
    intros h Hh. apply in_lookup in Hh as [j Hj].
    destruct (is_spawned (f_state h)) eqn:Hh'; [|reflexivity].
    pose proof (Hk 0 g eq_refl Hg) as H0.
    pose proof (Hk (S j) h Hj Hh') as H1. lia.
  - destruct k as [|k].
    + rewrite tasks_where_none; [cbn; lia|].
      intros h Hh. apply in_lookup in Hh as [j Hj].
      destruct (is_spawned (f_state h)) eqn:Hh'; [|reflexivity].
      pose proof (Hk (S j) h Hj Hh'). lia.
    + apply (IH k). intros i f Hi Hf.
      pose proof (Hk (S i) f Hi Hf). lia.
Qed.

Lemma fires_events E self t p e p' : fires E self t p e p' -> length e <= 1.
Proof. intros H. destruct H; cbn [length]; lia. Qed.

(** What holds of a trace that grows by at most one event at a time holds
    of all its beginnings. *)
Lemma prefix_closed (P : trace -> Prop) ext e :
  (forall a b, ext = a ++ b -> P a) -> length e <= 1 -> P (ext ++ e) ->
  forall a b, ext ++ e = a ++ b -> P a.
Proof.
  intros Hext He Hnew a b.
  destruct e as [|ev [|ev' e]]; cbn [length] in He; try lia.
  - rewrite app_nil_r. apply Hext.
  - destruct b as [|x b _] using rev_ind.
    + rewrite app_nil_r. intros <-. exact Hnew.
    + rewrite app_assoc. intros Heq. apply app_inj_tail in Heq as [-> _].
      eapply Hext. reflexivity.
Qed.

Section OneWorker.

Variable E : Env.
Variable self : Self.
Variable tasks : list string.

Hypothesis one : max_jobs (args self) = 1%Z.

(** With one worker a work item is taken only when nothing is under way. *)
Lemma idle_done p i f :
  (Z.of_nat (busy p) < 1)%Z -> futures p !! i = Some f -> i < next p ->
  is_done (f_state f) = true.
Proof.
  unfold busy. intros Hb Hf Hlt.
  assert (H1 : held p = [])
    by (destruct (held p); [reflexivity|cbn in Hb; lia]).
  assert (H2 : begun p = [])
    by (destruct (begun p); [reflexivity|cbn in Hb; lia]).
  assert (H3 : spawned p = [])
    by (destruct (spawned p); [reflexivity|cbn in Hb; lia]).
  pose proof (select_nil _ _ _ _ H1 Hf) as G1.
  pose proof (select_nil _ _ _ _ H2 Hf) as G2.
  pose proof (select_nil _ _ _ _ H3 Hf) as G3.
  cbv beta in G1, G2, G3.
  rewrite (proj2 (Nat.ltb_lt i (next p)) Hlt) in G1.
  destruct (f_state f) as [|[]| | |]; try discriminate; reflexivity.
Qed.

(** The trace of the processes in terms of the futures. *)
Lemma serial_trace p ext :
  wf tasks p ext ->
  (forall i f, futures p !! i = Some f -> S i < next p ->
               is_done (f_state f) = true) ->
  started ext = tasks_where has_started (futures p) ->
  map fst (exited ext) = tasks_where has_exited (futures p) ->
  length (exited ext) <= length (started ext)
  /\ length (started ext) <= length (exited ext) + 1.
Proof.
  intros (_ & _ & _ & Hwaits & _) Hdone Hst Hex.
  pose proof (started_exited_spawned (futures p)) as Hcount.
  rewrite <- Hst, <- Hex, length_map in Hcount.
  assert (Hone : length (tasks_where is_spawned (futures p)) <= 1).
  { apply (one_spawned (next p - 1)). intros i f Hf Hsp.
    destruct (Nat.le_gt_cases (next p) i) as [Hle|Hlt].
    - pose proof (Hwaits i f Hf Hle) as Hw.
      destruct (f_state f) as [|[]| | |]; discriminate.
    - destruct (Nat.le_gt_cases (next p) (S i)) as [Hle'|Hlt']; [lia|].
      pose proof (Hdone i f Hf Hlt') as Hd.
      destruct (f_state f) as [|[]| | |]; discriminate. }
  lia.
Qed.

Lemma serial_invariant :
  invariant E self (fun p ext => wf tasks p ext /\ serial p ext).
Proof.
  intros t p e p' ext [Hwf (S1 & S3 & S5 & S6)] Hfires.
  pose proof (wf_invariant E self tasks _ _ _ _ _ Hwf Hfires) as Hwf'.
  split; [exact Hwf'|].
  pose proof Hwf as (_ & _ & Hnext & Hwaits & _).
  assert (Hafter : forall (P : fstate -> bool) i f,
             futures p !! i = Some f -> is_done (f_state f) = false ->
             (forall s, waits s = true -> P s = false) ->
             waits (f_state f) = false ->
             forall j g, futures p !! j = Some g -> i < j ->
                         P (f_state g) = false).
  { intros P i f Hf Hd HP Hw j g Hg Hlt. apply HP.
    apply (Hwaits j g Hg).
    destruct (Nat.le_gt_cases (next p) i) as [Hle|Hgt].
    - rewrite (Hwaits i f Hf Hle) in Hw. discriminate.
    - destruct (Nat.le_gt_cases (next p) (S i)) as [Hle'|Hlt']; [lia|].
      rewrite (S1 i f Hf Hlt') in Hd. discriminate. }
  assert (Hnew : (forall i f, futures p' !! i = Some f -> S i < next p' ->
                              is_done (f_state f) = true)
                 /\ started (ext ++ e) = tasks_where has_started (futures p')
                 /\ map fst (exited (ext ++ e))
                    = tasks_where has_exited (futures p')).
  { rewrite started_app, exited_app, map_app, S3, S5.
    fires_cases Hfires; pool_simpl; cbn [started exited map fst];
      rewrite ?app_nil_r.
    - (* take *)
      split; [|auto]. intros j g Hg Hlt.
      apply (idle_done p j g); [rewrite <- one; exact Hbusy|exact Hg|lia].
    - (* begin *)
      rewrite !(tasks_where_same _ i _ _ f Hf) by (rewrite Hst; reflexivity).
      split; [|auto]. intros j g. rewrite lookup_set_state.
      destruct (decide (i = j)) as [<-|_]; [|apply S1].
      rewrite Hf. intros [= <-] Hlt'. pose proof (S1 _ _ Hf Hlt') as Hd.
      rewrite Hst in Hd. discriminate Hd.
    - (* notify *)
      rewrite !(tasks_where_same _ i _ _ f Hf) by (rewrite Hst; reflexivity).
      split; [|auto]. intros j g. rewrite lookup_set_state.
      destruct (decide (i = j)) as [<-|_]; [|apply S1].
      rewrite Hf. intros [= <-] _. reflexivity.
    - (* spawn *)
      rewrite (tasks_where_same has_exited i _ _ f Hf)
        by (rewrite Hst; reflexivity).
      rewrite (tasks_where_set_last has_started i (Running true) _ f Hf);
        [| rewrite Hst; reflexivity | reflexivity
         | apply (Hafter has_started i f Hf); rewrite ?Hst; try reflexivity;
           intros [|[]| | |]; try discriminate; reflexivity ].
      split; [|auto]. intros j g. rewrite lookup_set_state.
      destruct (decide (i = j)) as [<-|_]; [|apply S1].
      rewrite Hf. intros [= <-] Hlt'. pose proof (S1 _ _ Hf Hlt') as Hd.
      rewrite Hst in Hd. discriminate Hd.
    - (* spawn fails *)
      rewrite !(tasks_where_same _ i _ _ f Hf) by (rewrite Hst; reflexivity).
      split; [|auto]. intros j g. rewrite lookup_set_state.
      destruct (decide (i = j)) as [<-|_]; [|apply S1].
      rewrite Hf. intros [= <-] _. reflexivity.
    - (* finish *)
      rewrite (tasks_where_same has_started i _ _ f Hf)
        by (rewrite Hst; reflexivity).
      rewrite (tasks_where_set_last has_exited i (Finished None) _ f Hf);
        [| rewrite Hst; reflexivity | reflexivity
         | apply (Hafter has_exited i f Hf); rewrite ?Hst; try reflexivity;
           intros [|[]| | |]; try discriminate; reflexivity ].
      split; [|auto]. intros j g. rewrite lookup_set_state.
      destruct (decide (i = j)) as [<-|_]; [|apply S1].
      rewrite Hf. intros [= <-] _. reflexivity.
    - (* finish fails *)
      rewrite (tasks_where_same has_started i _ _ f Hf)
        by (rewrite Hst; reflexivity).
      rewrite (tasks_where_set_last has_exited i
                 (Finished (Some (AssertionError exit_message))) _ f Hf);
        [| rewrite Hst; reflexivity | reflexivity
         | apply (Hafter has_exited i f Hf); rewrite ?Hst; try reflexivity;
           intros [|[]| | |]; try discriminate; reflexivity ].
      split; [|auto]. intros j g. rewrite lookup_set_state.
      destruct (decide (i = j)) as [<-|_]; [|apply S1].
      rewrite Hf. intros [= <-] _. reflexivity.
    - (* submit *)
      rewrite !tasks_where_app.
      cbn [tasks_where f_state has_started has_exited].
      rewrite !app_nil_r. split; [|auto].
      intros j g Hg Hlt. apply lookup_app_Some in Hg as [Hg|[Hge _]].
      + exact (S1 j g Hg Hlt).
      + lia.
    - auto.
    - auto.
    - auto.
    - auto.
    - auto.
    - (* cancel *)
      rewrite !(tasks_where_same _ i _ _ f Hf) by (rewrite Hst; reflexivity).
      split; [|auto]. intros j g. rewrite lookup_set_state.
      destruct (decide (i = j)) as [<-|_]; [|apply S1].
      rewrite Hf. intros [= <-] Hlt'. pose proof (S1 _ _ Hf Hlt') as Hd.
      rewrite Hst in Hd. discriminate Hd.
    - auto.
    - auto. }
  destruct Hnew as (S1' & S3' & S5').
  unfold serial. split; [exact S1'|]. split; [exact S3'|].
  split; [exact S5'|].
  apply (prefix_closed
           (fun a => length (exited a) <= length (started a)
                     /\ length (started a) <= length (exited a) + 1));
    [exact S6|exact (fires_events _ _ _ _ _ _ Hfires)|].
  exact (serial_trace _ _ Hwf' S1' S3' S5').
Qed.

(** X25: with [max_jobs] 1 the processes of a batch run one at a time and
    in the order of submission: the tasks that are started are started in
    the order in which they were given, each process has exited before the
    next is started, and when every task succeeds the tasks are started
    exactly in the given order. *)
Theorem runner_one_worker t :
  exists ext,
    (_run_tasks_parallel E self tasks t).2
    = t ++ PoolOpen 1 :: ext ++ [PoolShutdown]
    /\ sublist (started ext) tasks
    /\ map fst (exited ext) = started ext
    /\ (forall a b, ext = a ++ b ->
                    length (exited a) <= length (started a)
                    /\ length (started a) <= length (exited a) + 1)
    /\ (all_succeed E tasks -> started ext = tasks).
Proof.
  assert (HW : (0 < max_jobs (args self))%Z) by (rewrite one; reflexivity).
  destruct (runner_runs E self
              (fun p ext => (wf tasks p ext /\ serial p ext)
                            /\ (all_succeed E tasks -> healthy p ext))
              tasks t HW)
    as (ext & p & Hrun & ([Hwf Hser] & Hh) & Hdone & Hpc).
  - intros t0 p e p' ext ([Hwf Hser] & Hh) Hfires.
    split; [exact (serial_invariant _ _ _ _ _ (conj Hwf Hser) Hfires)|].
    intros Hall.
    exact (proj2 (healthy_invariant E self tasks Hall _ _ _ _ _
                    (conj Hwf (Hh Hall)) Hfires)).
  - split; [split; [apply wf_new_pool|]|intros _; apply healthy_new_pool].
    unfold serial, new_pool.
    cbn [futures next started exited map tasks_where].
    repeat split; try lia; try (intros [|i] f Hf; discriminate).
    all: destruct a; [cbn; lia|discriminate].
  - destruct (wf_all_submitted _ _ _ Hwf Hpc) as [Htasks _].
    destruct Hser as (_ & S3 & S5 & S6).
    exists ext. rewrite Hrun, one. cbn [snd].
    split; [reflexivity|]. split; [|split; [|split; [exact S6|]]].
    + rewrite S3, <- Htasks. apply tasks_where_sublist.
    + rewrite S3, S5. clear -Hdone.
      induction (futures p) as [|g fs IH]; [reflexivity|].
      cbn [tasks_where]. pose proof (Hdone g (or_introl eq_refl)) as Hg.
      rewrite IH by (intros f Hf; apply Hdone; right; exact Hf).
      destruct (f_state g) as [|[]| | |[[]|]]; try discriminate Hg;
        reflexivity.
    + intros Hall. destruct (Hh Hall) as (_ & Hstates & _).
      rewrite S3, <- Htasks. unfold tasks_of. apply tasks_where_all.
      intros f Hf. pose proof (Hdone f Hf) as Hd.
      destruct (Hstates f Hf) as [H|[[b H]|H]]; rewrite H in *;
        try discriminate Hd. reflexivity.
Qed.

End OneWorker.

Lemma runner_one_worker_witness :
  exists ext,
    (_run_tasks_parallel Scenario.main_first Scenario.serial
       Scenario.failing_batch []).2
    = [] ++ PoolOpen 1 :: ext ++ [PoolShutdown]
    /\ sublist (started ext) Scenario.failing_batch
    /\ map fst (exited ext) = started ext
    /\ (forall a b, ext = a ++ b ->
                    length (exited a) <= length (started a)
                    /\ length (started a) <= length (exited a) + 1)
    /\ (all_succeed Scenario.main_first Scenario.failing_batch ->
        started ext = Scenario.failing_batch).
Proof.
  exact (runner_one_worker Scenario.main_first Scenario.serial
           Scenario.failing_batch eq_refl []).
Defined.
